(** * The rules engine of the phase card game, embedded and verified

    The development follows the TypeScript sources:
    - [types.ts]: cards, melds, phases, players;
    - [utils/gameUtils]: deck construction, shuffling, the meld validators,
      the hit validator and the scoring function;
    - [App]: the React component owning the round state, with its handlers
      [handleDraw], [performDiscard], [handleMeld], [executeHit], [endRound]
      and [botPlayTurn]; the start of a round and the step to the next
      ([startRound], [nextRound]), the turn clock and [handleTimeout], the
      handlers the board calls ([handleCardClick], [handleDiscard],
      [handleHitMeld], [handleMeldDrop], [handleReorderHand], [sortHand])
      and [processHostAction], by which the host carries out the action of
      a client.

    Numbers of the source ([value], [count], [phaseIndex], [score],
    [timeLeft]) are integers of [Z]; array lengths and indices are [nat]. *)

From Stdlib Require Import ZArith Lia.
From stdpp Require Import base decidable list sorting strings pretty.

Open Scope Z_scope.

(** ** types.ts *)

Inductive CardColor := RED | BLUE | GREEN | YELLOW | WILD_COLOR | SKIP_COLOR.
Inductive CardType := NUMBER | WILD | SKIP.
Inductive RequirementType := SET | RUN | COLOR.
Inductive GameState := LOBBY | GENERATING | PLAYING | ROUND_OVER | GAME_OVER.
Inductive TurnPhase := DRAW | ACTION | DISCARD.

#[global] Instance CardColor_eq_dec : EqDecision CardColor.
Proof. solve_decision. Defined.
#[global] Instance CardType_eq_dec : EqDecision CardType.
Proof. solve_decision. Defined.
#[global] Instance RequirementType_eq_dec : EqDecision RequirementType.
Proof. solve_decision. Defined.
#[global] Instance GameState_eq_dec : EqDecision GameState.
Proof. solve_decision. Defined.
#[global] Instance TurnPhase_eq_dec : EqDecision TurnPhase.
Proof. solve_decision. Defined.

Record Card := mkCard {
  c_id : string;
  c_type : CardType;
  c_color : CardColor;
  c_value : Z;
  c_displayValue : string
}.

Record PhaseRequirement := mkReq {
  r_type : RequirementType;
  r_count : Z
}.

Record Phase := mkPhase {
  ph_id : Z;
  ph_name : string;
  ph_description : string;
  ph_requirements : list PhaseRequirement
}.

Record Meld := mkMeld {
  m_id : string;
  m_cards : list Card;
  m_type : RequirementType;
  m_ownerId : string
}.

(** [isSkipped] is an optional field of the source: [None] is [undefined]. *)
Record Player := mkPlayer {
  p_id : string;
  p_name : string;
  p_isHuman : bool;
  p_hand : list Card;
  p_melds : list Meld;
  p_phaseIndex : Z;
  p_hasLaidDownPhase : bool;
  p_score : Z;
  p_isSkipped : option bool
}.

#[global] Instance Card_eq_dec : EqDecision Card.
Proof. solve_decision. Defined.
#[global] Instance PhaseRequirement_eq_dec : EqDecision PhaseRequirement.
Proof. solve_decision. Defined.
#[global] Instance Meld_eq_dec : EqDecision Meld.
Proof. solve_decision. Defined.
#[global] Instance Player_eq_dec : EqDecision Player.
Proof. solve_decision. Defined.

(** ** constants.ts *)

Definition COLORS : list CardColor := [RED; BLUE; GREEN; YELLOW].

Definition STANDARD_PHASES : list Phase :=
  [ mkPhase 1 "Phase 1" "2 Sets of 3" [mkReq SET 3; mkReq SET 3];
    mkPhase 2 "Phase 2" "1 Set of 3 + 1 Run of 4" [mkReq SET 3; mkReq RUN 4];
    mkPhase 3 "Phase 3" "1 Set of 4 + 1 Run of 4" [mkReq SET 4; mkReq RUN 4];
    mkPhase 4 "Phase 4" "1 Run of 7" [mkReq RUN 7];
    mkPhase 5 "Phase 5" "1 Run of 8" [mkReq RUN 8];
    mkPhase 6 "Phase 6" "1 Run of 9" [mkReq RUN 9];
    mkPhase 7 "Phase 7" "2 Sets of 4" [mkReq SET 4; mkReq SET 4];
    mkPhase 8 "Phase 8" "7 Cards of One Color" [mkReq COLOR 7];
    mkPhase 9 "Phase 9" "1 Set of 5 + 1 Set of 2" [mkReq SET 5; mkReq SET 2];
    mkPhase 10 "Phase 10" "1 Set of 5 + 1 Set of 3" [mkReq SET 5; mkReq SET 3] ].

(** ** JavaScript array helpers *)

(** [xs.sort(cmp)]: the sort of the language is stable; an element stays
    before the elements it does not compare greater than. *)
Section JsSort.
Context {A : Type} (cmp : A -> A -> Z).

Fixpoint js_insert (x : A) (l : list A) : list A :=
  match l with
  | [] => [x]
  | y :: l' => if cmp x y <=? 0 then x :: y :: l' else y :: js_insert x l'
  end.

Fixpoint js_sort (l : list A) : list A :=
  match l with
  | [] => []
  | x :: l' => js_insert x (js_sort l')
  end.
End JsSort.

(** [xs.pop()] answers [last xs] and leaves [removelast xs] in the array. *)

(** The comparators of the source. *)
Definition byValueAsc (a b : Card) : Z := c_value a - c_value b.
Definition byValueDesc (a b : Card) : Z := c_value b - c_value a.

(** ** utils/gameUtils: deck management *)

Definition cardId (n : nat) : string := "card-" +:+ pretty n.

Definition numberCard (idCounter : nat) (color : CardColor) (val : nat) : Card :=
  mkCard (cardId idCounter) NUMBER color (Z.of_nat val) (pretty val).

(** The inner loop [for (val = 1; val <= 12; val++)]: pushes twelve cards
    and leaves the counter twelve higher. *)
Definition pushValues (color : CardColor) (st : list Card * nat) : list Card * nat :=
  foldl (fun '(deck, idCounter) val =>
           (deck ++ [numberCard idCounter color val], S idCounter))
        st (seq 1 12).

(** [for (set = 0; set < 2; set++)] around it. *)
Definition pushSets (st : list Card * nat) (color : CardColor) : list Card * nat :=
  foldl (fun st' _ => pushValues color st') st (seq 0 2).

Definition pushSpecial (ty : CardType) (col : CardColor) (v : Z) (d : string)
    (times : nat) (st : list Card * nat) : list Card * nat :=
  foldl (fun '(deck, idCounter) _ =>
           (deck ++ [mkCard (cardId idCounter) ty col v d], S idCounter))
        st (seq 0 times).

Definition createDeck : list Card :=
  let st := foldl pushSets ([], 0%nat) COLORS in
  let st := pushSpecial WILD WILD_COLOR 25 "W" 8 st in
  let st := pushSpecial SKIP SKIP_COLOR 15 "S" 4 st in
  fst st.

(** [shuffleDeck]: Fisher-Yates from the last index down to 1.  Each call of
    [Math.floor(Math.random() * (i + 1))] yields some index between 0 and
    [i]; the draws come from an oracle [rnd], one natural number per call,
    reduced modulo [i + 1], which ranges over exactly those indices. *)
Definition swap {A : Type} (i j : nat) (l : list A) : list A :=
  match l !! i, l !! j with
  | Some a, Some b => <[j := a]> (<[i := b]> l)
  | _, _ => l
  end.

Fixpoint shuffleLoop {A : Type} (i : nat) (rnd : list nat) (l : list A) : list A :=
  match i with
  | O => l
  | S i' =>
      let j := (hd 0%nat rnd `mod` (i + 1))%nat in
      shuffleLoop i' (tl rnd) (swap i j l)
  end.

Definition shuffleDeck {A : Type} (rnd : list nat) (deck : list A) : list A :=
  shuffleLoop (length deck - 1) rnd deck.

(** ** utils/gameUtils: validation logic *)

Definition isNumber (c : Card) : Prop := c_type c = NUMBER.
Definition isWild (c : Card) : Prop := c_type c = WILD.
Definition isNumberOrSkip (c : Card) : Prop := c_type c = NUMBER \/ c_type c = SKIP.

#[global] Instance isNumber_dec c : Decision (isNumber c).
Proof. unfold isNumber. apply _. Defined.
#[global] Instance isWild_dec c : Decision (isWild c).
Proof. unfold isWild. apply _. Defined.
#[global] Instance isNumberOrSkip_dec c : Decision (isNumberOrSkip c).
Proof. unfold isNumberOrSkip. apply _. Defined.

Definition len {A : Type} (l : list A) : Z := Z.of_nat (length l).

Definition isValidSet (cards : list Card) (requiredCount : Z) : bool :=
  if len cards <? requiredCount then false
  else
    let naturalCards := filter isNumber cards in
    let wilds := filter isWild cards in
    match naturalCards with
    | [] => true
    | first :: _ =>
        let firstValue := c_value first in
        let allSame := forallb (fun c => c_value c =? firstValue) naturalCards in
        allSame && (len naturalCards + len wilds >=? requiredCount)
    end.

Definition isValidColor (cards : list Card) (requiredCount : Z) : bool :=
  if len cards <? requiredCount then false
  else
    let naturalCards := filter isNumberOrSkip cards in
    let wilds := filter isWild cards in
    match naturalCards with
    | [] => true
    | first :: _ =>
        let firstColor := c_color first in
        let allSame := forallb (fun c => bool_decide (c_color c = firstColor)) naturalCards in
        allSame && (len naturalCards + len wilds >=? requiredCount)
    end.

(** The gap loop of [isValidRun] over the sorted natural cards: [None] is
    the early [return false] on a repeated value, [Some n] the wilds needed
    once the loop is through. *)
Fixpoint runGaps (naturalCards : list Card) (neededWilds : Z) : option Z :=
  match naturalCards with
  | a :: (b :: _) as rest =>
      let diff := c_value b - c_value a in
      if diff =? 0 then None
      else runGaps rest (if diff >? 1 then neededWilds + (diff - 1) else neededWilds)
  | _ => Some neededWilds
  end.

Definition isValidRun (cards : list Card) (requiredCount : Z) : bool :=
  if len cards <? requiredCount then false
  else
    let naturalCards := js_sort byValueAsc (filter isNumber cards) in
    let wildCount := len (filter isWild cards) in
    match naturalCards with
    | [] => true
    | _ =>
        match runGaps naturalCards 0 with
        | None => false
        | Some neededWilds => wildCount >=? neededWilds
        end
    end.

Definition checkSingleReq (cards : list Card) (req : PhaseRequirement) : bool :=
  match r_type req with
  | SET => isValidSet cards (r_count req)
  | COLOR => isValidColor cards (r_count req)
  | RUN => isValidRun cards (r_count req)
  end.

(** 32-bit integer operators of the language, as [validatePhaseHand] uses
    them: operands are taken to signed 32-bit values, shift counts modulo 32. *)
Definition toInt32 (z : Z) : Z :=
  let m := z `mod` 2 ^ 32 in
  if m >=? 2 ^ 31 then m - 2 ^ 32 else m.

Definition js_shl (a b : Z) : Z := toInt32 (Z.shiftl (toInt32 a) (b `mod` 32)).
Definition js_shr (a b : Z) : Z := Z.shiftr (toInt32 a) (b `mod` 32).
Definition js_and (a b : Z) : Z := toInt32 (Z.land (toInt32 a) (toInt32 b)).

Record Validation := mkValidation {
  valid : bool;
  groups : option (list (list Card))
}.

(** The inner loop over [j]: card [j] goes to [group1] when bit [j] of the
    mask [i] is set, to [group2] otherwise. *)
Fixpoint splitByMask (i : Z) (j : nat) (cards group1 group2 : list Card)
    : list Card * list Card :=
  match cards with
  | [] => (group1, group2)
  | c :: cards' =>
      if js_and (js_shr i (Z.of_nat j)) 1 =? 0
      then splitByMask i (S j) cards' group1 (group2 ++ [c])
      else splitByMask i (S j) cards' (group1 ++ [c]) group2
  end.

(** The outer loop from mask [i] on, [trips] iterations being left. *)
Fixpoint searchSplit (trips : nat) (i : Z) (cards : list Card)
    (req0 req1 : PhaseRequirement) : Validation :=
  match trips with
  | O => mkValidation false None
  | S trips' =>
      let '(group1, group2) := splitByMask i 0 cards [] [] in
      if checkSingleReq group1 req0 && checkSingleReq group2 req1
      then mkValidation true (Some [group1; group2])
      else if checkSingleReq group2 req0 && checkSingleReq group1 req1
      then mkValidation true (Some [group2; group1])
      else searchSplit trips' (i + 1) cards req0 req1
  end.

Definition validatePhaseHand (selectedCards : list Card)
    (requirements : list PhaseRequirement) : Validation :=
  let cards := selectedCards in
  match requirements with
  | [req] =>
      let valid :=
        match r_type req with
        | SET => isValidSet cards (r_count req)
        | COLOR => isValidColor cards (r_count req)
        | RUN => isValidRun cards (r_count req)
        end in
      mkValidation valid (if valid then Some [cards] else None)
  | [req0; req1] =>
      let n := len cards in
      (* for (let i = 1; i < (1 << n) - 1; i++) *)
      let bound := js_shl 1 n - 1 in
      searchSplit (Z.to_nat (bound - 1)) 1 cards req0 req1
  | _ => mkValidation false None
  end.

Definition canAddToMeld (card : Card) (meld : Meld) : bool :=
  if decide (c_type card = SKIP) then false
  else
    let newGroup := m_cards meld ++ [card] in
    match m_type meld with
    | SET => isValidSet newGroup (len (m_cards meld))
    | COLOR => isValidColor newGroup (len (m_cards meld))
    | RUN => isValidRun newGroup (len (m_cards meld))
    end.

(** ** utils/gameUtils: scoring *)

Definition scoreStep (acc : Z) (card : Card) : Z :=
  if decide (c_type card = WILD) then acc + 25
  else if decide (c_type card = SKIP) then acc + 15
  else if c_value card >=? 10 then acc + 10
  else acc + 5.

Definition calculateScore (hand : list Card) : Z := foldl scoreStep 0 hand.

(** ** App: the round state and its handlers

    The component keeps the round in React state variables.  A handler is a
    closure of one render: every read of [players], [deck], [discardPile],
    ... inside it sees the values of that render (the snapshot [g] below),
    whatever it has passed to a setter meanwhile; the setters queue the next
    values, and the last value given to a setter is the one the next render
    shows.  The handlers are therefore functions of the snapshot that thread
    the pending next state, in a small monad with the failure modes of the
    language. *)

(** What a client forwards to the host instead of acting. *)
Inductive NetworkActionPayload :=
  | DrawAction (fromDiscard : bool)
  | MeldAction (cardIds : list string).

Record Game := mkGame {
  gameState : GameState;
  phases : list Phase;
  notification : string;
  isMultiplayer : bool;
  isHost : bool;
  timeLeft : Z;
  players : list Player;
  deck : list Card;
  discardPile : list Card;
  currentPlayerIndex : nat;
  turnPhase : TurnPhase;
  selectedCardIds : list string;
  roundWinnerId : option string;
  sentActions : list NetworkActionPayload
}.

(** [Returned]: the handler ran to its end (or to a [return]).
    [Thrown]: a TypeError (a property read on [undefined]) ended it; what
    was queued before stays queued.
    [Unmodelled]: the source would go on with a value this embedding has no
    room for (a hole in a sparse array, [NaN] as an index, [undefined] as a
    card); no caller in the source gets there. *)
Inductive Outcome (A : Type) :=
  | Returned (a : A) (next : Game)
  | Thrown (next : Game)
  | Unmodelled.
Arguments Returned {A} a next.
Arguments Thrown {A} next.
Arguments Unmodelled {A}.

Definition Handler (A : Type) : Type := Game -> Outcome A.

#[global] Instance Handler_ret : MRet Handler :=
  fun A a next => Returned a next.
#[global] Instance Handler_bind : MBind Handler :=
  fun A B f m next =>
    match m next with
    | Returned a next' => f a next'
    | Thrown next' => Thrown next'
    | Unmodelled => Unmodelled
    end.

(** A bare [return;], or the end of the handler's body. *)
Definition returnVoid : Handler unit := mret tt.
Definition throwTypeError {A : Type} : Handler A := fun next => Thrown next.
Definition unmodelled {A : Type} : Handler A := fun _ => Unmodelled.

(** The state the next render shows when the handler is called on [g]. *)
Definition run (g : Game) (h : Handler unit) : option Game :=
  match h g with
  | Returned _ next => Some next
  | Thrown next => Some next
  | Unmodelled => None
  end.

(** *** The setters *)

Definition setGameState (v : GameState) : Handler unit := fun s =>
  Returned tt (mkGame v (phases s) (notification s) (isMultiplayer s) (isHost s)
    (timeLeft s) (players s) (deck s) (discardPile s) (currentPlayerIndex s)
    (turnPhase s) (selectedCardIds s) (roundWinnerId s) (sentActions s)).
Definition setNotification (v : string) : Handler unit := fun s =>
  Returned tt (mkGame (gameState s) (phases s) v (isMultiplayer s) (isHost s)
    (timeLeft s) (players s) (deck s) (discardPile s) (currentPlayerIndex s)
    (turnPhase s) (selectedCardIds s) (roundWinnerId s) (sentActions s)).
Definition setPlayers (v : list Player) : Handler unit := fun s =>
  Returned tt (mkGame (gameState s) (phases s) (notification s) (isMultiplayer s)
    (isHost s) (timeLeft s) v (deck s) (discardPile s) (currentPlayerIndex s)
    (turnPhase s) (selectedCardIds s) (roundWinnerId s) (sentActions s)).
Definition setDeck (v : list Card) : Handler unit := fun s =>
  Returned tt (mkGame (gameState s) (phases s) (notification s) (isMultiplayer s)
    (isHost s) (timeLeft s) (players s) v (discardPile s) (currentPlayerIndex s)
    (turnPhase s) (selectedCardIds s) (roundWinnerId s) (sentActions s)).
Definition setDiscardPile (v : list Card) : Handler unit := fun s =>
  Returned tt (mkGame (gameState s) (phases s) (notification s) (isMultiplayer s)
    (isHost s) (timeLeft s) (players s) (deck s) v (currentPlayerIndex s)
    (turnPhase s) (selectedCardIds s) (roundWinnerId s) (sentActions s)).
Definition setCurrentPlayerIndex (v : nat) : Handler unit := fun s =>
  Returned tt (mkGame (gameState s) (phases s) (notification s) (isMultiplayer s)
    (isHost s) (timeLeft s) (players s) (deck s) (discardPile s) v
    (turnPhase s) (selectedCardIds s) (roundWinnerId s) (sentActions s)).
Definition setTurnPhase (v : TurnPhase) : Handler unit := fun s =>
  Returned tt (mkGame (gameState s) (phases s) (notification s) (isMultiplayer s)
    (isHost s) (timeLeft s) (players s) (deck s) (discardPile s)
    (currentPlayerIndex s) v (selectedCardIds s) (roundWinnerId s) (sentActions s)).
Definition setSelectedCardIds (v : list string) : Handler unit := fun s =>
  Returned tt (mkGame (gameState s) (phases s) (notification s) (isMultiplayer s)
    (isHost s) (timeLeft s) (players s) (deck s) (discardPile s)
    (currentPlayerIndex s) (turnPhase s) v (roundWinnerId s) (sentActions s)).
Definition setRoundWinnerId (v : option string) : Handler unit := fun s =>
  Returned tt (mkGame (gameState s) (phases s) (notification s) (isMultiplayer s)
    (isHost s) (timeLeft s) (players s) (deck s) (discardPile s)
    (currentPlayerIndex s) (turnPhase s) (selectedCardIds s) v (sentActions s)).
Definition sendClientAction (a : NetworkActionPayload) : Handler unit := fun s =>
  Returned tt (mkGame (gameState s) (phases s) (notification s) (isMultiplayer s)
    (isHost s) (timeLeft s) (players s) (deck s) (discardPile s)
    (currentPlayerIndex s) (turnPhase s) (selectedCardIds s) (roundWinnerId s)
    (sentActions s ++ [a])).

(** Object spreads [{ ...p, field: v }]. *)
Definition withHand (p : Player) (v : list Card) : Player :=
  mkPlayer (p_id p) (p_name p) (p_isHuman p) v (p_melds p) (p_phaseIndex p)
    (p_hasLaidDownPhase p) (p_score p) (p_isSkipped p).
Definition withMelds (p : Player) (v : list Meld) : Player :=
  mkPlayer (p_id p) (p_name p) (p_isHuman p) (p_hand p) v (p_phaseIndex p)
    (p_hasLaidDownPhase p) (p_score p) (p_isSkipped p).
Definition withPhaseIndex (p : Player) (v : Z) : Player :=
  mkPlayer (p_id p) (p_name p) (p_isHuman p) (p_hand p) (p_melds p) v
    (p_hasLaidDownPhase p) (p_score p) (p_isSkipped p).
Definition withHasLaidDownPhase (p : Player) (v : bool) : Player :=
  mkPlayer (p_id p) (p_name p) (p_isHuman p) (p_hand p) (p_melds p)
    (p_phaseIndex p) v (p_score p) (p_isSkipped p).
Definition withScore (p : Player) (v : Z) : Player :=
  mkPlayer (p_id p) (p_name p) (p_isHuman p) (p_hand p) (p_melds p)
    (p_phaseIndex p) (p_hasLaidDownPhase p) v (p_isSkipped p).
Definition withIsSkipped (p : Player) (v : option bool) : Player :=
  mkPlayer (p_id p) (p_name p) (p_isHuman p) (p_hand p) (p_melds p)
    (p_phaseIndex p) (p_hasLaidDownPhase p) (p_score p) v.
Definition withCards (m : Meld) (v : list Card) : Meld :=
  mkMeld (m_id m) v (m_type m) (m_ownerId m).

(** *** Reads and writes of arrays *)

(** [xs[i].field]: a TypeError when [xs[i]] is [undefined]. *)
Definition readIndex {A : Type} (xs : list A) (i : nat) : Handler A :=
  match xs !! i with
  | Some x => mret x
  | None => throwTypeError
  end.

(** [copy = [...xs]; copy[i] = x]: past the end the language grows the
    array and leaves holes. *)
Definition arraySet {A : Type} (xs : list A) (i : nat) (x : A) : Handler (list A) :=
  if decide (i < length xs)%nat then mret (<[i := x]> xs) else unmodelled.

(** [k % xs.length]: [NaN] for the empty array. *)
Definition modLength {A : Type} (k : nat) (xs : list A) : Handler nat :=
  match xs with
  | [] => unmodelled
  | _ => mret (k `mod` length xs)%nat
  end.

(** [newPlayers[i].isSkipped = true], where [newPlayers] is the array just
    handed to [setPlayers]: the assignment goes through to the object the
    pending state holds. *)
Definition markSkipped (i : nat) : Handler unit := fun s =>
  match players s !! i with
  | Some p => setPlayers (<[i := withIsSkipped p (Some true)]> (players s)) s
  | None => Thrown s
  end.

(** *** endRound *)

Definition endRound (g : Game) (winnerId : string) : Handler unit :=
  setRoundWinnerId (Some winnerId);;
  setGameState ROUND_OVER;;
  let updatedPlayers :=
    map (fun p =>
           if decide (p_id p = winnerId) then withScore p (p_score p)
           else withScore p (p_score p + calculateScore (p_hand p)))
        (players g) in
  let finalPlayers :=
    map (fun p =>
           withPhaseIndex p
             (if p_hasLaidDownPhase p
              then Z.min (p_phaseIndex p + 1) (len (phases g) - 1)
              else p_phaseIndex p))
        updatedPlayers in
  setPlayers finalPlayers.

(** *** handleDraw *)

(** The common tail of [handleDraw]: [card = pile.pop()], then the four
    setters. *)
Definition finishDraw (g : Game) (player : Player) (card : Card)
    (newDeck newDiscard : list Card) : Handler unit :=
  let updatedPlayer := withHand player (p_hand player ++ [card]) in
  newPlayers ← arraySet (players g) (currentPlayerIndex g) updatedPlayer;
  setDeck newDeck;;
  setDiscardPile newDiscard;;
  setPlayers newPlayers;;
  setTurnPhase ACTION.

Definition handleDraw (g : Game) (rnd : list nat) (fromDiscard : bool) : Handler unit :=
  if isMultiplayer g && negb (isHost g) then sendClientAction (DrawAction fromDiscard)
  else
    player ← readIndex (players g) (currentPlayerIndex g);
    if negb (p_isHuman player) && (timeLeft g >? 0) && negb (isMultiplayer g)
    then returnVoid
    else
      let newDeck := deck g in
      let newDiscard := discardPile g in
      if fromDiscard then
        match last newDiscard with
        | None => throwTypeError
        | Some top =>
            if decide (c_type top = SKIP)
            then setNotification "Cannot pick up a Skip card!"
            else finishDraw g player top newDeck (removelast newDiscard)
        end
      else
        match last newDeck with
        | None =>
            (* newDeck.length === 0 *)
            if decide (length newDiscard <= 1)%nat
            then setNotification "Deck empty and no discard to shuffle. Game Draw."
            else
              match last newDiscard with
              | Some top =>
                  let newDeck := shuffleDeck rnd (removelast newDiscard) in
                  let newDiscard := [top] in
                  match last newDeck with
                  | Some card => finishDraw g player card (removelast newDeck) newDiscard
                  | None => unmodelled
                  end
              | None => unmodelled
              end
        | Some card => finishDraw g player card (removelast newDeck) newDiscard
        end.

(** *** performDiscard *)

Definition performDiscard (g : Game) (player : Player) (cardToDiscard : Card)
    : Handler unit :=
  let newHand := filter (fun c => c_id c <> c_id cardToDiscard) (p_hand player) in
  let newDiscard := discardPile g ++ [cardToDiscard] in
  newPlayers ← arraySet (players g) (currentPlayerIndex g) (withHand player newHand);
  setDiscardPile newDiscard;;
  setPlayers newPlayers;;
  setSelectedCardIds [];;
  if decide (length newHand = 0)%nat then endRound g (p_id player)
  else
    nextIndex ← modLength (currentPlayerIndex g + 1) (players g);
    if decide (c_type cardToDiscard = SKIP) then
      skipped ← readIndex (players g) nextIndex;
      setNotification (p_name skipped +:+ " was skipped!");;
      markSkipped nextIndex;;
      nextIndex ← modLength (nextIndex + 1) (players g);
      setCurrentPlayerIndex nextIndex;;
      setTurnPhase DRAW
    else
      setCurrentPlayerIndex nextIndex;;
      setTurnPhase DRAW.

(** *** handleMeld *)

(** [xs[i]] for a number [i] of the source. *)
Definition lookupZ {A : Type} (xs : list A) (i : Z) : option A :=
  if i <? 0 then None else xs !! Z.to_nat i.

Definition meldId (now : Z) (idx : nat) : string :=
  "meld-" +:+ pretty now +:+ "-" +:+ pretty idx.

(** [validation.groups.map((group, idx) => ...)]; [clock idx] is what
    [Date.now()] answers in the call for [idx].  [None] when
    [requirements[idx]] is [undefined]. *)
Fixpoint buildMelds (clock : nat -> Z) (requirements : list PhaseRequirement)
    (ownerId : string) (idx : nat) (groups : list (list Card)) : option (list Meld) :=
  match groups with
  | [] => Some []
  | group :: groups' =>
      match requirements !! idx, buildMelds clock requirements ownerId (S idx) groups' with
      | Some req, Some rest =>
          Some (mkMeld (meldId (clock idx) idx) group (r_type req) ownerId :: rest)
      | _, _ => None
      end
  end.

Definition handleMeld (g : Game) (clock : nat -> Z) : Handler unit :=
  if isMultiplayer g && negb (isHost g) then
    sendClientAction (MeldAction (selectedCardIds g));;
    setSelectedCardIds []
  else
    player ← readIndex (players g) (currentPlayerIndex g);
    if p_hasLaidDownPhase player
    then setNotification "You have already completed your phase this round."
    else
      let selectedHand := filter (fun c => c_id c ∈ selectedCardIds g) (p_hand player) in
      match lookupZ (phases g) (p_phaseIndex player) with
      | None => throwTypeError
      | Some currentPhase =>
          let validation := validatePhaseHand selectedHand (ph_requirements currentPhase) in
          match valid validation, groups validation with
          | true, Some groups =>
              let newHand := filter (fun c => c_id c ∉ selectedCardIds g) (p_hand player) in
              match buildMelds clock (ph_requirements currentPhase) (p_id player) 0 groups with
              | None => throwTypeError
              | Some newMelds =>
                  let updated :=
                    withHasLaidDownPhase
                      (withMelds (withHand player newHand) (p_melds player ++ newMelds))
                      true in
                  newPlayers ← arraySet (players g) (currentPlayerIndex g) updated;
                  setPlayers newPlayers;;
                  setSelectedCardIds [];;
                  setNotification "Phase Completed! You can now hit on melds or discard."
              end
          | _, _ => setNotification "Invalid card combination for this phase."
          end
      end.

(** *** executeHit *)

Definition findMeld (targetMeldId : string) (melds : list Meld) : option (nat * Meld) :=
  list_find (fun m => m_id m = targetMeldId) melds.

(** The [forEach] that looks the target up: the last player owning a meld
    of that id decides. *)
Definition findTargetMeld (targetMeldId : string) (ps : list Player) : option Meld :=
  foldl (fun targetMeld p =>
           match findMeld targetMeldId (p_melds p) with
           | Some (_, m) => Some m
           | None => targetMeld
           end)
        None ps.

Definition hitPlayer (player : Player) (card : Card) (targetMeldId : string)
    (newHand : list Card) (p : Player) : Player :=
  let updatedPlayer := if decide (p_id p = p_id player) then withHand p newHand else p in
  match findMeld targetMeldId (p_melds p) with
  | Some (meldIndex, m) =>
      let newMeldCards := js_sort byValueAsc (m_cards m ++ [card]) in
      withMelds updatedPlayer (<[meldIndex := withCards m newMeldCards]> (p_melds p))
  | None => updatedPlayer
  end.

Definition executeHit (g : Game) (player : Player) (card : Card)
    (targetMeldId : string) : Handler unit :=
  match findTargetMeld targetMeldId (players g) with
  | None => setNotification "Target phase not found."
  | Some targetMeld =>
      if canAddToMeld card targetMeld then
        let newHand := filter (fun c => c_id c <> c_id card) (p_hand player) in
        let newPlayers := map (hitPlayer player card targetMeldId newHand) (players g) in
        setPlayers newPlayers;;
        setSelectedCardIds [];;
        setNotification "Card added to phase!";;
        if decide (length newHand = 0)%nat then endRound g (p_id player) else returnVoid
      else setNotification "That card doesn't fit in this phase."
  end.

(** *** botPlayTurn *)

(** [xs.slice(0, e)] and what [xs.splice(0, n)] leaves in [xs]. *)
Definition js_slice0 {A : Type} (e : Z) (xs : list A) : list A :=
  take (Z.to_nat (if e <? 0 then Z.max (len xs + e) 0 else Z.min e (len xs))) xs.
Definition js_splice0 {A : Type} (n : Z) (xs : list A) : list A :=
  drop (Z.to_nat (Z.min (Z.max n 0) (len xs))) xs.

Definition botMeldId (botId : string) (now : Z) : string :=
  "bot-meld-" +:+ botId +:+ "-" +:+ pretty now.

(** Steps 2 and 3 of the bot turn, once a card is drawn.  [roll] is the
    verdict of [Math.random() > 0.85], [now] the answer of [Date.now()]. *)
Definition botMeldAndDiscard (g : Game) (roll : bool) (now : Z) (bot : Player)
    (currentHand : list Card) : Handler unit :=
  '(currentHand, hasMeld) ←
    (if negb (p_hasLaidDownPhase bot) && (len currentHand >=? 6) && roll then
       match lookupZ (phases g) (p_phaseIndex bot) with
       | None => throwTypeError
       | Some phase =>
           let reqCount := foldl (fun a b => a + r_count b) 0 (ph_requirements phase) in
           let meldCards := js_slice0 reqCount currentHand in
           let currentHand := js_splice0 reqCount currentHand in
           let botMeld := mkMeld (botMeldId (p_id bot) now) meldCards SET (p_id bot) in
           let melded := withMelds bot (p_melds bot ++ [botMeld]) in
           let newPlayers :=
             match list_find (fun p => p_id p = p_id bot) (players g) with
             | Some (botIndex, _) => <[botIndex := melded]> (players g)
             | None => players g
             end in
           setPlayers newPlayers;;
           mret (currentHand, true)
       end
     else mret (currentHand, false));
  let botUpdated :=
    withHasLaidDownPhase (withHand bot currentHand) (p_hasLaidDownPhase bot || hasMeld) in
  let sortedHand := js_sort byValueDesc currentHand in
  let discardCard :=
    match list_find (fun c => c_type c <> WILD /\ c_type c <> SKIP) sortedHand with
    | Some (_, c) => Some c
    | None => head sortedHand
    end in
  match discardCard with
  | Some discardCard => performDiscard g botUpdated discardCard
  | None => returnVoid
  end.

Definition botPlayTurn (g : Game) (rnd : list nat) (roll : bool) (now : Z)
    (bot : Player) : Handler unit :=
  if decide (gameState g <> PLAYING) then returnVoid
  else
    let currentHand := p_hand bot in
    let currentDeck := deck g in
    let currentDiscard := discardPile g in
    match last currentDeck with
    | Some cardDrawn =>
        (* currentDeck.length > 0 *)
        setDeck (removelast currentDeck);;
        botMeldAndDiscard g roll now bot (currentHand ++ [cardDrawn])
    | None =>
        if decide (1 < length currentDiscard)%nat then
          match last currentDiscard with
          | Some top =>
              let currentDeck := shuffleDeck rnd (removelast currentDiscard) in
              (* currentDiscard = [top] stays local: no setter is given it *)
              match last currentDeck with
              | Some cardDrawn =>
                  setDeck (removelast currentDeck);;
                  botMeldAndDiscard g roll now bot (currentHand ++ [cardDrawn])
              | None => unmodelled
              end
          | None => unmodelled
          end
        else returnVoid
    end.

(** ** utils/gameUtils: dealing *)

Definition HAND_SIZE : nat := 10.

(** One turn of the inner loop of [dealCards]: player [p] gets the last
    card of the deck, if there is one left. *)
Definition dealOne (st : list (list Card) * list Card) (p : nat)
    : list (list Card) * list Card :=
  let '(hands, currentDeck) := st in
  match last currentDeck with
  | Some card => (alter (fun hand => hand ++ [card]) p hands, removelast currentDeck)
  | None => st
  end.

(** [for (let p = 0; p < playerCount; p++)]. *)
Definition dealRound (playerCount : nat) (st : list (list Card) * list Card)
    : list (list Card) * list Card :=
  foldl dealOne st (seq 0 playerCount).

(** The hands and the remaining deck. *)
Definition dealCards (deck : list Card) (playerCount handSize : nat)
    : list (list Card) * list Card :=
  foldl (fun st _ => dealRound playerCount st) (replicate playerCount [], deck)
        (seq 0 handSize).

(** ** App: starting and ending rounds *)

Definition setTimeLeft (v : Z) : Handler unit := fun s =>
  Returned tt (mkGame (gameState s) (phases s) (notification s) (isMultiplayer s)
    (isHost s) v (players s) (deck s) (discardPile s) (currentPlayerIndex s)
    (turnPhase s) (selectedCardIds s) (roundWinnerId s) (sentActions s)).

(** The player of a new round: [{ ...p, hand: hand.sort(...), melds: [],
    hasLaidDownPhase: false, isSkipped: false }]. *)
Definition seatPlayer (p : Player) (hand : list Card) : Player :=
  mkPlayer (p_id p) (p_name p) (p_isHuman p) (js_sort byValueAsc hand) []
    (p_phaseIndex p) false (p_score p) (Some false).

(** [startRound] once the new deck is shuffled; [turnDuration] is the
    setting of the component.  The hands array has one entry per player,
    so that [hands[idx]] is the hand zipped with player [idx].  The
    broadcast that the host schedules for later is a separate event and
    leaves the state alone. *)
Definition startRoundWith (g : Game) (turnDuration : Z) (currentPlayers : list Player)
    (newDeck : list Card) : Handler unit :=
  let dealing := dealCards newDeck (length currentPlayers) HAND_SIZE in
  let hands := dealing.1 in
  let remainingDeck := dealing.2 in
  match last remainingDeck with
  | None => unmodelled
  | Some firstDiscard =>
      let remainingDeck := removelast remainingDeck in
      let updatedPlayers := zip_with seatPlayer currentPlayers hands in
      setDeck remainingDeck;;
      setDiscardPile [firstDiscard];;
      setPlayers updatedPlayers;;
      setCurrentPlayerIndex 0;;
      setTurnPhase DRAW;;
      setRoundWinnerId None;;
      setGameState PLAYING;;
      first ← readIndex updatedPlayers 0;
      match lookupZ (phases g) (p_phaseIndex first) with
      | None => throwTypeError
      | Some phase =>
          setNotification ("Round Started! Phase: " +:+ ph_name phase);;
          setSelectedCardIds [];;
          setTimeLeft turnDuration
      end
  end.

Definition startRound (g : Game) (rnd : list nat) (turnDuration : Z)
    (currentPlayers : list Player) : Handler unit :=
  startRoundWith g turnDuration currentPlayers (shuffleDeck rnd createDeck).

Definition nextRound (g : Game) (rnd : list nat) (turnDuration : Z) : Handler unit :=
  if isMultiplayer g && negb (isHost g) then returnVoid
  else
    let isGameOver :=
      existsb (fun p => (p_phaseIndex p =? len (phases g) - 1) && p_hasLaidDownPhase p)
              (players g) in
    if isGameOver then setGameState GAME_OVER
    else startRound g rnd turnDuration (players g).

(** ** App: the turn clock *)

(** The update of the interval: [prev <= 1 ? 0 : prev - 1]. *)
Definition tick (prev : Z) : Z := if prev <=? 1 then 0 else prev - 1.

(** The card the auto-play gives up: the first card that is neither wild
    nor skip in the hand sorted by falling value, or else the first card of
    that order.  [botPlayTurn] picks its discard in the same way. *)
Definition pickDiscard (hand : list Card) : option Card :=
  let sortedHand := js_sort byValueDesc hand in
  match list_find (fun c => c_type c <> WILD /\ c_type c <> SKIP) sortedHand with
  | Some (_, c) => Some c
  | None => head sortedHand
  end.

Definition handleTimeout (g : Game) (rnd : list nat) : Handler unit :=
  if decide (gameState g <> PLAYING) then returnVoid
  else
    player ← readIndex (players g) (currentPlayerIndex g);
    if negb (p_isHuman player) then returnVoid
    else
      setNotification "Time's up! Auto-playing turn.";;
      if decide (turnPhase g = DRAW) then handleDraw g rnd false
      else
        match pickDiscard (p_hand player) with
        | Some cardToDiscard => performDiscard g player cardToDiscard
        | None => returnVoid
        end.

(** ** App: what the board and the host connection call *)

(** The payload of an action message with its optional fields, as
    [types.ts] declares it and as it reaches the host. *)
Inductive NetworkActionType :=
  | A_DRAW | A_DISCARD | A_MELD | A_HIT | A_REORDER | A_START_GAME.

Record ActionMessage := mkAction {
  a_action : NetworkActionType;
  a_playerId : option string;
  a_cardId : option string;
  a_cardIds : option (list string);
  a_meldId : option string;
  a_fromIndex : option Z;
  a_toIndex : option Z;
  a_fromDiscard : option bool
}.

(** [if (s)] on an optional string: [undefined] and the empty string fail. *)
Definition truthy (s : option string) : option string :=
  match s with
  | Some "" => None
  | other => other
  end.

(** The handlers below hand at most one message to [sendClientAction],
    which stamps it with the id of the local player; the message is their
    result. *)
Definition forward (myPlayerId : string) (action : ActionMessage)
    : Handler (option ActionMessage) :=
  mret (Some (mkAction (a_action action) (Some myPlayerId) (a_cardId action)
                (a_cardIds action) (a_meldId action) (a_fromIndex action)
                (a_toIndex action) (a_fromDiscard action))).

Definition local (h : Handler unit) : Handler (option ActionMessage) :=
  h;; mret None.

Definition blankAction (action : NetworkActionType) : ActionMessage :=
  mkAction action None None None None None None None.

(** [xs.splice(start, ...)]: where a relative start lands in an array of
    length [n]. *)
Definition js_relative (start : Z) (n : nat) : nat :=
  Z.to_nat (if start <? 0 then Z.max (Z.of_nat n + start) 0 else Z.min start (Z.of_nat n)).

(** [[moved] = hand.splice(fromIndex, 1); hand.splice(toIndex, 0, moved)].
    [None] when nothing is removed: [moved] is [undefined] then, and is
    inserted all the same. *)
Definition moveCard (hand : list Card) (fromIndex toIndex : Z) : option (list Card) :=
  let start := js_relative fromIndex (length hand) in
  match hand !! start with
  | None => None
  | Some moved =>
      let rest := delete start hand in
      let target := js_relative toIndex (length rest) in
      Some (take target rest ++ moved :: drop target rest)
  end.

Definition handleCardClick (g : Game) (myPlayerId : string) (card : Card) : Handler unit :=
  p ← readIndex (players g) (currentPlayerIndex g);
  if decide (p_id p <> myPlayerId) then returnVoid
  else if decide (turnPhase g = ACTION \/ turnPhase g = DISCARD) then
    if decide (c_id card ∈ selectedCardIds g)
    then setSelectedCardIds (filter (fun id => id <> c_id card) (selectedCardIds g))
    else if decide (turnPhase g = DISCARD) then setSelectedCardIds [c_id card]
    else setSelectedCardIds (selectedCardIds g ++ [c_id card])
  else returnVoid.

Definition handleDiscard (g : Game) (myPlayerId : string)
    : Handler (option ActionMessage) :=
  if isMultiplayer g && negb (isHost g) then
    match selectedCardIds g with
    | [cardId] =>
        setSelectedCardIds [];;
        forward myPlayerId
          (mkAction A_DISCARD None (Some cardId) None None None None None)
    | _ => local (setNotification "Select one card.")
    end
  else
    match selectedCardIds g with
    | [cardId] =>
        player ← readIndex (players g) (currentPlayerIndex g);
        match list_find (fun c => c_id c = cardId) (p_hand player) with
        | Some (_, cardToDiscard) => local (performDiscard g player cardToDiscard)
        | None => mret None
        end
    | _ => local (setNotification "Select exactly one card to discard.")
    end.

Definition handleHitMeld (g : Game) (myPlayerId : string) (targetMeld : Meld)
    : Handler (option ActionMessage) :=
  if isMultiplayer g && negb (isHost g) then
    match selectedCardIds g with
    | [cardId] =>
        setSelectedCardIds [];;
        forward myPlayerId
          (mkAction A_HIT None (Some cardId) None (Some (m_id targetMeld)) None None None)
    | _ => local (setNotification "Select one card.")
    end
  else
    match selectedCardIds g with
    | [cardId] =>
        player ← readIndex (players g) (currentPlayerIndex g);
        match list_find (fun c => c_id c = cardId) (p_hand player) with
        | Some (_, card) => local (executeHit g player card (m_id targetMeld))
        | None => mret None
        end
    | _ => local (setNotification "Select exactly one card to hit.")
    end.

Definition handleMeldDrop (g : Game) (myPlayerId : string) (cardIndex : Z)
    (meldId : string) : Handler (option ActionMessage) :=
  player ← readIndex (players g) (currentPlayerIndex g);
  match lookupZ (p_hand player) cardIndex with
  | None => mret None
  | Some card =>
      if isMultiplayer g && negb (isHost g) then
        forward myPlayerId
          (mkAction A_HIT None (Some (c_id card)) None (Some meldId) None None None)
      else if decide (turnPhase g <> ACTION \/ p_hasLaidDownPhase player = false) then
        local (setNotification "You must lay down your phase first before hitting.")
      else local (executeHit g player card meldId)
  end.

Definition handleReorderHand (g : Game) (myPlayerId : string) (fromIndex toIndex : Z)
    : Handler (option ActionMessage) :=
  if isMultiplayer g && negb (isHost g) then
    forward myPlayerId
      (mkAction A_REORDER None None None None (Some fromIndex) (Some toIndex) None)
  else
    match list_find (fun p => p_id p = myPlayerId) (players g) with
    | None => mret None
    | Some (playerIdx, player) =>
        let n := len (p_hand player) in
        if (fromIndex <? 0) || (fromIndex >=? n) || (toIndex <? 0) || (toIndex >=? n)
        then mret None
        else
          match moveCard (p_hand player) fromIndex toIndex with
          | None => unmodelled
          | Some newHand =>
              local (setPlayers (<[playerIdx := withHand player newHand]> (players g)))
          end
    end.

(** [sortHand]; [localeCompare] is the collation of the colour names, which
    depends on the locale of the browser. *)
Definition byColorThenValue (localeCompare : CardColor -> CardColor -> Z) (a b : Card) : Z :=
  if decide (c_color a = c_color b) then c_value a - c_value b
  else localeCompare (c_color a) (c_color b).

Definition sortHand (g : Game) (localeCompare : CardColor -> CardColor -> Z)
    (myPlayerId : string) : Handler unit :=
  match list_find (fun p => p_id p = myPlayerId) (players g) with
  | None => returnVoid
  | Some (_, player) =>
      let sortedHand := js_sort (byColorThenValue localeCompare) (p_hand player) in
      if isMultiplayer g && negb (isHost g)
      then setNotification "Sorting disabled for clients in this version."
      else
        match list_find (fun p => p_id p = p_id player) (players g) with
        | None => setPlayers (players g)
        | Some (pIdx, _) => setPlayers (<[pIdx := withHand player sortedHand]> (players g))
        end
  end.

(** [processHostAction]: the host carries out the action of a client. *)
Definition processHostAction (g : Game) (rnd : list nat) (clock : nat -> Z)
    (action : ActionMessage) : Handler unit :=
  match list_find (fun p => Some (p_id p) = a_playerId action) (players g) with
  | None => returnVoid
  | Some (playerIndex, player) =>
      if decide (playerIndex <> currentPlayerIndex g) then returnVoid
      else
        match a_action action with
        | A_DRAW => handleDraw g rnd (default false (a_fromDiscard action))
        | A_DISCARD =>
            match truthy (a_cardId action) with
            | Some cardId =>
                match list_find (fun c => c_id c = cardId) (p_hand player) with
                | Some (_, card) => performDiscard g player card
                | None => returnVoid
                end
            | None => returnVoid
            end
        | A_MELD =>
            match a_cardIds action with
            | Some cardIds =>
                let selectedHand := filter (fun c => c_id c ∈ cardIds) (p_hand player) in
                match lookupZ (phases g) (p_phaseIndex player) with
                | None => throwTypeError
                | Some currentPhase =>
                    let validation :=
                      validatePhaseHand selectedHand (ph_requirements currentPhase) in
                    match valid validation, groups validation with
                    | true, Some groups =>
                        let newHand := filter (fun c => c_id c ∉ cardIds) (p_hand player) in
                        match buildMelds clock (ph_requirements currentPhase)
                                (p_id player) 0 groups with
                        | None => throwTypeError
                        | Some newMelds =>
                            let updated :=
                              withHasLaidDownPhase
                                (withMelds (withHand player newHand)
                                   (p_melds player ++ newMelds))
                                true in
                            newPlayers ← arraySet (players g) playerIndex updated;
                            setPlayers newPlayers
                        end
                    | _, _ => returnVoid
                    end
                end
            | None => returnVoid
            end
        | A_HIT =>
            match truthy (a_cardId action), truthy (a_meldId action) with
            | Some cardId, Some meldId =>
                match list_find (fun c => c_id c = cardId) (p_hand player) with
                | Some (_, card) => executeHit g player card meldId
                | None => returnVoid
                end
            | _, _ => returnVoid
            end
        | A_REORDER =>
            match a_fromIndex action, a_toIndex action with
            | Some fromIndex, Some toIndex =>
                match moveCard (p_hand player) fromIndex toIndex with
                | None => unmodelled
                | Some newHand =>
                    newPlayers ← arraySet (players g) playerIndex (withHand player newHand);
                    setPlayers newPlayers
                end
            | _, _ => returnVoid
            end
        | A_START_GAME => returnVoid
        end
  end.

(** ** Vocabulary of the properties *)

(** The cards of a given kind, colour and value in a pile. *)
Definition cardsOf (ty : CardType) (col : CardColor) (v : Z) (l : list Card) : list Card :=
  filter (fun c => c_type c = ty /\ c_color c = col /\ c_value c = v) l.

(** The per-card value as the scoring rule words it: wild 25, skip 15, a
    number card of value 10 or more 10, any other 5. *)
Definition cardPenalty (c : Card) : Z :=
  match c_type c with
  | WILD => 25
  | SKIP => 15
  | NUMBER => if c_value c >=? 10 then 10 else 5
  end.

Definition handPenalty (hand : list Card) : Z :=
  foldr (fun c total => cardPenalty c + total) 0 hand.

(** Every card on the table: deck, discard pile, hands and melds. *)
Definition playerCards (p : Player) : list Card :=
  p_hand p ++ flat_map m_cards (p_melds p).
Definition allCards (g : Game) : list Card :=
  deck g ++ discardPile g ++ flat_map playerCards (players g).
Definition allCardIds (g : Game) : list string := map c_id (allCards g).

(** The selection of the run example: 3, 4, 6, 7 of one colour and two wilds. *)
Definition runExample (col : CardColor) : list Card :=
  [ mkCard "card-2" NUMBER col 3 "3"; mkCard "card-3" NUMBER col 4 "4";
    mkCard "card-5" NUMBER col 6 "6"; mkCard "card-6" NUMBER col 7 "7";
    mkCard "card-96" WILD WILD_COLOR 25 "W"; mkCard "card-97" WILD WILD_COLOR 25 "W" ].

(** A round in which the deck has run out while a bot is to play. *)
Definition annHand : list Card :=
  [ mkCard "card-0" NUMBER RED 1 "1"; mkCard "card-40" NUMBER BLUE 5 "5" ].
Definition botHand : list Card :=
  [ mkCard "card-4" NUMBER RED 5 "5"; mkCard "card-54" NUMBER GREEN 7 "7" ].
Definition ann : Player := mkPlayer "p1" "Ann (Host)" true annHand [] 0 false 0 (Some false).
Definition alpha : Player := mkPlayer "bot-0" "Alpha" false botHand [] 0 false 0 (Some false).
Definition spentPile : list Card :=
  [ mkCard "card-9" NUMBER RED 10 "10"; mkCard "card-30" NUMBER BLUE 7 "7";
    mkCard "card-100" WILD WILD_COLOR 25 "W" ].
Definition deckRunOut : Game :=
  mkGame PLAYING STANDARD_PHASES "" false false 30 [ann; alpha] [] spentPile 1%nat DRAW [] None [].

(** The same with the human player to move, and with one discard only. *)
Definition annToDraw : Game :=
  mkGame PLAYING STANDARD_PHASES "" false false 30 [ann; alpha] [] spentPile 0%nat DRAW [] None [].
Definition stalemate : Game :=
  mkGame PLAYING STANDARD_PHASES "" false false 30 [ann; alpha] []
    [mkCard "card-100" WILD WILD_COLOR 25 "W"] 0%nat DRAW [] None [].

(** A round with cards left in the deck, the bot holding seven cards. *)
Definition alphaSeven : Player :=
  withHand alpha
    (botHand ++ [ mkCard "card-13" NUMBER RED 2 "2"; mkCard "card-25" NUMBER BLUE 2 "2";
                  mkCard "card-49" NUMBER GREEN 2 "2"; mkCard "card-80" NUMBER YELLOW 9 "9";
                  mkCard "card-94" NUMBER YELLOW 11 "11" ]).
Definition midRound : Game :=
  mkGame PLAYING STANDARD_PHASES "" false false 30 [ann; alphaSeven]
    [ mkCard "card-60" NUMBER GREEN 1 "1"; mkCard "card-73" NUMBER YELLOW 2 "2" ]
    spentPile 1%nat DRAW [] None [].

(** A round of four with the deck played out, on the 108 cards of
    [createDeck]: forty cards are in the hands, the other sixty-eight on
    the discard pile, and the third bot is to move. *)
Definition dealt (seat : nat) : list Card := take 10 (drop (10 * seat) createDeck).
Definition seated (id name : string) (isHuman : bool) (seat : nat) : Player :=
  mkPlayer id name isHuman (dealt seat) [] 0 false 0 (Some false).
Definition omega : Player := seated "bot-2" "Omega" false 3.
Definition deckPlayedOut : Game :=
  mkGame PLAYING STANDARD_PHASES "" false false 30
    [ seated "p1" "Ann (Host)" true 0; seated "bot-0" "Alpha" false 1;
      seated "bot-1" "Cipher" false 2; omega ]
    [] (drop 40 createDeck) 3%nat DRAW [] None [].

(** A three-handed round in which the player to move holds a skip card. *)
Definition skipCard : Card := mkCard "card-104" SKIP SKIP_COLOR 15 "S".
Definition annWithSkip : Player := withHand ann (annHand ++ [skipCard]).
Definition cara : Player :=
  mkPlayer "bot-1" "Cipher" false [mkCard "card-70" NUMBER GREEN 11 "11"] [] 0 false 0
    (Some false).
Definition skipRound : Game :=
  mkGame PLAYING STANDARD_PHASES "" false false 30 [annWithSkip; alpha; cara]
    [mkCard "card-101" WILD WILD_COLOR 25 "W"] spentPile 0%nat ACTION [] None [].

(** The order of a hand sorted by falling value. *)
Definition fallingValue (a b : Card) : Prop := c_value b <= c_value a.

(** A split of a selection in two, as a row of bits, one per card: the
    cards it sends to either side, and the number whose binary digits it
    is, lowest first. *)
Fixpoint sideOf (side : bool) (bits : list bool) (cards : list Card) : list Card :=
  match bits, cards with
  | b :: bits', c :: cards' =>
      if Bool.eqb b side then c :: sideOf side bits' cards' else sideOf side bits' cards'
  | _, _ => []
  end.
Fixpoint maskOf (bits : list bool) : Z :=
  match bits with
  | [] => 0
  | b :: bits' => Z.b2z b + 2 * maskOf bits'
  end.

(** A round in which the bot has laid down three fives, and the player to
    move, who has not laid down and has not drawn, has a five selected. *)
Definition fives : Meld :=
  mkMeld "meld-1700000000000-0"
    [ mkCard "card-4" NUMBER RED 5 "5"; mkCard "card-16" NUMBER RED 5 "5";
      mkCard "card-28" NUMBER BLUE 5 "5" ]
    SET "bot-0".
Definition alphaLaid : Player :=
  mkPlayer "bot-0" "Alpha" false [mkCard "card-54" NUMBER GREEN 7 "7"] [fives] 0 true 0
    (Some false).
Definition hitRound : Game :=
  mkGame PLAYING STANDARD_PHASES "" false false 30 [ann; alphaLaid]
    [mkCard "card-101" WILD WILD_COLOR 25 "W"] spentPile 0%nat DRAW ["card-40"] None [].

(** A round on the host in which the client to move has laid down two sets
    already and holds two more. *)
Definition benSets : list Card :=
  [ mkCard "card-1" NUMBER RED 2 "2"; mkCard "card-13" NUMBER RED 2 "2";
    mkCard "card-25" NUMBER BLUE 2 "2"; mkCard "card-7" NUMBER RED 8 "8";
    mkCard "card-19" NUMBER RED 8 "8"; mkCard "card-31" NUMBER BLUE 8 "8" ].
Definition ben : Player :=
  mkPlayer "p2" "Ben" true (benSets ++ [mkCard "card-0" NUMBER RED 1 "1"])
    [ mkMeld "meld-1700000000000-0"
        [ mkCard "card-2" NUMBER RED 3 "3"; mkCard "card-14" NUMBER RED 3 "3";
          mkCard "card-26" NUMBER BLUE 3 "3" ] SET "p2";
      mkMeld "meld-1700000000000-1"
        [ mkCard "card-3" NUMBER RED 4 "4"; mkCard "card-15" NUMBER RED 4 "4";
          mkCard "card-27" NUMBER BLUE 4 "4" ] SET "p2" ]
    0 true 0 (Some false).
Definition laidDownRound : Game :=
  mkGame PLAYING STANDARD_PHASES "" true true 30 [ben; alpha]
    [mkCard "card-101" WILD WILD_COLOR 25 "W"] spentPile 0%nat DRAW (map c_id benSets)
    None [].

(** * Properties *)

(** ** Deck construction *)

Lemma createDeck_ids_distinct : NoDup (map c_id createDeck).
Proof. compute_done. Qed.

(** C3. [createDeck] yields 108 cards: two number cards for each of the four
    playable colours and each value from 1 to 12, hence 96 number cards,
    then 8 wild cards and 4 skip cards; the 108 ids are pairwise distinct. *)
Theorem createDeck_composition :
  length createDeck = 108%nat /\
  (forall col v, col ∈ COLORS -> 1 <= v <= 12 ->
     length (cardsOf NUMBER col v createDeck) = 2%nat) /\
  length (filter isNumber createDeck) = 96%nat /\
  length (filter isWild createDeck) = 8%nat /\
  length (filter (fun c => c_type c = SKIP) createDeck) = 4%nat /\
  NoDup (map c_id createDeck).
Proof.
  split; [reflexivity|]. split.
  - intros col v Hcol Hv.
    assert (Hcases : Forall (fun v => Forall (fun col =>
              length (cardsOf NUMBER col v createDeck) = 2%nat) COLORS)
              (seqZ 1 12)) by compute_done.
    rewrite Forall_forall in Hcases.
    specialize (Hcases v). rewrite Forall_forall in Hcases.
    apply Hcases; [|exact Hcol].
    apply elem_of_seqZ. lia.
  - repeat split; try (vm_compute; reflexivity). apply createDeck_ids_distinct.
Qed.

Lemma createDeck_composition_witness :
  length (cardsOf NUMBER GREEN 7 createDeck) = 2%nat.
Proof.
  apply (proj1 (proj2 createDeck_composition) GREEN 7); [compute_done | lia].
Defined.

(** ** The validators on the examples of the specification *)

(** The selection of the run example holds six cards, so a run of seven is
    refused at the length test. *)
Lemma isValidRun_example_seven : isValidRun (runExample RED) 7 = false.
Proof. reflexivity. Qed.

(** C2. On the cards 3, 4, 6, 7 of one colour with two wilds, [isValidRun]
    answers true exactly for the required counts up to six, the number of
    cards selected (so false for a run of seven); on number cards of values
    3, 3, 4 it answers false for every required count. *)
Theorem isValidRun_examples :
  (forall col n, isValidRun (runExample col) n = (n <=? 6)) /\
  (forall i1 i2 i3 col1 col2 col3 d1 d2 d3 n,
     isValidRun [ mkCard i1 NUMBER col1 3 d1; mkCard i2 NUMBER col2 3 d2;
                  mkCard i3 NUMBER col3 4 d3 ] n = false).
Proof.
  split.
  - intros col n. unfold isValidRun, runExample, len. cbn [length].
    destruct (Z.ltb_spec (Z.of_nat 6) n) as [Hlt|Hge].
    + symmetry. apply Z.leb_gt. lia.
    + vm_compute js_sort. cbn. symmetry. apply Z.leb_le. lia.
  - intros. unfold isValidRun, len. cbn [length].
    destruct (Z.of_nat 3 <? n); reflexivity.
Qed.

(** Two wilds and three 5s against a single set of three: one meld of all
    five cards.  And two sets of three out of six cards: the first split
    found, in the order of the enumeration. *)
Example validatePhaseHand_single_set :
  let w i := mkCard (cardId i) WILD WILD_COLOR 25 "W" in
  let five i col := mkCard (cardId i) NUMBER col 5 "5" in
  let selection :=
    [w 96%nat; w 97%nat; five 4%nat RED; five 28%nat BLUE; five 52%nat GREEN] in
  validatePhaseHand selection [mkReq SET 3] = mkValidation true (Some [selection]).
Proof. reflexivity. Qed.

Example validatePhaseHand_two_sets :
  let n i col v := mkCard (cardId i) NUMBER col v (pretty v) in
  let selection :=
    [ n 4%nat RED 5; n 6%nat RED 7; n 28%nat BLUE 5; n 30%nat BLUE 7;
      n 54%nat GREEN 7; n 52%nat GREEN 5 ] in
  validatePhaseHand selection [mkReq SET 3; mkReq SET 3] =
  mkValidation true
    (Some [ [n 6%nat RED 7; n 30%nat BLUE 7; n 54%nat GREEN 7];
            [n 4%nat RED 5; n 28%nat BLUE 5; n 52%nat GREEN 5] ]).
Proof. vm_compute. reflexivity. Qed.

(** C10. With a requirements list of length other than one or two,
    [validatePhaseHand] answers invalid, without groups, whatever the
    selection. *)
Theorem validatePhaseHand_other_lengths (selectedCards : list Card)
    (requirements : list PhaseRequirement) :
  length requirements <> 1%nat -> length requirements <> 2%nat ->
  validatePhaseHand selectedCards requirements = mkValidation false None.
Proof.
  intros H1 H2. unfold validatePhaseHand.
  destruct requirements as [|r0 [|r1 [|r2 rest]]]; cbn in *; congruence.
Qed.

Lemma validatePhaseHand_other_lengths_witness :
  validatePhaseHand (runExample RED) [] = mkValidation false None /\
  validatePhaseHand (runExample RED) [mkReq SET 3; mkReq SET 3; mkReq RUN 4]
    = mkValidation false None.
Proof.
  split; apply validatePhaseHand_other_lengths; cbn; lia.
Defined.

(** ** Hitting a meld *)

Lemma len_app {A : Type} (l1 l2 : list A) : len (l1 ++ l2) = len l1 + len l2.
Proof. unfold len. rewrite length_app. lia. Qed.

Section AppendWild.
Variable w : Card.
Hypothesis w_wild : c_type w = WILD.

Lemma filter_isNumber_wild (cards : list Card) :
  filter isNumber (cards ++ [w]) = filter isNumber cards.
Proof.
  rewrite filter_app, filter_cons_False, filter_nil, app_nil_r; [done|].
  unfold isNumber. congruence.
Qed.

Lemma filter_isNumberOrSkip_wild (cards : list Card) :
  filter isNumberOrSkip (cards ++ [w]) = filter isNumberOrSkip cards.
Proof.
  rewrite filter_app, filter_cons_False, filter_nil, app_nil_r; [done|].
  unfold isNumberOrSkip. intros [?|?]; congruence.
Qed.

Lemma filter_isWild_wild (cards : list Card) :
  filter isWild (cards ++ [w]) = filter isWild cards ++ [w].
Proof. rewrite filter_app, filter_cons_True, filter_nil; done. Qed.

(** One more wild never turns a valid group into an invalid one. *)
Lemma isValidSet_wild cards k :
  isValidSet cards k = true -> isValidSet (cards ++ [w]) k = true.
Proof.
  unfold isValidSet.
  rewrite filter_isNumber_wild, filter_isWild_wild, !len_app.
  replace (len [w]) with 1 by reflexivity.
  destruct (Z.ltb_spec (len cards) k) as [|Hk]; [done|].
  destruct (Z.ltb_spec (len cards + 1) k); [lia|].
  destruct (filter isNumber cards) as [|first rest]; [done|].
  rewrite !andb_true_iff. intros [Hsame Hcount]. split; [done|].
  apply Z.geb_le. apply Z.geb_le in Hcount. lia.
Qed.

Lemma isValidColor_wild cards k :
  isValidColor cards k = true -> isValidColor (cards ++ [w]) k = true.
Proof.
  unfold isValidColor.
  rewrite filter_isNumberOrSkip_wild, filter_isWild_wild, !len_app.
  replace (len [w]) with 1 by reflexivity.
  destruct (Z.ltb_spec (len cards) k) as [|Hk]; [done|].
  destruct (Z.ltb_spec (len cards + 1) k); [lia|].
  destruct (filter isNumberOrSkip cards) as [|first rest]; [done|].
  rewrite !andb_true_iff. intros [Hsame Hcount]. split; [done|].
  apply Z.geb_le. apply Z.geb_le in Hcount. lia.
Qed.

Lemma isValidRun_wild cards k :
  isValidRun cards k = true -> isValidRun (cards ++ [w]) k = true.
Proof.
  unfold isValidRun.
  rewrite filter_isNumber_wild, filter_isWild_wild, !len_app.
  replace (len [w]) with 1 by reflexivity.
  destruct (Z.ltb_spec (len cards) k) as [|Hk]; [done|].
  destruct (Z.ltb_spec (len cards + 1) k); [lia|].
  destruct (js_sort byValueAsc (filter isNumber cards)) as [|first rest]; [done|].
  destruct (runGaps (first :: rest) 0) as [needed|]; [|done].
  intros Hcount. apply Z.geb_le. apply Z.geb_le in Hcount. lia.
Qed.
End AppendWild.

(** C6. A fourth 5 of another colour fits a set of three 5s; a skip card
    fits no meld; any other card fits exactly when the whole group, the
    meld's cards followed by the new card, passes the validator of the
    meld's kind at the meld's current size. *)
Theorem canAddToMeld_revalidates :
  (forall colA colB i1 i2 i3 i4 d1 d2 d3 d4 mid owner,
     canAddToMeld (mkCard i4 NUMBER colB 5 d4)
       (mkMeld mid [ mkCard i1 NUMBER colA 5 d1; mkCard i2 NUMBER colA 5 d2;
                     mkCard i3 NUMBER colA 5 d3 ] SET owner) = true) /\
  (forall card meld, c_type card = SKIP -> canAddToMeld card meld = false) /\
  (forall card meld, c_type card <> SKIP ->
     canAddToMeld card meld =
       checkSingleReq (m_cards meld ++ [card])
         (mkReq (m_type meld) (len (m_cards meld)))).
Proof.
  split; [|split].
  - intros. reflexivity.
  - intros card meld Hskip. unfold canAddToMeld. by rewrite decide_True.
  - intros card meld Hskip. unfold canAddToMeld, checkSingleReq.
    rewrite decide_False by done. cbn. by destruct (m_type meld).
Qed.

Lemma canAddToMeld_revalidates_witness :
  canAddToMeld (mkCard "card-104" SKIP SKIP_COLOR 15 "S")
    (mkMeld "meld-1-0" (runExample RED) RUN "p1") = false /\
  canAddToMeld (mkCard "card-4" NUMBER RED 5 "5")
    (mkMeld "meld-1-0" (runExample RED) RUN "p1") =
  checkSingleReq (runExample RED ++ [mkCard "card-4" NUMBER RED 5 "5"]) (mkReq RUN 6).
Proof.
  destruct canAddToMeld_revalidates as (_ & Hskip & Hother). split.
  - apply Hskip. reflexivity.
  - apply (Hother (mkCard "card-4" NUMBER RED 5 "5")
             (mkMeld "meld-1-0" (runExample RED) RUN "p1")). discriminate.
Defined.

(** C9. A wild card can be hit onto every meld whose cards pass the
    validator of the meld's kind at the meld's current size. *)
Theorem canAddToMeld_wild (card : Card) (meld : Meld) :
  c_type card = WILD ->
  checkSingleReq (m_cards meld) (mkReq (m_type meld) (len (m_cards meld))) = true ->
  canAddToMeld card meld = true.
Proof.
  intros Hwild Hvalid. unfold canAddToMeld.
  rewrite decide_False by congruence.
  unfold checkSingleReq in Hvalid. cbn in Hvalid.
  destruct (m_type meld);
    auto using isValidSet_wild, isValidRun_wild, isValidColor_wild.
Qed.

Lemma canAddToMeld_wild_witness :
  canAddToMeld (mkCard "card-98" WILD WILD_COLOR 25 "W")
    (mkMeld "meld-1-0" (runExample RED) RUN "p1") = true.
Proof. apply canAddToMeld_wild; reflexivity. Defined.

(** ** The order of a selection does not matter *)

Section JsSortFacts.
Context {A : Type} (cmp : A -> A -> Z).

Lemma js_insert_Permutation x l : js_insert cmp x l ≡ₚ x :: l.
Proof.
  induction l as [|y l IH]; cbn; [done|].
  destruct (cmp x y <=? 0); [done|].
  rewrite IH. apply perm_swap.
Qed.

Lemma js_sort_Permutation l : js_sort cmp l ≡ₚ l.
Proof.
  induction l as [|x l IH]; cbn; [done|].
  by rewrite js_insert_Permutation, IH.
Qed.
End JsSortFacts.

Lemma js_insert_values_sorted x l :
  Sorted Z.le (map c_value l) ->
  Sorted Z.le (map c_value (js_insert byValueAsc x l)).
Proof.
  induction l as [|y l IH]; cbn; intros Hs.
  - repeat constructor.
  - unfold byValueAsc at 1. destruct (Z.leb_spec (c_value x - c_value y) 0) as [Hle|Hgt].
    + cbn. constructor; [done|]. constructor. lia.
    + cbn. apply Sorted_inv in Hs as [Hs Hhd]. constructor; [by apply IH|].
      destruct l as [|z l]; cbn.
      * constructor. lia.
      * unfold byValueAsc. destruct (c_value x - c_value z <=? 0); cbn.
        -- constructor. lia.
        -- constructor. by apply HdRel_inv in Hhd.
Qed.

Lemma js_sort_values_sorted l : Sorted Z.le (map c_value (js_sort byValueAsc l)).
Proof.
  induction l as [|x l IH]; cbn; [constructor|].
  by apply js_insert_values_sorted.
Qed.

(** Sorting two arrangements of the same cards gives the same sequence of
    values. *)
Lemma js_sort_values_Permutation l l' :
  l ≡ₚ l' ->
  map c_value (js_sort byValueAsc l) = map c_value (js_sort byValueAsc l').
Proof.
  intros Hp. apply (Sorted_unique Z.le); try apply js_sort_values_sorted.
  apply Permutation_map. by rewrite !js_sort_Permutation.
Qed.

Lemma runGaps_cons2 a b l k :
  runGaps (a :: b :: l) k =
  if c_value b - c_value a =? 0 then None
  else runGaps (b :: l)
         (if c_value b - c_value a >? 1 then k + (c_value b - c_value a - 1) else k).
Proof. reflexivity. Qed.

Lemma runGaps_values l l' k :
  map c_value l = map c_value l' -> runGaps l k = runGaps l' k.
Proof.
  revert l' k. induction l as [|a l IH]; intros [|a' l'] k Heq; try done.
  cbn in Heq. injection Heq as Ha Hl.
  destruct l as [|b l], l' as [|b' l']; try done.
  cbn in Hl. injection Hl as Hb Hl.
  rewrite !runGaps_cons2, Ha, Hb.
  destruct (c_value b' - c_value a' =? 0); [done|].
  apply IH. cbn. by rewrite Hb, Hl.
Qed.

(** "All natural cards agree with the first one" does not depend on which
    card comes first. *)
Lemma allSame_Permutation {K : Type} (key : Card -> K) (eqb : K -> K -> bool)
    (first first' : Card) (rest rest' : list Card) :
  (forall x y, eqb x y = true <-> x = y) ->
  first :: rest ≡ₚ first' :: rest' ->
  forallb (fun c => eqb (key c) (key first)) (first :: rest) =
  forallb (fun c => eqb (key c) (key first')) (first' :: rest').
Proof.
  intros Heqb Hp.
  assert (Hdir : forall f r f' r', f :: r ≡ₚ f' :: r' ->
            forallb (fun c => eqb (key c) (key f)) (f :: r) = true ->
            forallb (fun c => eqb (key c) (key f')) (f' :: r') = true).
  { intros f r f' r' Hfr. rewrite !forallb_forall. intros Hall c Hc.
    apply Heqb. transitivity (key f).
    - apply Heqb, Hall. apply list_elem_of_In. rewrite Hfr.
      by apply list_elem_of_In.
    - symmetry. apply Heqb, Hall. apply list_elem_of_In. rewrite Hfr. left. }
  apply Bool.eq_true_iff_eq. split; apply Hdir; [done|by symmetry].
Qed.

Lemma Permutation_len {A : Type} (l l' : list A) : l ≡ₚ l' -> len l = len l'.
Proof. intros Hp. unfold len. by rewrite Hp. Qed.

(** C8. The three validators give the same verdict on every rearrangement
    of a selection, for every required count. *)
Theorem validators_order_irrelevant (cards cards' : list Card) (requiredCount : Z) :
  cards ≡ₚ cards' ->
  isValidSet cards requiredCount = isValidSet cards' requiredCount /\
  isValidColor cards requiredCount = isValidColor cards' requiredCount /\
  isValidRun cards requiredCount = isValidRun cards' requiredCount.
Proof.
  intros Hp.
  pose proof (Permutation_len _ _ Hp) as Hlen.
  assert (Hw : len (filter isWild cards) = len (filter isWild cards'))
    by (apply Permutation_len; by rewrite Hp).
  split; [|split].
  - unfold isValidSet. rewrite <- Hlen, <- Hw.
    destruct (len cards <? requiredCount); [done|].
    assert (Hn : filter isNumber cards ≡ₚ filter isNumber cards') by (by rewrite Hp).
    pose proof (Permutation_len _ _ Hn) as Hnlen.
    destruct (filter isNumber cards) as [|first rest],
             (filter isNumber cards') as [|first' rest']; try done;
      try (by apply Permutation_nil_cons in Hn);
      try (symmetry in Hn; by apply Permutation_nil_cons in Hn).
    rewrite Hnlen. f_equal.
    apply (allSame_Permutation c_value Z.eqb); [apply Z.eqb_eq | done].
  - unfold isValidColor. rewrite <- Hlen, <- Hw.
    destruct (len cards <? requiredCount); [done|].
    assert (Hn : filter isNumberOrSkip cards ≡ₚ filter isNumberOrSkip cards')
      by (by rewrite Hp).
    pose proof (Permutation_len _ _ Hn) as Hnlen.
    destruct (filter isNumberOrSkip cards) as [|first rest],
             (filter isNumberOrSkip cards') as [|first' rest']; try done;
      try (by apply Permutation_nil_cons in Hn);
      try (symmetry in Hn; by apply Permutation_nil_cons in Hn).
    rewrite Hnlen. f_equal.
    pose (sameColor := fun a b : CardColor => bool_decide (a = b)).
    apply (allSame_Permutation c_color sameColor); [|done].
    intros x y. apply bool_decide_eq_true.
  - unfold isValidRun. rewrite <- Hlen, <- Hw.
    destruct (len cards <? requiredCount); [done|].
    assert (Hv : map c_value (js_sort byValueAsc (filter isNumber cards)) =
                 map c_value (js_sort byValueAsc (filter isNumber cards')))
      by (apply js_sort_values_Permutation; by rewrite Hp).
    rewrite (runGaps_values _ _ 0 Hv).
    destruct (js_sort byValueAsc (filter isNumber cards)) as [|a l],
             (js_sort byValueAsc (filter isNumber cards')) as [|a' l']; done.
Qed.

Lemma validators_order_irrelevant_witness :
  isValidRun (rev (runExample RED)) 6 = isValidRun (runExample RED) 6.
Proof.
  apply (validators_order_irrelevant (rev (runExample RED)) (runExample RED) 6).
  symmetry. apply Permutation_rev.
Defined.

(** ** Scoring a finished round *)

Lemma scoreStep_cardPenalty acc c : scoreStep acc c = acc + cardPenalty c.
Proof.
  unfold scoreStep, cardPenalty.
  destruct (decide (c_type c = WILD)) as [Hw|Hw]; [by rewrite Hw|].
  destruct (decide (c_type c = SKIP)) as [Hs|Hs]; [by rewrite Hs|].
  destruct (c_type c); [|done..].
  by destruct (c_value c >=? 10).
Qed.

Lemma calculateScore_from acc hand :
  foldl scoreStep acc hand = acc + handPenalty hand.
Proof.
  unfold handPenalty.
  revert acc. induction hand as [|c hand IH]; intros acc; cbn; [lia|].
  rewrite IH, scoreStep_cardPenalty. lia.
Qed.

Lemma calculateScore_handPenalty hand : calculateScore hand = handPenalty hand.
Proof. unfold calculateScore. by rewrite calculateScore_from. Qed.

(** C7. [endRound] leaves the winner's score as it was and adds to every
    other player's score the penalty of the cards left in hand (wild 25,
    skip 15, a number of value at least 10 counts 10, any other 5); a
    player who has laid down moves to the next phase index, capped at the
    last one, and any other player keeps the phase index. *)
Theorem endRound_scores_and_phases (g : Game) (winnerId : string) :
  exists g',
    run g (endRound g winnerId) = Some g' /\
    roundWinnerId g' = Some winnerId /\
    gameState g' = ROUND_OVER /\
    length (players g') = length (players g) /\
    forall i p, players g !! i = Some p ->
      exists p',
        players g' !! i = Some p' /\
        p_id p' = p_id p /\
        p_hand p' = p_hand p /\
        p_score p' =
          (if decide (p_id p = winnerId) then p_score p
           else p_score p + handPenalty (p_hand p)) /\
        p_phaseIndex p' =
          (if p_hasLaidDownPhase p
           then Z.min (p_phaseIndex p + 1) (len (phases g) - 1)
           else p_phaseIndex p).
Proof.
  eexists. split; [reflexivity|]. cbn.
  split; [done|]. split; [done|]. split; [by rewrite !length_map|].
  intros i p Hp. rewrite !list_lookup_fmap, Hp. cbn.
  eexists. split; [reflexivity|].
  rewrite <- calculateScore_handPenalty.
  destruct (decide (p_id p = winnerId)); cbn; done.
Qed.

Lemma endRound_scores_and_phases_witness :
  exists g',
    run deckRunOut (endRound deckRunOut "bot-0") = Some g' /\
    (exists p', players g' !! 0%nat = Some p' /\ p_score p' = 10) /\
    (exists p', players g' !! 1%nat = Some p' /\ p_score p' = 0).
Proof.
  destruct (endRound_scores_and_phases deckRunOut "bot-0")
    as (g' & Hrun & _ & _ & _ & Hplayers).
  exists g'. split; [exact Hrun|]. split.
  - destruct (Hplayers 0%nat ann eq_refl) as (p' & Hp' & _ & _ & Hscore & _).
    exists p'. split; [exact Hp'|]. rewrite Hscore. reflexivity.
  - destruct (Hplayers 1%nat alpha eq_refl) as (p' & Hp' & _ & _ & Hscore & _).
    exists p'. split; [exact Hp'|]. rewrite Hscore. reflexivity.
Defined.

(** ** Running the handlers *)

Lemma bind_Returned {A B : Type} (m : Handler A) (f : A -> Handler B) s a s' :
  m s = Returned a s' -> (m ≫= f) s = f a s'.
Proof. intros H. unfold mbind, Handler_bind. by rewrite H. Qed.

Lemma arraySet_Returned {A : Type} (xs : list A) i x s :
  (i < length xs)%nat -> arraySet xs i x s = Returned (<[i := x]> xs) s.
Proof. intros H. unfold arraySet. by rewrite decide_True. Qed.

Lemma readIndex_Returned {A : Type} (xs : list A) i x s :
  xs !! i = Some x -> readIndex xs i s = Returned x s.
Proof. intros H. unfold readIndex. by rewrite H. Qed.

Lemma modLength_Returned {A : Type} k (xs : list A) s :
  xs <> [] -> modLength k xs s = Returned (k `mod` length xs)%nat s.
Proof. intros H. unfold modLength. by destruct xs. Qed.

(** Runs the binds and setters that stand at the head of the goal. *)
Ltac run_setters :=
  unfold mbind, Handler_bind, returnVoid, mret, Handler_ret,
    setGameState, setNotification, setPlayers, setDeck, setDiscardPile,
    setCurrentPlayerIndex, setTurnPhase, setSelectedCardIds, setRoundWinnerId,
    sendClientAction;
  cbn -[Nat.modulo shuffleDeck].

(** ** Discarding a skip card *)

(** The state a skip discard leaves, written out; [s] is what the caller
    had queued before. *)
Lemma performDiscard_skip_run (g : Game) (player : Player) (cardToDiscard : Card)
    (s : Game) :
  (currentPlayerIndex g < length (players g))%nat ->
  c_type cardToDiscard = SKIP ->
  filter (fun c => c_id c <> c_id cardToDiscard) (p_hand player) <> [] ->
  let n := length (players g) in
  let skippedIndex := ((currentPlayerIndex g + 1) `mod` n)%nat in
  let newPlayers :=
    <[currentPlayerIndex g :=
        withHand player
          (filter (fun c => c_id c <> c_id cardToDiscard) (p_hand player))]>
      (players g) in
  exists skipped q,
    players g !! skippedIndex = Some skipped /\
    newPlayers !! skippedIndex = Some q /\
    performDiscard g player cardToDiscard s =
    Returned tt
      (mkGame (gameState s) (phases s) (p_name skipped +:+ " was skipped!")
         (isMultiplayer s) (isHost s) (timeLeft s)
         (<[skippedIndex := withIsSkipped q (Some true)]> newPlayers)
         (deck s) (discardPile g ++ [cardToDiscard])
         ((skippedIndex + 1) `mod` n)%nat DRAW [] (roundWinnerId s) (sentActions s)).
Proof.
  intros Hlt Hskip Hhand n skippedIndex newPlayers.
  assert (Hne : players g <> []) by (intros E; rewrite E in Hlt; cbn in Hlt; lia).
  assert (Hn : n <> 0%nat) by (subst n; lia).
  assert (Hsk : (skippedIndex < n)%nat) by (apply Nat.mod_upper_bound; done).
  destruct (lookup_lt_is_Some_2 (players g) skippedIndex Hsk) as [skipped Hskipped].
  destruct (lookup_lt_is_Some_2 newPlayers skippedIndex) as [q Hq].
  { subst newPlayers. by rewrite length_insert. }
  set (newHand := filter (fun c => c_id c <> c_id cardToDiscard) (p_hand player)) in *.
  exists skipped, q. split; [done|]. split; [done|].
  unfold performDiscard. fold newHand. run_setters.
  rewrite arraySet_Returned by done. run_setters.
  rewrite decide_False by (by destruct newHand).
  rewrite modLength_Returned by done.
  rewrite decide_True by done.
  rewrite (readIndex_Returned _ _ _ _ Hskipped).
  unfold markSkipped. run_setters.
  fold n. fold skippedIndex. fold newPlayers. rewrite Hq.
  by rewrite modLength_Returned by done.
Qed.

(** C5. When the current player discards a skip card and keeps cards in
    hand, [performDiscard] runs to its end; the turn passes to the player
    two seats on (modulo the number of players) in sub-phase DRAW, the
    player one seat on is flagged as skipped, and no other player's flag
    changes. *)
Theorem performDiscard_skip (g : Game) (player : Player) (cardToDiscard : Card) :
  players g !! currentPlayerIndex g = Some player ->
  c_type cardToDiscard = SKIP ->
  filter (fun c => c_id c <> c_id cardToDiscard) (p_hand player) <> [] ->
  let n := length (players g) in
  let skippedIndex := ((currentPlayerIndex g + 1) `mod` n)%nat in
  exists g',
    performDiscard g player cardToDiscard g = Returned tt g' /\
    currentPlayerIndex g' = ((currentPlayerIndex g + 2) `mod` n)%nat /\
    turnPhase g' = DRAW /\
    gameState g' = gameState g /\
    (exists p, players g' !! skippedIndex = Some p /\ p_isSkipped p = Some true) /\
    (forall j, j <> skippedIndex ->
       p_isSkipped <$> players g' !! j = p_isSkipped <$> players g !! j).
Proof.
  intros Hcur Hskip Hhand n skippedIndex.
  pose proof (lookup_lt_Some _ _ _ Hcur) as Hlt.
  destruct (performDiscard_skip_run g player cardToDiscard g Hlt Hskip Hhand)
    as (skipped & q & Hskipped & Hq & Hrun).
  pose proof (lookup_lt_Some _ _ _ Hq) as Hlen.
  eexists. split; [exact Hrun|]. cbn -[Nat.modulo]. fold n. fold skippedIndex.
  split; [|split; [done|split; [done|split]]].
  - subst skippedIndex. rewrite Nat.Div0.add_mod_idemp_l. f_equal. lia.
  - eexists. split; [by apply list_lookup_insert_eq|done].
  - intros j Hj. rewrite list_lookup_insert_ne by done.
    destruct (decide (currentPlayerIndex g = j)) as [<-|E].
    + rewrite list_lookup_insert_eq by done. by rewrite Hcur.
    + by rewrite list_lookup_insert_ne.
Qed.

Lemma performDiscard_skip_witness :
  exists g',
    performDiscard skipRound annWithSkip skipCard skipRound = Returned tt g' /\
    currentPlayerIndex g' = 2%nat /\
    turnPhase g' = DRAW /\
    (exists p, players g' !! 1%nat = Some p /\ p_isSkipped p = Some true).
Proof.
  destruct (performDiscard_skip skipRound annWithSkip skipCard)
    as (g' & Hrun & Hidx & Hphase & _ & Hflag & _).
  - reflexivity.
  - reflexivity.
  - vm_compute. discriminate.
  - exists g'. repeat split; [exact Hrun | exact Hidx | exact Hphase | exact Hflag].
Defined.

(** The usual case, for comparison: any other card passes the turn to the
    next seat. *)
Lemma performDiscard_plain (g : Game) (player : Player) (cardToDiscard : Card)
    (s : Game) :
  (currentPlayerIndex g < length (players g))%nat ->
  c_type cardToDiscard <> SKIP ->
  filter (fun c => c_id c <> c_id cardToDiscard) (p_hand player) <> [] ->
  performDiscard g player cardToDiscard s =
  Returned tt
    (mkGame (gameState s) (phases s) (notification s) (isMultiplayer s) (isHost s)
       (timeLeft s)
       (<[currentPlayerIndex g :=
            withHand player
              (filter (fun c => c_id c <> c_id cardToDiscard) (p_hand player))]>
          (players g))
       (deck s) (discardPile g ++ [cardToDiscard])
       ((currentPlayerIndex g + 1) `mod` length (players g))%nat
       DRAW [] (roundWinnerId s) (sentActions s)).
Proof.
  intros Hlt Hskip Hhand.
  assert (Hne : players g <> []) by (intros E; rewrite E in Hlt; cbn in Hlt; lia).
  unfold performDiscard. run_setters.
  rewrite arraySet_Returned by done. run_setters.
  rewrite decide_False by (by destruct (filter _ (p_hand player))).
  rewrite modLength_Returned by done.
  by rewrite decide_False by done.
Qed.

(** ** Shuffling *)

Lemma insert_swap_out {A : Type} (l : list A) j x b :
  l !! j = Some b -> b :: <[j := x]> l ≡ₚ x :: l.
Proof.
  revert j. induction l as [|y l IH]; intros [|j] Hj; try done.
  - cbn in Hj. injection Hj as ->. cbn. apply perm_swap.
  - cbn in Hj. cbn. rewrite perm_swap, (IH j Hj). apply perm_swap.
Qed.

Lemma swap_Permutation {A : Type} i j (l : list A) : swap i j l ≡ₚ l.
Proof.
  unfold swap.
  destruct (l !! i) as [a|] eqn:Hi; [|done].
  destruct (l !! j) as [b|] eqn:Hj; [|done].
  revert i j Hi Hj. induction l as [|y l IH]; intros [|i] [|j] Hi Hj; try done; cbn in *.
  - by simplify_eq.
  - simplify_eq. by apply insert_swap_out.
  - simplify_eq. by apply insert_swap_out.
  - by rewrite (IH i j).
Qed.

Lemma shuffleLoop_Permutation {A : Type} i rnd (l : list A) : shuffleLoop i rnd l ≡ₚ l.
Proof.
  revert rnd l. induction i as [|i IH]; intros rnd l; [done|].
  cbn -[Nat.modulo]. by rewrite IH, swap_Permutation.
Qed.

(** The shuffle loses and duplicates nothing, whatever the draws. *)
Lemma shuffleDeck_Permutation {A : Type} rnd (deck : list A) : shuffleDeck rnd deck ≡ₚ deck.
Proof. apply shuffleLoop_Permutation. Qed.

Lemma last_removelast_snoc {A : Type} (l : list A) x :
  last (l ++ [x]) = Some x /\ removelast (l ++ [x]) = l.
Proof. split; [apply last_snoc | apply removelast_last]. Qed.

Lemma snoc_of_nonempty {A : Type} (l : list A) :
  (1 <= length l)%nat -> exists l' x, l = l' ++ [x].
Proof.
  destruct l as [|y l] using rev_ind; cbn; [lia|]. intros _. by exists l, y.
Qed.

(** ** Drawing when the deck has run out *)

(** C4. A draw from the empty deck by the player to move (a human, or with
    the turn clock run out; on the host or in a local game): with at most
    one card on the discard pile nothing changes but the notice, which
    reports the exhaustion; with two or more, the top discard is set aside,
    the others are shuffled into the new deck, the player takes the last
    card of that deck, the discard pile is the card set aside alone, and the
    sub-phase becomes ACTION. *)
Theorem handleDraw_empty_deck (g : Game) (rnd : list nat) (player : Player) :
  isMultiplayer g && negb (isHost g) = false ->
  players g !! currentPlayerIndex g = Some player ->
  negb (p_isHuman player) && (timeLeft g >? 0) && negb (isMultiplayer g) = false ->
  deck g = [] ->
  ((length (discardPile g) <= 1)%nat ->
     handleDraw g rnd false g =
     Returned tt
       (mkGame (gameState g) (phases g)
          "Deck empty and no discard to shuffle. Game Draw."
          (isMultiplayer g) (isHost g) (timeLeft g) (players g) (deck g)
          (discardPile g) (currentPlayerIndex g) (turnPhase g)
          (selectedCardIds g) (roundWinnerId g) (sentActions g))) /\
  ((2 <= length (discardPile g))%nat ->
     exists top rest card newDeck,
       discardPile g = rest ++ [top] /\
       shuffleDeck rnd rest = newDeck ++ [card] /\
       newDeck ++ [card] ≡ₚ rest /\
       handleDraw g rnd false g =
       Returned tt
         (mkGame (gameState g) (phases g) (notification g)
            (isMultiplayer g) (isHost g) (timeLeft g)
            (<[currentPlayerIndex g := withHand player (p_hand player ++ [card])]>
               (players g))
            newDeck [top] (currentPlayerIndex g) ACTION
            (selectedCardIds g) (roundWinnerId g) (sentActions g))).
Proof.
  intros Hhost Hcur Hguard Hdeck.
  pose proof (lookup_lt_Some _ _ _ Hcur) as Hlt.
  split.
  - intros Hsmall. unfold handleDraw. rewrite Hhost. run_setters.
    rewrite (readIndex_Returned _ _ _ _ Hcur), Hguard, Hdeck. cbn.
    rewrite decide_True by done. by rewrite Hdeck.
  - intros Hbig.
    destruct (snoc_of_nonempty (discardPile g)) as (rest & top & Hpile); [lia|].
    assert (Hrest : (1 <= length rest)%nat).
    { rewrite Hpile, length_app in Hbig. cbn in Hbig. lia. }
    destruct (snoc_of_nonempty (shuffleDeck rnd rest)) as (newDeck & card & Hshuf).
    { by rewrite shuffleDeck_Permutation. }
    exists top, rest, card, newDeck.
    split; [done|]. split; [done|]. split.
    { rewrite <- Hshuf. apply shuffleDeck_Permutation. }
    destruct (last_removelast_snoc rest top) as [Hlast Hrem].
    destruct (last_removelast_snoc newDeck card) as [Hlast' Hrem'].
    unfold handleDraw. rewrite Hhost. run_setters.
    rewrite (readIndex_Returned _ _ _ _ Hcur), Hguard, Hdeck. cbn -[shuffleDeck].
    rewrite decide_False by lia.
    rewrite Hpile, Hlast, Hrem, Hshuf, Hlast', Hrem'.
    unfold finishDraw. run_setters.
    by rewrite arraySet_Returned by done.
Qed.

Lemma handleDraw_empty_deck_witness :
  handleDraw stalemate [] false stalemate =
    Returned tt
      (mkGame PLAYING STANDARD_PHASES "Deck empty and no discard to shuffle. Game Draw."
         false false 30 [ann; alpha] []
         [mkCard "card-100" WILD WILD_COLOR 25 "W"] 0%nat DRAW [] None []) /\
  exists top rest card newDeck,
    discardPile annToDraw = rest ++ [top] /\
    shuffleDeck [] rest = newDeck ++ [card] /\
    newDeck ++ [card] ≡ₚ rest /\
    handleDraw annToDraw [] false annToDraw =
      Returned tt
        (mkGame PLAYING STANDARD_PHASES "" false false 30
           [withHand ann (annHand ++ [card]); alpha] newDeck [top] 0%nat ACTION
           [] None []).
Proof.
  split.
  - apply (handleDraw_empty_deck stalemate [] ann); reflexivity.
  - apply (handleDraw_empty_deck annToDraw [] ann); try reflexivity. cbn. lia.
Defined.

(** ** Card conservation *)

Lemma js_sort_nonempty {A : Type} (cmp : A -> A -> Z) (l : list A) :
  l <> [] -> js_sort cmp l <> [].
Proof.
  intros Hl Hs. apply Hl. apply Permutation_nil_r.
  by rewrite <- (js_sort_Permutation cmp l), Hs.
Qed.

(** *** The steps that do conserve the cards *)

Lemma flat_map_insert_Permutation {A B : Type} (f : A -> list B) (ps : list A) i p p' :
  ps !! i = Some p ->
  f p ++ flat_map f (<[i := p']> ps) ≡ₚ f p' ++ flat_map f ps.
Proof.
  intros Hp. change (flat_map f (p :: <[i := p']> ps) ≡ₚ flat_map f (p' :: ps)).
  apply Permutation_flat_map. by apply insert_swap_out.
Qed.

(** Replacing a player by one holding the same cards and one more. *)
Lemma playerCards_gain (ps : list Player) i p p' c :
  ps !! i = Some p ->
  playerCards p' ≡ₚ c :: playerCards p ->
  flat_map playerCards (<[i := p']> ps) ≡ₚ c :: flat_map playerCards ps.
Proof.
  intros Hp Hgain. apply (Permutation_app_inv_l (playerCards p)).
  rewrite (flat_map_insert_Permutation _ _ _ _ _ Hp), Hgain. solve_Permutation.
Qed.

(** Replacing a player by one holding the same cards but one. *)
Lemma playerCards_lose (ps : list Player) i p p' c :
  ps !! i = Some p ->
  playerCards p ≡ₚ c :: playerCards p' ->
  c :: flat_map playerCards (<[i := p']> ps) ≡ₚ flat_map playerCards ps.
Proof.
  intros Hp Hlose. apply (Permutation_app_inv_l (playerCards p')).
  rewrite <- (flat_map_insert_Permutation _ _ _ _ p' Hp), Hlose. solve_Permutation.
Qed.

Lemma playerCards_same (ps : list Player) i p p' :
  ps !! i = Some p ->
  playerCards p' ≡ₚ playerCards p ->
  flat_map playerCards (<[i := p']> ps) ≡ₚ flat_map playerCards ps.
Proof.
  intros Hp Hsame. apply (Permutation_app_inv_l (playerCards p)).
  by rewrite (flat_map_insert_Permutation _ _ _ _ _ Hp), Hsame.
Qed.

Lemma finishDraw_conserves (g : Game) (player : Player) (card : Card)
    (newDeck newDiscard : list Card) :
  players g !! currentPlayerIndex g = Some player ->
  card :: newDeck ++ newDiscard ≡ₚ deck g ++ discardPile g ->
  exists g',
    finishDraw g player card newDeck newDiscard g = Returned tt g' /\
    allCards g' ≡ₚ allCards g.
Proof.
  intros Hcur Hpiles. pose proof (lookup_lt_Some _ _ _ Hcur) as Hlt.
  unfold finishDraw. run_setters. rewrite arraySet_Returned by done.
  eexists. split; [reflexivity|]. unfold allCards. cbn.
  rewrite (playerCards_gain _ _ player _ card Hcur).
  - rewrite !app_assoc, <- Hpiles. solve_Permutation.
  - unfold playerCards. cbn. solve_Permutation.
Qed.

(** [handleDraw] conserves the cards on every path, the recycling of the
    discard pile included: there the pile is replaced by its top card. *)
Lemma handleDraw_conserves (g : Game) (rnd : list nat) (fromDiscard : bool) :
  exists g',
    run g (handleDraw g rnd fromDiscard) = Some g' /\
    allCards g' ≡ₚ allCards g.
Proof.
  unfold run, handleDraw.
  destruct (isMultiplayer g && negb (isHost g)); [by eexists|].
  run_setters. unfold readIndex.
  destruct (players g !! currentPlayerIndex g) as [player|] eqn:Hcur; [|by eexists].
  run_setters.
  destruct (negb (p_isHuman player) && (timeLeft g >? 0) && negb (isMultiplayer g));
    [by eexists|].
  destruct fromDiscard.
  - destruct (discardPile g) as [|top rest _] eqn:Hpile using rev_ind; [by eexists|].
    rewrite last_snoc, removelast_last.
    destruct (decide (c_type top = SKIP)); [by eexists|].
    destruct (finishDraw_conserves g player top (deck g) rest Hcur) as (g' & -> & Hg').
    { rewrite Hpile. solve_Permutation. }
    by exists g'.
  - destruct (deck g) as [|card newDeck _] eqn:Hdeck using rev_ind.
    + cbn [last]. destruct (decide (length (discardPile g) <= 1)%nat) as [|Hbig];
        [by eexists|].
      destruct (discardPile g) as [|top rest _] eqn:Hpile using rev_ind;
        [cbn in Hbig; lia|].
      rewrite last_snoc, removelast_last.
      destruct (snoc_of_nonempty (shuffleDeck rnd rest)) as (newDeck & card & Hshuf).
      { rewrite shuffleDeck_Permutation. rewrite length_app in Hbig. cbn in Hbig. lia. }
      rewrite Hshuf, last_snoc, removelast_last.
      destruct (finishDraw_conserves g player card newDeck [top] Hcur) as (g' & -> & Hg').
      { rewrite Hdeck, Hpile. cbn.
        rewrite <- (shuffleDeck_Permutation rnd rest), Hshuf. solve_Permutation. }
      by exists g'.
    + rewrite last_snoc, removelast_last.
      destruct (finishDraw_conserves g player card newDeck (discardPile g) Hcur)
        as (g' & -> & Hg').
      { rewrite Hdeck. solve_Permutation. }
      by exists g'.
Qed.

Lemma filter_all {A : Type} (P : A -> Prop) `{forall x, Decision (P x)} (l : list A) :
  (forall x, x ∈ l -> P x) -> filter P l = l.
Proof.
  induction l as [|x l IH]; intros Hall; [done|].
  rewrite filter_cons_True by (apply Hall; left).
  f_equal. apply IH. intros y Hy. apply Hall. by right.
Qed.

Lemma filter_none {A : Type} (P : A -> Prop) `{forall x, Decision (P x)} (l : list A) :
  (forall x, x ∈ l -> ~ P x) -> filter P l = [].
Proof.
  induction l as [|x l IH]; intros Hnone; [done|].
  rewrite filter_cons_False by (apply Hnone; left).
  apply IH. intros y Hy. apply Hnone. by right.
Qed.

Lemma filter_other_ids (hand : list Card) (card : Card) :
  NoDup (map c_id hand) -> card ∈ hand ->
  hand ≡ₚ card :: filter (fun c => c_id c <> c_id card) hand.
Proof.
  induction hand as [|c hand IH]; intros Hnd Hin; [by apply elem_of_nil in Hin|].
  cbn in Hnd. apply NoDup_cons in Hnd as [Hc Hnd].
  apply elem_of_cons in Hin as [->|Hin].
  - rewrite filter_cons_False by (intros H; by apply H).
    rewrite filter_all; [done|].
    intros c' Hc' Heq. apply Hc.
    rewrite <- Heq. apply list_elem_of_fmap. by exists c'.
  - rewrite filter_cons_True.
    + rewrite (IH Hnd Hin) at 1. apply perm_swap.
    + intros Heq. apply Hc. rewrite Heq. apply list_elem_of_fmap. by exists card.
Qed.

(** A discard that leaves cards in hand: the card passes from the hand of
    [player], who takes the current seat, to the discard pile. *)
Lemma performDiscard_cards (g : Game) (player : Player) (cardToDiscard : Card)
    (s : Game) :
  (currentPlayerIndex g < length (players g))%nat ->
  NoDup (map c_id (p_hand player)) ->
  cardToDiscard ∈ p_hand player ->
  filter (fun c => c_id c <> c_id cardToDiscard) (p_hand player) <> [] ->
  exists g',
    performDiscard g player cardToDiscard s = Returned tt g' /\
    gameState g' = gameState s /\
    deck g' = deck s /\
    discardPile g' = discardPile g ++ [cardToDiscard] /\
    cardToDiscard :: flat_map playerCards (players g')
    ≡ₚ flat_map playerCards (<[currentPlayerIndex g := player]> (players g)).
Proof.
  intros Hlt Hnd Hin Hleft.
  set (newHand := filter (fun c => c_id c <> c_id cardToDiscard) (p_hand player)) in *.
  assert (Hlose : cardToDiscard ::
              flat_map playerCards
                (<[currentPlayerIndex g := withHand player newHand]> (players g))
            ≡ₚ flat_map playerCards (<[currentPlayerIndex g := player]> (players g))).
  { rewrite <- (list_insert_insert_eq (players g) (currentPlayerIndex g)
                  (withHand player newHand) player).
    apply (playerCards_lose _ _ player); [by apply list_lookup_insert_eq|].
    unfold playerCards. cbn. fold newHand.
    by rewrite (filter_other_ids _ _ Hnd Hin) at 1. }
  destruct (decide (c_type cardToDiscard = SKIP)) as [Hskip|Hskip].
  - destruct (performDiscard_skip_run g player cardToDiscard s Hlt Hskip Hleft)
      as (skipped & q & _ & Hq & Hrun).
    eexists. split; [exact Hrun|]. do 3 (split; [done|]).
    cbn -[Nat.modulo]. fold newHand in Hq |- *.
    by rewrite (playerCards_same _ _ q _ Hq) by done.
  - rewrite performDiscard_plain by done.
    eexists. split; [reflexivity|]. by do 3 (split; [done|]).
Qed.

(** A discard by the player to move that leaves cards in hand conserves the
    cards (and keeps the round going), skip card or not. *)
Lemma performDiscard_conserves (g : Game) (player : Player) (cardToDiscard : Card) :
  players g !! currentPlayerIndex g = Some player ->
  NoDup (map c_id (p_hand player)) ->
  cardToDiscard ∈ p_hand player ->
  filter (fun c => c_id c <> c_id cardToDiscard) (p_hand player) <> [] ->
  exists g',
    performDiscard g player cardToDiscard g = Returned tt g' /\
    gameState g' = gameState g /\
    allCards g' ≡ₚ allCards g.
Proof.
  intros Hcur Hnd Hin Hleft.
  pose proof (lookup_lt_Some _ _ _ Hcur) as Hlt.
  destruct (performDiscard_cards g player cardToDiscard g Hlt Hnd Hin Hleft)
    as (g' & Hrun & Hstate & Hdeck & Hpile & Hplayers).
  exists g'. split; [done|]. split; [done|].
  rewrite list_insert_id in Hplayers by done.
  unfold allCards. rewrite Hdeck, Hpile, <- Hplayers. solve_Permutation.
Qed.

Lemma performDiscard_conserves_witness :
  exists g',
    performDiscard skipRound annWithSkip skipCard skipRound = Returned tt g' /\
    gameState g' = PLAYING /\
    allCards g' ≡ₚ allCards skipRound.
Proof.
  apply performDiscard_conserves; [reflexivity|compute_done|compute_done|].
  vm_compute. discriminate.
Defined.

(** The groups found by the validator split the selection. *)
Lemma splitByMask_Permutation i j cards group1 group2 :
  (splitByMask i j cards group1 group2).1 ++ (splitByMask i j cards group1 group2).2
  ≡ₚ group1 ++ group2 ++ cards.
Proof.
  revert j group1 group2.
  induction cards as [|c cards IH]; intros j group1 group2; cbn [splitByMask].
  - cbn. by rewrite app_nil_r.
  - destruct (js_and (js_shr i (Z.of_nat j)) 1 =? 0); rewrite IH; solve_Permutation.
Qed.

Lemma searchSplit_groups trips i cards req0 req1 gs :
  groups (searchSplit trips i cards req0 req1) = Some gs -> concat gs ≡ₚ cards.
Proof.
  revert i. induction trips as [|trips IH]; intros i; cbn [searchSplit]; [done|].
  pose proof (splitByMask_Permutation i 0 cards [] []) as Hsplit.
  destruct (splitByMask i 0 cards [] []) as [group1 group2]. cbn in Hsplit.
  destruct (checkSingleReq group1 req0 && checkSingleReq group2 req1).
  { intros [= <-]. cbn. by rewrite app_nil_r. }
  destruct (checkSingleReq group2 req0 && checkSingleReq group1 req1).
  { intros [= <-]. cbn. rewrite app_nil_r, <- Hsplit. solve_Permutation. }
  apply IH.
Qed.

Lemma validatePhaseHand_groups cards requirements gs :
  groups (validatePhaseHand cards requirements) = Some gs -> concat gs ≡ₚ cards.
Proof.
  unfold validatePhaseHand.
  destruct requirements as [|req0 [|req1 [|req2 rest]]]; cbn [groups]; try done.
  - destruct (match r_type req0 with
              | SET => isValidSet cards (r_count req0)
              | RUN => isValidRun cards (r_count req0)
              | COLOR => isValidColor cards (r_count req0)
              end); [|done].
    intros [= <-]. cbn. by rewrite app_nil_r.
  - apply searchSplit_groups.
Qed.

Lemma buildMelds_cards clock requirements ownerId idx gs melds :
  buildMelds clock requirements ownerId idx gs = Some melds ->
  flat_map m_cards melds = concat gs.
Proof.
  revert idx melds. induction gs as [|group gs IH]; intros idx melds; cbn.
  - by intros [= <-].
  - destruct (requirements !! idx); [|done].
    destruct (buildMelds clock requirements ownerId (S idx) gs) as [tail|] eqn:Htail;
      [|done].
    intros [= <-]. cbn. f_equal. by eapply IH.
Qed.

(** Laying down a phase conserves the cards, on every path of [handleMeld]. *)
Lemma handleMeld_conserves (g : Game) (clock : nat -> Z) :
  exists g',
    run g (handleMeld g clock) = Some g' /\
    allCards g' ≡ₚ allCards g.
Proof.
  unfold run, handleMeld.
  destruct (isMultiplayer g && negb (isHost g)); [by eexists|].
  run_setters. unfold readIndex.
  destruct (players g !! currentPlayerIndex g) as [player|] eqn:Hcur; [|by eexists].
  run_setters.
  destruct (p_hasLaidDownPhase player); [by eexists|].
  destruct (lookupZ (phases g) (p_phaseIndex player)) as [currentPhase|]; [|by eexists].
  set (selected := filter (fun c => c_id c ∈ selectedCardIds g) (p_hand player)).
  pose proof (validatePhaseHand_groups selected (ph_requirements currentPhase)) as Hgroups.
  destruct (validatePhaseHand selected (ph_requirements currentPhase)) as [[|] [gs|]];
    cbn [valid groups] in *; try by eexists.
  specialize (Hgroups gs eq_refl).
  destruct (buildMelds clock (ph_requirements currentPhase) (p_id player) 0 gs)
    as [newMelds|] eqn:Hmelds; [|by eexists].
  run_setters. rewrite arraySet_Returned by (by eapply lookup_lt_Some).
  eexists. split; [reflexivity|]. unfold allCards. cbn.
  rewrite (playerCards_same _ _ player _ Hcur); [done|].
  unfold playerCards. cbn.
  rewrite flat_map_app, (buildMelds_cards _ _ _ _ _ _ Hmelds), Hgroups.
  pose proof (filter_app_complement (fun c => c_id c ∈ selectedCardIds g)
                (p_hand player)) as Hhand.
  fold selected in Hhand. rewrite <- Hhand at 2. solve_Permutation.
Qed.

(** *** Hitting *)

Lemma flat_map_insert_gain {A B : Type} (f : A -> list B) (xs : list A) i x x' b :
  xs !! i = Some x ->
  f x' ≡ₚ b :: f x ->
  flat_map f (<[i := x']> xs) ≡ₚ b :: flat_map f xs.
Proof.
  intros Hx Hgain. apply (Permutation_app_inv_l (f x)).
  rewrite (flat_map_insert_Permutation _ _ _ _ _ Hx), Hgain. solve_Permutation.
Qed.

Lemma findMeld_Some targetMeldId melds i m :
  findMeld targetMeldId melds = Some (i, m) ->
  melds !! i = Some m /\ m_id m = targetMeldId.
Proof. unfold findMeld. intros H. apply list_find_Some in H. tauto. Qed.

Lemma findMeld_elem targetMeldId melds i m :
  findMeld targetMeldId melds = Some (i, m) -> targetMeldId ∈ map m_id melds.
Proof.
  intros H. apply findMeld_Some in H as [Hm <-].
  apply list_elem_of_fmap. exists m. split; [done|]. by eapply list_elem_of_lookup_2.
Qed.

Lemma findMeld_None targetMeldId melds :
  findMeld targetMeldId melds = None -> targetMeldId ∉ map m_id melds.
Proof.
  unfold findMeld. intros H Hin. apply list_elem_of_fmap in Hin as (m & -> & Hm).
  rewrite list_find_None, Forall_forall in H. by apply (H m).
Qed.

Section Hit.
Variables (player : Player) (card : Card) (targetMeldId : string).

Let newHand := filter (fun c => c_id c <> c_id card) (p_hand player).
Let hit := hitPlayer player card targetMeldId newHand.
Let isActor (p : Player) : Prop := p_id p = p_id player.
Let ownsTarget (p : Player) : Prop := is_Some (findMeld targetMeldId (p_melds p)).

(** What one player gives and gets in a hit. *)
Lemma hitPlayer_balance (p : Player) :
  (isActor p -> p_hand p ≡ₚ card :: newHand) ->
  playerCards (hit p) ++ (if decide (isActor p) then [card] else [])
  ≡ₚ playerCards p ++ (if decide (ownsTarget p) then [card] else []).
Proof.
  intros Hactor. subst hit. unfold hitPlayer, playerCards.
  destruct (decide (ownsTarget p)) as [[[meldIndex m] Hfind]|Hnone].
  - rewrite Hfind. apply findMeld_Some in Hfind as [Hm _].
    assert (Hmeld : flat_map m_cards
              (<[meldIndex := withCards m (js_sort byValueAsc (m_cards m ++ [card]))]>
                 (p_melds p)) ≡ₚ card :: flat_map m_cards (p_melds p)).
    { apply (flat_map_insert_gain m_cards _ _ m); [done|].
      cbn. rewrite js_sort_Permutation. solve_Permutation. }
    destruct (decide (isActor p)) as [E|E].
    + rewrite decide_True by exact E. cbn. rewrite Hmeld, (Hactor E). solve_Permutation.
    + rewrite decide_False by exact E. cbn. rewrite Hmeld. solve_Permutation.
  - destruct (findMeld targetMeldId (p_melds p)) as [found|] eqn:Hfind.
    { exfalso. apply Hnone. unfold ownsTarget. rewrite Hfind. by eexists. }
    destruct (decide (isActor p)) as [E|E].
    + rewrite decide_True by exact E. cbn. rewrite (Hactor E). solve_Permutation.
    + rewrite decide_False by exact E. cbn. by rewrite !app_nil_r.
Qed.

Lemma hit_balance (ps : list Player) :
  (forall p, p ∈ ps -> isActor p -> p_hand p ≡ₚ card :: newHand) ->
  flat_map playerCards (map hit ps) ++ replicate (length (filter isActor ps)) card
  ≡ₚ flat_map playerCards ps ++ replicate (length (filter ownsTarget ps)) card.
Proof.
  induction ps as [|p ps IH]; intros Hactors; [done|].
  pose proof (hitPlayer_balance p (Hactors p ltac:(left))) as Hp.
  specialize (IH (fun q Hq => Hactors q ltac:(by right))).
  rewrite !filter_cons. cbn [map flat_map].
  destruct (decide (isActor p)), (decide (ownsTarget p)); cbn [length replicate] in *;
    (etrans; [|etrans; [exact (Permutation_app Hp IH)|]]); solve_Permutation.
Qed.

Lemma actor_unique (ps : list Player) k :
  NoDup (map p_id ps) -> ps !! k = Some player -> filter isActor ps = [player].
Proof.
  revert k. induction ps as [|p ps IH]; intros k Hnd Hk; [done|].
  cbn in Hnd. apply NoDup_cons in Hnd as [Hp Hnd].
  assert (Hrest : forall q, q ∈ ps -> p_id q <> p_id p).
  { intros q Hq Heq. apply Hp. rewrite <- Heq. apply list_elem_of_fmap. by exists q. }
  destruct k as [|k]; cbn in Hk.
  - injection Hk as ->. rewrite filter_cons_True by done. f_equal.
    apply filter_none. intros q Hq. by apply Hrest.
  - rewrite filter_cons_False; [by eapply IH|].
    intros Hact. apply (Hrest player); [by eapply list_elem_of_lookup_2|done].
Qed.

Lemma owner_unique (ps : list Player) :
  NoDup (map m_id (flat_map p_melds ps)) -> (length (filter ownsTarget ps) <= 1)%nat.
Proof.
  induction ps as [|p ps IH]; intros Hnd; [cbn; lia|].
  cbn in Hnd. rewrite map_app in Hnd. apply NoDup_app in Hnd as (_ & Hdisj & Hnd).
  rewrite filter_cons. destruct (decide (ownsTarget p)) as [[[i m] Hown]|_]; [|by apply IH].
  apply findMeld_elem in Hown.
  replace (filter ownsTarget ps) with (@nil Player); [done|].
  symmetry. apply filter_none. intros q Hq [[j m'] Hq'].
  apply (Hdisj _ Hown). apply findMeld_elem in Hq'.
  apply list_elem_of_fmap in Hq' as (m'' & -> & Hm'').
  apply list_elem_of_fmap. exists m''. split; [done|].
  apply list_elem_of_In, in_flat_map. exists q. by rewrite <- !list_elem_of_In.
Qed.

Lemma findTargetMeld_owner (ps : list Player) m :
  findTargetMeld targetMeldId ps = Some m -> exists p, p ∈ ps /\ ownsTarget p.
Proof.
  unfold findTargetMeld.
  assert (Hgen : forall acc,
            foldl (fun targetMeld p =>
                     match findMeld targetMeldId (p_melds p) with
                     | Some (_, m) => Some m
                     | None => targetMeld
                     end) acc ps = Some m ->
            acc = Some m \/ exists p, p ∈ ps /\ ownsTarget p).
  { induction ps as [|p ps IH]; intros acc; cbn; [by left|].
    intros H. apply IH in H as [H|(q & Hq & Hown)].
    - destruct (findMeld targetMeldId (p_melds p)) as [[i m']|] eqn:Hfind; [|by left].
      right. exists p. split; [left|]. unfold ownsTarget. rewrite Hfind. by eexists.
    - right. exists q. split; [by right|done]. }
  intros H. by destruct (Hgen None H).
Qed.

(** With distinct player ids and distinct meld ids, the card leaves the
    hand of the player who hits and lands in exactly one meld. *)
Lemma hit_conserves (ps : list Player) k m :
  ps !! k = Some player ->
  NoDup (map p_id ps) ->
  NoDup (map m_id (flat_map p_melds ps)) ->
  NoDup (map c_id (p_hand player)) ->
  card ∈ p_hand player ->
  findTargetMeld targetMeldId ps = Some m ->
  flat_map playerCards (map hit ps) ≡ₚ flat_map playerCards ps.
Proof.
  intros Hk Hids Hmelds Hhand Hin Htarget.
  pose proof (actor_unique ps k Hids Hk) as Hactor.
  assert (Howners : length (filter ownsTarget ps) = 1%nat).
  { pose proof (owner_unique ps Hmelds) as Hle.
    destruct (findTargetMeld_owner ps m Htarget) as (p & Hp & Hown).
    assert (Hp' : p ∈ filter ownsTarget ps) by (by apply list_elem_of_filter).
    destruct (filter ownsTarget ps); [by apply elem_of_nil in Hp'|cbn in *; lia]. }
  pose proof (hit_balance ps) as Hbal.
  rewrite Hactor, Howners in Hbal. cbn in Hbal.
  apply (Permutation_app_inv_r [card]). apply Hbal.
  intros p Hp Hact.
  assert (Hp' : p ∈ filter isActor ps) by (by apply list_elem_of_filter).
  rewrite Hactor in Hp'. apply list_elem_of_singleton in Hp' as ->.
  by apply filter_other_ids.
Qed.
End Hit.

Lemma endRound_cards (g : Game) (winnerId : string) (s : Game) :
  exists s',
    endRound g winnerId s = Returned tt s' /\
    deck s' = deck s /\
    discardPile s' = discardPile s /\
    flat_map playerCards (players s') = flat_map playerCards (players g).
Proof.
  unfold endRound. run_setters. eexists. split; [reflexivity|]. cbn.
  split; [done|]. split; [done|].
  induction (players g) as [|p ps IH]; [done|].
  cbn. rewrite IH. f_equal. by destruct (decide (p_id p = winnerId)).
Qed.

(** A hit conserves the cards when player ids and meld ids are distinct;
    when it empties the hand, the round ends on the players of the render,
    the card back in the hand it came from. *)
Lemma executeHit_conserves (g : Game) (player : Player) (card : Card)
    (targetMeldId : string) (k : nat) :
  players g !! k = Some player ->
  NoDup (map p_id (players g)) ->
  NoDup (map m_id (flat_map p_melds (players g))) ->
  NoDup (map c_id (p_hand player)) ->
  card ∈ p_hand player ->
  exists g',
    executeHit g player card targetMeldId g = Returned tt g' /\
    allCards g' ≡ₚ allCards g.
Proof.
  intros Hk Hids Hmelds Hhand Hin. unfold executeHit.
  destruct (findTargetMeld targetMeldId (players g)) as [targetMeld|] eqn:Htarget;
    [|by eexists].
  destruct (canAddToMeld card targetMeld); [|by eexists].
  run_setters.
  destruct (decide (length (filter (fun c => c_id c <> c_id card) (p_hand player)) = 0)%nat).
  - match goal with
    | |- context [endRound g (p_id player) ?s] =>
        destruct (endRound_cards g (p_id player) s) as (s' & -> & Hd & Hp & Hps)
    end.
    exists s'. split; [done|]. unfold allCards. by rewrite Hd, Hp, Hps.
  - eexists. split; [reflexivity|]. unfold allCards. cbn.
    by rewrite (hit_conserves player card targetMeldId (players g) k targetMeld).
Qed.

(** A bot turn with cards left in the deck and no attempt at a meld
    conserves the cards as well: the draw and the discard both go through
    the state of the render, which is then still right. *)
Lemma botPlayTurn_plain_conserves (g : Game) (rnd : list nat) (now : Z) (bot : Player) :
  gameState g = PLAYING ->
  players g !! currentPlayerIndex g = Some bot ->
  deck g <> [] ->
  NoDup (allCardIds g) ->
  (1 <= length (p_hand bot))%nat ->
  exists g',
    botPlayTurn g rnd false now bot g = Returned tt g' /\
    gameState g' = PLAYING /\
    allCards g' ≡ₚ allCards g.
Proof.
  intros Hplaying Hcur Hdeck Hnd Hsize.
  pose proof (lookup_lt_Some _ _ _ Hcur) as Hlt.
  destruct (snoc_of_nonempty (deck g)) as (newDeck & cardDrawn & Hd).
  { destruct (deck g); [done|cbn; lia]. }
  unfold botPlayTurn.
  rewrite decide_False by (by rewrite Hplaying; intros ?).
  rewrite Hd, last_snoc, removelast_last.
  unfold botMeldAndDiscard. rewrite andb_false_r. run_setters.
  set (currentHand := p_hand bot ++ [cardDrawn]).
  set (sortedHand := js_sort byValueDesc currentHand).
  set (botUpdated := withHasLaidDownPhase _ _).
  assert (Hchoice : exists discardCard, discardCard ∈ currentHand /\
            match list_find (fun c => c_type c <> WILD /\ c_type c <> SKIP) sortedHand with
            | Some (_, c) => Some c
            | None => head sortedHand
            end = Some discardCard).
  { assert (Hsub : forall c, c ∈ sortedHand -> c ∈ currentHand).
    { intros c. subst sortedHand. by rewrite js_sort_Permutation. }
    destruct (list_find _ sortedHand) as [[i c]|] eqn:Hfind.
    - exists c. split; [|done]. apply Hsub.
      apply list_find_Some in Hfind as (Hc & _). by eapply list_elem_of_lookup_2.
    - destruct sortedHand as [|c rest] eqn:Hs.
      + exfalso. apply (js_sort_nonempty byValueDesc currentHand); [|done].
        subst currentHand. by destruct (p_hand bot).
      + exists c. split; [apply Hsub; left|done]. }
  destruct Hchoice as (discardCard & HinHand & ->).
  (* the ids of the hand after the draw are distinct *)
  assert (Hall : allCards g ≡ₚ
            cardDrawn :: newDeck ++ discardPile g ++ flat_map playerCards (players g)).
  { unfold allCards. rewrite Hd. solve_Permutation. }
  assert (Hbot : flat_map playerCards (players g) ≡ₚ
            p_hand bot ++ flat_map m_cards (p_melds bot) ++
            flat_map playerCards (delete (currentPlayerIndex g) (players g))).
  { rewrite <- (take_drop_middle _ _ _ Hcur) at 1.
    rewrite delete_take_drop, !flat_map_app. cbn. unfold playerCards at 2.
    solve_Permutation. }
  assert (HndHand : NoDup (map c_id (p_hand botUpdated))).
  { unfold allCardIds in Hnd. rewrite Hall, Hbot in Hnd. cbn [botUpdated p_hand
      withHasLaidDownPhase withHand].
    assert (Hsplit : cardDrawn :: newDeck ++ discardPile g ++ p_hand bot ++
              flat_map m_cards (p_melds bot) ++
              flat_map playerCards (delete (currentPlayerIndex g) (players g))
            ≡ₚ currentHand ++ newDeck ++ discardPile g ++
               flat_map m_cards (p_melds bot) ++
               flat_map playerCards (delete (currentPlayerIndex g) (players g)))
      by (subst currentHand; solve_Permutation).
    rewrite Hsplit, map_app in Hnd. by apply NoDup_app in Hnd as [? _]. }
  assert (Hleft : filter (fun c => c_id c <> c_id discardCard) (p_hand botUpdated) <> []).
  { cbn. subst currentHand. intros Hempty.
    apply (f_equal length) in Hempty. cbn in Hempty.
    pose proof (filter_other_ids _ _ HndHand HinHand) as Hperm.
    apply Permutation_length in Hperm. cbn in Hperm.
    rewrite length_app in Hperm. cbn in Hperm. lia. }
  match goal with
  | |- context [performDiscard g botUpdated discardCard ?s] =>
      destruct (performDiscard_cards g botUpdated discardCard s Hlt HndHand HinHand Hleft)
        as (g' & Hrun & Hstate & Hdeck' & Hpile & Hplayers)
  end.
  exists g'. split; [exact Hrun|]. split; [by rewrite Hstate|].
  unfold allCards at 1. rewrite Hdeck', Hpile. cbn [deck].
  assert (Hgain : flat_map playerCards (<[currentPlayerIndex g := botUpdated]> (players g))
                  ≡ₚ cardDrawn :: flat_map playerCards (players g)).
  { apply (playerCards_gain _ _ bot); [done|].
    unfold playerCards. cbn. solve_Permutation. }
  rewrite Hgain in Hplayers. rewrite Hall.
  trans (newDeck ++ discardPile g ++ discardCard :: flat_map playerCards (players g'));
    [solve_Permutation|].
  rewrite Hplayers. solve_Permutation.
Qed.

(** *** The bot turn on an empty deck *)

Lemma shuffleDeck_two {A : Type} rnd (a b : A) :
  shuffleDeck rnd [a; b] = [a; b] \/ shuffleDeck rnd [a; b] = [b; a].
Proof.
  unfold shuffleDeck. cbn -[Nat.modulo].
  pose proof (Nat.mod_upper_bound (hd 0%nat rnd) 2) as Hj.
  destruct (hd 0%nat rnd `mod` 2)%nat as [|[|j]]; [by right|by left|lia].
Qed.

(** The same on a small table, for every shuffle and every roll: in the
    round [deckRunOut] three cards lie on the discard pile; after the bot's
    turn the two recycled ones are on the pile and in the deck or the bot's
    hand. *)
Lemma botPlayTurn_recycle_small_table (rnd : list nat) (roll : bool) (now : Z) :
  gameState deckRunOut = PLAYING /\
  players deckRunOut !! currentPlayerIndex deckRunOut = Some alpha /\
  NoDup (allCardIds deckRunOut) /\
  exists g' discardCard,
    botPlayTurn deckRunOut rnd roll now alpha deckRunOut = Returned tt g' /\
    gameState g' = PLAYING /\
    discardPile g' = spentPile ++ [discardCard] /\
    ~ NoDup (allCardIds g') /\
    ~ allCardIds g' ≡ₚ allCardIds deckRunOut.
Proof.
  split; [done|]. split; [done|]. split; [compute_done|].
  unfold botPlayTurn.
  change (deck deckRunOut) with (@nil Card).
  change (discardPile deckRunOut) with spentPile.
  change (removelast spentPile)
    with [mkCard "card-9" NUMBER RED 10 "10"; mkCard "card-30" NUMBER BLUE 7 "7"].
  destruct (shuffleDeck_two rnd (mkCard "card-9" NUMBER RED 10 "10")
              (mkCard "card-30" NUMBER BLUE 7 "7")) as [Hs|Hs];
    cbn -[shuffleDeck]; rewrite Hs; destruct roll;
    (do 2 eexists; split; [vm_compute; reflexivity|]);
    (split; [done|]); (split; [reflexivity|]);
    (split; [compute_done|]);
    intros Hp; apply Permutation_length in Hp; vm_compute in Hp; discriminate.
Qed.

(** What [performDiscard] does to the two piles, whatever was queued
    before it: the deck is not touched, and the new discard pile is built
    from the pile of the render. *)
Lemma performDiscard_piles (g : Game) (player : Player) (cardToDiscard : Card) (s : Game) :
  (currentPlayerIndex g < length (players g))%nat ->
  exists s',
    performDiscard g player cardToDiscard s = Returned tt s' /\
    deck s' = deck s /\
    discardPile s' = discardPile g ++ [cardToDiscard].
Proof.
  intros Hlt.
  assert (Hne : players g <> []) by (intros E; rewrite E in Hlt; cbn in Hlt; lia).
  assert (Hn : length (players g) <> 0%nat) by lia.
  unfold performDiscard. run_setters.
  rewrite arraySet_Returned by done. run_setters.
  destruct (decide _) as [Hempty|Hleft].
  { unfold endRound. run_setters. eauto. }
  rewrite modLength_Returned by done.
  destruct (decide (c_type cardToDiscard = SKIP)) as [Hskip|Hskip].
  - set (nextIndex := ((currentPlayerIndex g + 1) `mod` length (players g))%nat).
    assert (Hnext : (nextIndex < length (players g))%nat)
      by (by apply Nat.mod_upper_bound).
    destruct (lookup_lt_is_Some_2 (players g) nextIndex Hnext) as [skipped Hskipped].
    rewrite (readIndex_Returned _ _ _ _ Hskipped).
    unfold markSkipped. run_setters.
    destruct (lookup_lt_is_Some_2
                (<[currentPlayerIndex g :=
                     withHand player
                       (filter (fun c => c_id c <> c_id cardToDiscard) (p_hand player))]>
                   (players g)) nextIndex) as [q Hq].
    { by rewrite length_insert. }
    rewrite Hq. rewrite modLength_Returned by done. run_setters. eauto.
  - run_setters. eauto.
Qed.

(** When a bot recycles the discard pile (and does not try a meld), the
    recycled cards [rest] make up the new deck and the card drawn, and yet
    all stay on the discard pile, under the card the bot discards. *)
Lemma botPlayTurn_recycle_keeps_pile (g : Game) (rnd : list nat) (now : Z)
    (bot : Player) (rest : list Card) (top : Card) :
  gameState g = PLAYING ->
  (currentPlayerIndex g < length (players g))%nat ->
  deck g = [] ->
  discardPile g = rest ++ [top] ->
  rest <> [] ->
  exists g' cardDrawn discardCard,
    botPlayTurn g rnd false now bot g = Returned tt g' /\
    deck g' ++ [cardDrawn] ≡ₚ rest /\
    discardPile g' = rest ++ [top; discardCard].
Proof.
  intros Hplaying Hlt Hdeck Hpile Hrest.
  destruct (snoc_of_nonempty (shuffleDeck rnd rest)) as (newDeck & card & Hshuf).
  { rewrite shuffleDeck_Permutation. destruct rest; [done|cbn; lia]. }
  destruct (last_removelast_snoc rest top) as [Hlast Hrem].
  destruct (last_removelast_snoc newDeck card) as [Hlast' Hrem'].
  unfold botPlayTurn.
  rewrite decide_False by (by rewrite Hplaying; intros ?).
  rewrite Hdeck, Hpile. cbn [last].
  rewrite decide_True
    by (rewrite length_app; cbn; destruct rest; [done|cbn; lia]).
  rewrite Hlast, Hrem, Hshuf, Hlast', Hrem'.
  unfold botMeldAndDiscard. rewrite andb_false_r. run_setters.
  set (sortedHand := js_sort byValueDesc (p_hand bot ++ [card])).
  assert (Hsorted : sortedHand <> [])
    by (apply js_sort_nonempty; by destruct (p_hand bot)).
  set (botUpdated := withHasLaidDownPhase _ _).
  assert (Hchoice : exists discardCard,
            match list_find (fun c => c_type c <> WILD /\ c_type c <> SKIP) sortedHand with
            | Some (_, c) => Some c
            | None => head sortedHand
            end = Some discardCard).
  { destruct (list_find _ sortedHand) as [[i c]|]; [by eexists|].
    destruct sortedHand; [done|by eexists]. }
  destruct Hchoice as [discardCard ->].
  match goal with
  | |- context [performDiscard g botUpdated discardCard ?s] =>
      destruct (performDiscard_piles g botUpdated discardCard s Hlt)
        as (s' & Hrun & Hdeck' & Hpile')
  end.
  exists s', card, discardCard. split; [exact Hrun|]. split.
  - rewrite Hdeck'. cbn. rewrite <- Hshuf. apply shuffleDeck_Permutation.
  - rewrite Hpile', Hpile, <- app_assoc. done.
Qed.

Lemma botPlayTurn_recycle_keeps_pile_witness :
  exists g' cardDrawn discardCard,
    botPlayTurn deckRunOut [] false 0 alpha deckRunOut = Returned tt g' /\
    deck g' ++ [cardDrawn] ≡ₚ removelast spentPile /\
    discardPile g' = spentPile ++ [discardCard].
Proof.
  apply (botPlayTurn_recycle_keeps_pile deckRunOut [] 0 alpha
           (removelast spentPile) (mkCard "card-100" WILD WILD_COLOR 25 "W"));
    try reflexivity; [cbn; lia | discriminate].
Defined.

(** Two more ways in which cards go astray.  A bot that lays down keeps
    nothing of its meld: [performDiscard] rebuilds the players from the
    render's array, and the six cards taken out of the hand are in no pile
    afterwards. *)
Lemma botPlayTurn_meld_loses_cards :
  NoDup (allCardIds midRound) /\
  length (allCardIds midRound) = 14%nat /\
  exists g',
    botPlayTurn midRound [] true 0 alphaSeven midRound = Returned tt g' /\
    gameState g' = PLAYING /\
    flat_map p_melds (players g') = [] /\
    length (allCardIds g') = 8%nat.
Proof.
  split; [compute_done|]. split; [done|].
  eexists. split; [vm_compute; reflexivity|]. done.
Qed.

(** And the discard of a last card ends the round on the players of the
    render: the winner is shown still holding the card now on the pile. *)
Lemma performDiscard_last_card_stale :
  let last := mkCard "card-0" NUMBER RED 1 "1" in
  let g := mkGame PLAYING STANDARD_PHASES "" false false 30
             [withHand ann [last]; alpha] [] spentPile 0%nat ACTION [] None [] in
  exists g',
    performDiscard g (withHand ann [last]) last g = Returned tt g' /\
    gameState g' = ROUND_OVER /\
    roundWinnerId g' = Some "p1" /\
    discardPile g' = spentPile ++ [last] /\
    p_hand <$> players g' !! 0%nat = Some [last].
Proof. eexists. split; [vm_compute; reflexivity|]. done. Qed.


(** C1. Conservation fails in the bot turn.  Take any round in state
    PLAYING in which every card id occurs once, the deck is empty, at least
    three cards lie on the discard pile and the bot to move holds a card.
    The bot turn (without an attempt at a meld) recycles the pile into the
    deck and draws, but never replaces the pile: it runs to its end, the
    round is still in state PLAYING, and card ids now occur twice, the
    recycled cards being both in the deck and on the discard pile. *)
Theorem botPlayTurn_recycle_duplicates (g : Game) (rnd : list nat) (now : Z)
    (bot : Player) :
  gameState g = PLAYING ->
  players g !! currentPlayerIndex g = Some bot ->
  deck g = [] ->
  (3 <= length (discardPile g))%nat ->
  p_hand bot <> [] ->
  NoDup (allCardIds g) ->
  exists g',
    botPlayTurn g rnd false now bot g = Returned tt g' /\
    gameState g' = PLAYING /\
    ~ NoDup (allCardIds g').
Proof.
  intros Hplaying Hcur Hdeck Hpile Hhand Hnd.
  pose proof (lookup_lt_Some _ _ _ Hcur) as Hlt.
  destruct (snoc_of_nonempty (discardPile g)) as (rest & top & Hdiscard); [lia|].
  assert (Hrest : (2 <= length rest)%nat).
  { rewrite Hdiscard, length_app in Hpile. cbn in Hpile. lia. }
  destruct (snoc_of_nonempty (shuffleDeck rnd rest)) as (newDeck & cardDrawn & Hshuf).
  { rewrite shuffleDeck_Permutation. lia. }
  assert (Hrecycled : newDeck ++ [cardDrawn] ≡ₚ rest)
    by (rewrite <- Hshuf; apply shuffleDeck_Permutation).
  unfold botPlayTurn.
  rewrite decide_False by (by rewrite Hplaying; intros ?).
  rewrite Hdeck. cbn [last]. rewrite decide_True by lia.
  rewrite Hdiscard, last_snoc, removelast_last, Hshuf, last_snoc, removelast_last.
  unfold botMeldAndDiscard. rewrite andb_false_r. run_setters.
  set (currentHand := p_hand bot ++ [cardDrawn]).
  set (sortedHand := js_sort byValueDesc currentHand).
  set (botUpdated := withHasLaidDownPhase _ _).
  assert (Hchoice : exists discardCard, discardCard ∈ currentHand /\
            match list_find (fun c => c_type c <> WILD /\ c_type c <> SKIP) sortedHand with
            | Some (_, c) => Some c
            | None => head sortedHand
            end = Some discardCard).
  { assert (Hsub : forall c, c ∈ sortedHand -> c ∈ currentHand).
    { intros c. subst sortedHand. by rewrite js_sort_Permutation. }
    destruct (list_find _ sortedHand) as [[i c]|] eqn:Hfind.
    - exists c. split; [|done]. apply Hsub.
      apply list_find_Some in Hfind as (Hc & _). by eapply list_elem_of_lookup_2.
    - destruct sortedHand as [|c tail] eqn:Hs.
      + exfalso. apply (js_sort_nonempty byValueDesc currentHand); [|done].
        subst currentHand. by destruct (p_hand bot).
      + exists c. split; [apply Hsub; left|done]. }
  destruct Hchoice as (discardCard & HinHand & ->).
  assert (HndHand : NoDup (map c_id (p_hand botUpdated))).
  { assert (Hsplit : allCards g ≡ₚ
              currentHand ++ newDeck ++ [top] ++ flat_map m_cards (p_melds bot) ++
              flat_map playerCards (delete (currentPlayerIndex g) (players g))).
    { unfold allCards. rewrite Hdeck, Hdiscard, <- Hrecycled.
      rewrite <- (take_drop_middle _ _ _ Hcur) at 1.
      rewrite delete_take_drop, !flat_map_app. cbn. unfold playerCards at 2.
      subst currentHand. solve_Permutation. }
    unfold allCardIds in Hnd. rewrite Hsplit, map_app in Hnd.
    by apply NoDup_app in Hnd as [? _]. }
  assert (Hleft : filter (fun c => c_id c <> c_id discardCard) (p_hand botUpdated) <> []).
  { intros Hempty.
    pose proof (filter_other_ids _ _ HndHand HinHand) as Hperm.
    rewrite Hempty in Hperm. apply Permutation_length in Hperm.
    cbn in Hperm. subst currentHand. rewrite length_app in Hperm. cbn in Hperm.
    destruct (p_hand bot); [done|cbn in Hperm; lia]. }
  match goal with
  | |- context [performDiscard g botUpdated discardCard ?s] =>
      destruct (performDiscard_cards g botUpdated discardCard s Hlt HndHand HinHand Hleft)
        as (g' & Hrun & Hstate & Hdeck' & Hpile' & _)
  end.
  exists g'. split; [exact Hrun|]. split; [by rewrite Hstate|].
  cbn [deck] in Hdeck'.
  (* a recycled card that is still in the deck is on the pile as well *)
  destruct newDeck as [|c newDeck].
  { apply Permutation_length in Hrecycled. cbn in Hrecycled. lia. }
  intros Hnd'. unfold allCardIds, allCards in Hnd'.
  rewrite Hdeck', Hpile', !map_app in Hnd'.
  apply NoDup_app in Hnd' as (_ & Hdisjoint & _).
  apply (Hdisjoint (c_id c)); [left|].
  apply elem_of_app. left. apply elem_of_app. left.
  apply list_elem_of_fmap. exists c. split; [done|].
  rewrite Hdiscard. apply elem_of_app. left.
  rewrite <- Hrecycled. left.
Qed.

Lemma botPlayTurn_recycle_duplicates_witness :
  exists g',
    botPlayTurn deckPlayedOut [] false 0 omega deckPlayedOut = Returned tt g' /\
    gameState g' = PLAYING /\
    ~ NoDup (allCardIds g').
Proof.
  apply botPlayTurn_recycle_duplicates.
  - reflexivity.
  - reflexivity.
  - reflexivity.
  - vm_compute. lia.
  - discriminate.
  - vm_compute. apply (bool_decide_unpack _). vm_compute. exact I.
Defined.

(** * Further properties *)

(** ** Dealing *)

Lemma dealOne_hands_length st p : length (dealOne st p).1 = length st.1.
Proof.
  destruct st as [hands d]. unfold dealOne. destruct (last d); cbn; [|done].
  by rewrite length_alter.
Qed.

Lemma dealOne_deck_length st p : length (dealOne st p).2 = (length st.2 - 1)%nat.
Proof.
  destruct st as [hands d]. unfold dealOne.
  destruct d as [|c d _] using rev_ind; [done|].
  rewrite last_snoc. cbn. rewrite removelast_last, length_app. cbn. lia.
Qed.

Lemma concat_alter_snoc (hands : list (list Card)) p card :
  (p < length hands)%nat ->
  concat (alter (fun hand => hand ++ [card]) p hands) ≡ₚ card :: concat hands.
Proof.
  revert p. induction hands as [|h hands IH]; intros [|p] Hp; cbn in *; try lia.
  - solve_Permutation.
  - rewrite IH by lia. solve_Permutation.
Qed.

Lemma dealOne_conserves st p :
  (p < length st.1)%nat ->
  concat (dealOne st p).1 ++ (dealOne st p).2 ≡ₚ concat st.1 ++ st.2.
Proof.
  destruct st as [hands d]. unfold dealOne. cbn. intros Hp.
  destruct d as [|c d _] using rev_ind; [done|].
  rewrite last_snoc. cbn. rewrite removelast_last, concat_alter_snoc by done.
  solve_Permutation.
Qed.

Lemma dealing_conserves (seats : list nat) st :
  Forall (fun p => p < length st.1)%nat seats ->
  length (foldl dealOne st seats).1 = length st.1 /\
  concat (foldl dealOne st seats).1 ++ (foldl dealOne st seats).2
  ≡ₚ concat st.1 ++ st.2.
Proof.
  revert st. induction seats as [|p seats IH]; intros st Hseats; [done|].
  apply Forall_cons in Hseats as [Hp Hseats]. cbn.
  destruct (IH (dealOne st p)) as [Hlen Hperm].
  { by rewrite dealOne_hands_length. }
  rewrite Hlen, Hperm, dealOne_hands_length. split; [done|].
  by apply dealOne_conserves.
Qed.

Lemma concat_replicate_nil {A : Type} n : concat (replicate n (@nil A)) = [].
Proof. induction n; [done|]. by cbn. Qed.

Lemma dealRound_conserves playerCount st :
  length st.1 = playerCount ->
  length (dealRound playerCount st).1 = playerCount /\
  concat (dealRound playerCount st).1 ++ (dealRound playerCount st).2
  ≡ₚ concat st.1 ++ st.2.
Proof.
  intros Hlen. unfold dealRound.
  destruct (dealing_conserves (seq 0 playerCount) st) as [Hl Hp].
  { apply Forall_forall. intros p Hp. apply elem_of_seq in Hp. lia. }
  by rewrite Hl.
Qed.

Lemma dealCards_cards (deck : list Card) (playerCount handSize : nat) :
  length (dealCards deck playerCount handSize).1 = playerCount /\
  concat (dealCards deck playerCount handSize).1 ++ (dealCards deck playerCount handSize).2
  ≡ₚ deck.
Proof.
  unfold dealCards.
  assert (Hgen : forall (rounds : list nat) st,
            length st.1 = playerCount ->
            length (foldl (fun st _ => dealRound playerCount st) st rounds).1 = playerCount /\
            concat (foldl (fun st _ => dealRound playerCount st) st rounds).1 ++
              (foldl (fun st _ => dealRound playerCount st) st rounds).2
            ≡ₚ concat st.1 ++ st.2).
  { induction rounds as [|r rounds IH]; intros st Hst; [done|]. cbn.
    destruct (dealRound_conserves playerCount st Hst) as [Hl Hp].
    destruct (IH _ Hl) as [Hl' Hp']. split; [done|]. by rewrite Hp'. }
  destruct (Hgen (seq 0 handSize) (replicate playerCount [], deck)) as [Hl Hp].
  { cbn. by rewrite length_replicate. }
  split; [done|]. rewrite Hp. cbn. by rewrite concat_replicate_nil.
Qed.

Lemma dealCards_deck_left (deck : list Card) (playerCount handSize : nat) :
  length (dealCards deck playerCount handSize).2
  = (length deck - playerCount * handSize)%nat.
Proof.
  unfold dealCards.
  assert (Hround : forall st,
            length (dealRound playerCount st).2 = (length st.2 - playerCount)%nat).
  { intros st. unfold dealRound.
    assert (Hgen : forall seats st',
              length (foldl dealOne st' seats).2 = (length st'.2 - length seats)%nat).
    { induction seats as [|p seats IH]; intros st'; cbn; [lia|].
      rewrite IH, dealOne_deck_length. lia. }
    by rewrite Hgen, length_seq. }
  assert (Hgen : forall (rounds : list nat) st,
            length (foldl (fun st _ => dealRound playerCount st) st rounds).2
            = (length st.2 - playerCount * length rounds)%nat).
  { induction rounds as [|r rounds IH]; intros st; cbn; [lia|].
    rewrite IH, Hround. lia. }
  by rewrite Hgen, length_seq.
Qed.

Lemma dealOne_nonempty hands d p :
  d <> [] ->
  exists card d', d = d' ++ [card] /\
    dealOne (hands, d) p = (alter (fun hand => hand ++ [card]) p hands, d').
Proof.
  intros Hd. destruct d as [|c d _] using rev_ind; [done|].
  exists c, d. split; [done|]. unfold dealOne. by rewrite last_snoc, removelast_last.
Qed.

Lemma dealRound_prefix playerCount k st p :
  length st.1 = playerCount ->
  (forall i h, st.1 !! i = Some h -> length h = k) ->
  (p <= playerCount)%nat -> (p <= length st.2)%nat ->
  length (foldl dealOne st (seq 0 p)).1 = playerCount /\
  length (foldl dealOne st (seq 0 p)).2 = (length st.2 - p)%nat /\
  forall i h, (foldl dealOne st (seq 0 p)).1 !! i = Some h ->
    length h = if decide (i < p)%nat then S k else k.
Proof.
  intros Hlen Hk. induction p as [|p IH]; intros Hp Hd.
  - cbn. split; [done|]. split; [lia|]. intros i h Hi.
    rewrite decide_False by lia. by eapply Hk.
  - destruct IH as (Hl & Hdl & Hh); [lia..|].
    rewrite seq_S, foldl_app. cbn [foldl Nat.add].
    destruct (foldl dealOne st (seq 0 p)) as [hands d] eqn:Hst. cbn [fst snd] in *.
    destruct (dealOne_nonempty hands d p) as (card & d' & Hd' & Hone).
    { destruct d; [cbn in Hdl; lia|done]. }
    rewrite Hone. subst d. cbn [fst snd]. rewrite length_app in Hdl. cbn in Hdl.
    split; [by rewrite length_alter|]. split; [lia|].
    intros i h Hi. destruct (decide (i = p)) as [->|Hne].
    + rewrite list_lookup_alter_eq in Hi.
      destruct (hands !! p) as [h0|] eqn:Hp0; [|done]. cbn in Hi. injection Hi as <-.
      rewrite decide_True by lia. rewrite length_app. cbn.
      rewrite (Hh p h0 Hp0), decide_False by lia. lia.
    + rewrite list_lookup_alter_ne in Hi by done.
      rewrite (Hh i h Hi). destruct (decide (i < p)%nat), (decide (i < S p)%nat); lia.
Qed.

Lemma dealRound_full playerCount k st :
  length st.1 = playerCount ->
  (forall i h, st.1 !! i = Some h -> length h = k) ->
  (playerCount <= length st.2)%nat ->
  length (dealRound playerCount st).1 = playerCount /\
  length (dealRound playerCount st).2 = (length st.2 - playerCount)%nat /\
  forall i h, (dealRound playerCount st).1 !! i = Some h -> length h = S k.
Proof.
  intros Hlen Hk Hd.
  destruct (dealRound_prefix playerCount k st playerCount Hlen Hk) as (Hl & Hdl & Hh);
    [lia..|].
  split; [done|]. split; [done|]. intros i h Hi.
  rewrite (Hh i h Hi). rewrite decide_True; [done|].
  apply lookup_lt_Some in Hi. unfold dealRound in Hi. lia.
Qed.

Lemma dealCards_hands_full (deck : list Card) (playerCount handSize : nat) :
  (playerCount * handSize <= length deck)%nat ->
  forall i hand, (dealCards deck playerCount handSize).1 !! i = Some hand ->
    length hand = handSize.
Proof.
  intros Hdeck. unfold dealCards.
  assert (Hgen : forall (rounds : list nat) st k,
            length st.1 = playerCount ->
            (forall i h, st.1 !! i = Some h -> length h = k) ->
            (playerCount * length rounds <= length st.2)%nat ->
            forall i h,
              (foldl (fun st _ => dealRound playerCount st) st rounds).1 !! i = Some h ->
              length h = (k + length rounds)%nat).
  { induction rounds as [|r rounds IH]; intros st k Hlen Hk Hd i h Hi; cbn in *.
    - rewrite (Hk i h Hi). lia.
    - destruct (dealRound_full playerCount k st Hlen Hk) as (Hl & Hdl & Hh); [lia|].
      rewrite (IH _ (S k) Hl Hh) with (i := i) (h := h); [lia| |done].
      rewrite Hdl. lia. }
  intros i hand Hi.
  pose proof (Hgen (seq 0 handSize) (replicate playerCount [], deck) 0%nat) as Hall.
  rewrite length_seq in Hall. cbn [fst snd] in Hall.
  apply (Hall (length_replicate _ _)) in Hi; [done| |done].
  intros j h Hj. by apply lookup_replicate in Hj as [-> _].
Qed.

(** X1. [dealCards] makes one hand per player, and hands out and keeps back
    exactly the cards of the deck.  The deck shrinks by one card for every
    card asked for, down to nothing: a deck too small is dealt out, without
    failure.  With enough cards in the deck every hand has [handSize]
    cards. *)
Theorem dealCards_deals (deck : list Card) (playerCount handSize : nat) :
  let hands := (dealCards deck playerCount handSize).1 in
  let remainingDeck := (dealCards deck playerCount handSize).2 in
  length hands = playerCount /\
  concat hands ++ remainingDeck ≡ₚ deck /\
  length remainingDeck = (length deck - playerCount * handSize)%nat /\
  ((playerCount * handSize <= length deck)%nat ->
   Forall (fun hand => length hand = handSize) hands).
Proof.
  intros hands remainingDeck.
  destruct (dealCards_cards deck playerCount handSize) as [Hhands Hcards].
  split; [done|]. split; [done|].
  split; [apply dealCards_deck_left|].
  intros Hdeck. apply Forall_lookup. intros i hand Hi.
  by apply (dealCards_hands_full deck playerCount handSize Hdeck i).
Qed.

Lemma dealCards_deals_witness :
  Forall (fun hand => length hand = 10%nat) (dealCards createDeck 4 10).1.
Proof.
  apply (dealCards_deals createDeck 4 10). vm_compute. lia.
Defined.

(** ** Starting a round *)

(** As [run_setters], for long chains of setters: one setter at a time,
    the projections of the state reduced after each. *)
Ltac run_step :=
  erewrite bind_Returned
    by (unfold setGameState, setNotification, setPlayers, setDeck, setDiscardPile,
          setCurrentPlayerIndex, setTurnPhase, setSelectedCardIds, setRoundWinnerId,
          setTimeLeft, sendClientAction, returnVoid, mret, Handler_ret;
        reflexivity);
  cbn [gameState phases notification isMultiplayer isHost timeLeft players deck
       discardPile currentPlayerIndex turnPhase selectedCardIds roundWinnerId
       sentActions].

Lemma seatPlayer_cards (seats : list Player) (hands : list (list Card)) :
  length seats = length hands ->
  flat_map playerCards (zip_with seatPlayer seats hands) ≡ₚ concat hands.
Proof.
  revert hands. induction seats as [|p seats IH]; intros [|h hands] Hlen; try done.
  cbn in Hlen. cbn. unfold playerCards at 1. cbn.
  rewrite app_nil_r, js_sort_Permutation, IH by lia. done.
Qed.

Lemma startRoundWith_fresh (g : Game) (turnDuration : Z)
    (first : Player) (others : list Player) (newDeck : list Card) :
  (length others < 10)%nat ->
  is_Some (lookupZ (phases g) (p_phaseIndex first)) ->
  length newDeck = 108%nat ->
  let currentPlayers := first :: others in
  exists g',
    startRoundWith g turnDuration currentPlayers newDeck g = Returned tt g' /\
    gameState g' = PLAYING /\
    currentPlayerIndex g' = 0%nat /\
    turnPhase g' = DRAW /\
    roundWinnerId g' = None /\
    selectedCardIds g' = [] /\
    timeLeft g' = turnDuration /\
    length (discardPile g') = 1%nat /\
    length (deck g') = (107 - 10 * length currentPlayers)%nat /\
    length (players g') = length currentPlayers /\
    (forall i p, currentPlayers !! i = Some p ->
       exists p',
         players g' !! i = Some p' /\
         p_id p' = p_id p /\ p_name p' = p_name p /\ p_isHuman p' = p_isHuman p /\
         p_score p' = p_score p /\ p_phaseIndex p' = p_phaseIndex p /\
         length (p_hand p') = 10%nat /\
         Sorted Z.le (map c_value (p_hand p')) /\
         p_melds p' = [] /\ p_hasLaidDownPhase p' = false /\
         p_isSkipped p' = Some false) /\
    allCards g' ≡ₚ newDeck.
Proof.
  intros Hothers [phase Hphase] Hnewlen currentPlayers.
  set (n := length currentPlayers).
  assert (Hn : (1 <= n <= 10)%nat) by (subst n currentPlayers; cbn; lia).
  destruct (dealCards_cards newDeck n HAND_SIZE) as [Hhands Hcons].
  pose proof (dealCards_deck_left newDeck n HAND_SIZE) as Hrem.
  pose proof (dealCards_hands_full newDeck n HAND_SIZE) as Hsizes.
  unfold startRoundWith. fold currentPlayers n.
  destruct (dealCards newDeck n HAND_SIZE) as [hands remainingDeck].
  cbn [fst snd] in *. unfold HAND_SIZE in *. rewrite Hnewlen in Hrem, Hsizes.
  destruct (snoc_of_nonempty remainingDeck) as (restDeck & firstDiscard & ->); [lia|].
  rewrite last_snoc, removelast_last. rewrite length_app in Hrem. cbn in Hrem.
  destruct hands as [|hand hands]; [cbn in Hhands; lia|].
  eexists. split.
  { do 7 run_step.
    erewrite bind_Returned by (by apply readIndex_Returned).
    change (p_phaseIndex (seatPlayer first hand)) with (p_phaseIndex first).
    rewrite Hphase. do 2 run_step. reflexivity. }
  cbn [gameState currentPlayerIndex turnPhase roundWinnerId selectedCardIds timeLeft
       discardPile deck players].
  do 7 (split; [done|]). subst n.
  assert (Hcount : length currentPlayers = S (length others)) by done.
  split; [lia|].
  split. { rewrite length_zip_with. lia. }
  split.
  - intros i p Hp.
    destruct (lookup_lt_is_Some_2 (hand :: hands) i) as [h Hh].
    { apply lookup_lt_Some in Hp. lia. }
    exists (seatPlayer p h). split.
    { change (zip_with seatPlayer currentPlayers (hand :: hands) !! i
              = Some (seatPlayer p h)).
      rewrite lookup_zip_with, Hp. cbn. by rewrite Hh. }
    cbn. do 5 (split; [done|]). split.
    { rewrite (Permutation_length (js_sort_Permutation byValueAsc h)).
      apply (Hsizes ltac:(lia) i h Hh). }
    split; [apply js_sort_values_sorted|done].
  - unfold allCards. cbn [deck discardPile players].
    rewrite seatPlayer_cards by (by symmetry).
    rewrite <- Hcons. solve_Permutation.
Qed.

Lemma createDeck_length : length createDeck = 108%nat.
Proof. vm_compute. reflexivity. Qed.

(** X2. [startRound] for one to ten players whose first player is on a phase
    that exists: the round is on, first seat to draw, nobody has won; every
    player keeps identity, score and phase index and holds ten cards sorted
    by value, with no meld and the flags of the round reset; one card lies
    on the discard pile, and deck, pile and hands together are the 108
    cards of [createDeck]. *)
Theorem startRound_fresh (g : Game) (rnd : list nat) (turnDuration : Z)
    (first : Player) (others : list Player) :
  (length others < 10)%nat ->
  is_Some (lookupZ (phases g) (p_phaseIndex first)) ->
  let currentPlayers := first :: others in
  exists g',
    startRound g rnd turnDuration currentPlayers g = Returned tt g' /\
    gameState g' = PLAYING /\
    currentPlayerIndex g' = 0%nat /\
    turnPhase g' = DRAW /\
    roundWinnerId g' = None /\
    selectedCardIds g' = [] /\
    timeLeft g' = turnDuration /\
    length (discardPile g') = 1%nat /\
    length (deck g') = (107 - 10 * length currentPlayers)%nat /\
    length (players g') = length currentPlayers /\
    (forall i p, currentPlayers !! i = Some p ->
       exists p',
         players g' !! i = Some p' /\
         p_id p' = p_id p /\ p_name p' = p_name p /\ p_isHuman p' = p_isHuman p /\
         p_score p' = p_score p /\ p_phaseIndex p' = p_phaseIndex p /\
         length (p_hand p') = 10%nat /\
         Sorted Z.le (map c_value (p_hand p')) /\
         p_melds p' = [] /\ p_hasLaidDownPhase p' = false /\
         p_isSkipped p' = Some false) /\
    allCards g' ≡ₚ createDeck.
Proof.
  intros Hothers Hphase currentPlayers.
  pose proof (shuffleDeck_Permutation rnd createDeck) as Hshuffle.
  destruct (startRoundWith_fresh g turnDuration first others (shuffleDeck rnd createDeck))
    as (g' & Hrun & H1 & H2 & H3 & H4 & H5 & H6 & H7 & H8 & H9 & H10 & H11);
    [done|done|by rewrite Hshuffle, createDeck_length|].
  exists g'. unfold startRound.
  split; [exact Hrun|]. do 10 (split; [assumption|]). by rewrite H11.
Qed.

Lemma startRound_fresh_witness :
  exists g',
    startRound deckPlayedOut [] 30 (players deckPlayedOut) deckPlayedOut
      = Returned tt g' /\
    gameState g' = PLAYING /\
    length (deck g') = 67%nat /\
    allCards g' ≡ₚ createDeck.
Proof.
  destruct (startRound_fresh deckPlayedOut [] 30 (seated "p1" "Ann (Host)" true 0)
              [seated "bot-0" "Alpha" false 1; seated "bot-1" "Cipher" false 2; omega])
    as (g' & Hrun & Hstate & _ & _ & _ & _ & _ & _ & Hdeck & _ & _ & Hcards).
  - cbn. lia.
  - by eexists.
  - exists g'. split; [exact Hrun|]. split; [exact Hstate|]. split; [exact Hdeck|].
    exact Hcards.
Defined.

(** ** The card given up on a timeout *)

Section JsSortSorted.
Context {A : Type} (cmp : A -> A -> Z) (R : A -> A -> Prop).
Hypothesis cmp_le : forall x y, cmp x y <= 0 -> R x y.
Hypothesis cmp_gt : forall x y, 0 < cmp x y -> R y x.

Lemma js_insert_Sorted x l : Sorted R l -> Sorted R (js_insert cmp x l).
Proof.
  induction l as [|y l IH]; cbn; intros Hs.
  - repeat constructor.
  - destruct (Z.leb_spec (cmp x y) 0) as [Hle|Hgt].
    + constructor; [done|]. constructor. by apply cmp_le.
    + apply Sorted_inv in Hs as [Hs Hhd]. constructor; [by apply IH|].
      destruct l as [|z l]; cbn.
      * constructor. by apply cmp_gt.
      * destruct (cmp x z <=? 0).
        -- constructor. by apply cmp_gt.
        -- constructor. by apply HdRel_inv in Hhd.
Qed.

Lemma js_sort_Sorted l : Sorted R (js_sort cmp l).
Proof.
  induction l as [|x l IH]; cbn; [constructor|]. by apply js_insert_Sorted.
Qed.
End JsSortSorted.

Lemma js_sort_falling hand : StronglySorted fallingValue (js_sort byValueDesc hand).
Proof.
  apply Sorted_StronglySorted.
  - intros a b c. unfold fallingValue. lia.
  - apply js_sort_Sorted; unfold byValueDesc, fallingValue; intros; lia.
Qed.

Lemma StronglySorted_lookup_le {A : Type} (R : A -> A -> Prop) (l : list A) i j x y :
  StronglySorted R l -> (i < j)%nat -> l !! i = Some x -> l !! j = Some y -> R x y.
Proof.
  intros Hs. revert i j. induction Hs as [|a l Hs IH Hall]; intros i j Hij Hi Hj; [done|].
  destruct j as [|j]; [lia|]. cbn in Hj. destruct i as [|i]; cbn in Hi.
  - injection Hi as ->. rewrite Forall_forall in Hall. apply Hall.
    by eapply list_elem_of_lookup_2.
  - apply (IH i j); [lia|done..].
Qed.

Lemma pickDiscard_elem (hand : list Card) :
  hand <> [] -> exists card, pickDiscard hand = Some card /\ card ∈ hand.
Proof.
  intros Hhand. unfold pickDiscard.
  pose proof (js_sort_Permutation byValueDesc hand) as Hperm.
  destruct (list_find _ (js_sort byValueDesc hand)) as [[i card]|] eqn:Hfind.
  - apply list_find_Some in Hfind as (Hi & _ & _).
    exists card. split; [done|]. rewrite <- Hperm. by eapply list_elem_of_lookup_2.
  - destruct (js_sort byValueDesc hand) as [|card tail].
    { exfalso. apply Hhand. by apply Permutation_nil_r. }
    exists card. split; [done|]. rewrite <- Hperm. left.
Qed.

(** X3. From a hand with cards, [pickDiscard] gives up a card of the hand: a
    number card of the greatest value among the number cards, when there
    is a number card; the card of the greatest value otherwise. *)
Theorem pickDiscard_highest (hand : list Card) :
  hand <> [] ->
  exists card,
    pickDiscard hand = Some card /\
    card ∈ hand /\
    ((exists c, c ∈ hand /\ c_type c = NUMBER) ->
       c_type card = NUMBER /\
       forall c, c ∈ hand -> c_type c = NUMBER -> c_value c <= c_value card) /\
    ((forall c, c ∈ hand -> c_type c <> NUMBER) ->
       forall c, c ∈ hand -> c_value c <= c_value card).
Proof.
  intros Hhand. unfold pickDiscard.
  pose proof (js_sort_falling hand) as Hsorted.
  pose proof (js_sort_Permutation byValueDesc hand) as Hperm.
  set (sortedHand := js_sort byValueDesc hand) in *.
  assert (Hplain : forall c, (c_type c <> WILD /\ c_type c <> SKIP) <-> c_type c = NUMBER).
  { intros c. destruct (c_type c); split; try done; intros [? ?]; done. }
  destruct (list_find _ sortedHand) as [[i card]|] eqn:Hfind.
  - apply list_find_Some in Hfind as (Hi & Hcard & Hbefore).
    exists card. split; [done|]. split.
    { rewrite <- Hperm. by eapply list_elem_of_lookup_2. }
    split.
    + intros _. split; [by apply Hplain|].
      intros c Hc Hnum. rewrite <- Hperm in Hc.
      apply list_elem_of_lookup in Hc as [j Hj].
      destruct (decide (j < i)%nat) as [Hlt|Hge].
      { exfalso. apply (Hbefore j c Hj Hlt). by apply Hplain. }
      destruct (decide (j = i)) as [->|Hne]; [by simplify_eq|].
      apply (StronglySorted_lookup_le fallingValue sortedHand i j card c);
        [done|lia|done..].
    + intros Hnone. exfalso. apply (Hnone card).
      * rewrite <- Hperm. by eapply list_elem_of_lookup_2.
      * by apply Hplain.
  - rewrite list_find_None, Forall_forall in Hfind.
    destruct sortedHand as [|card tail] eqn:Hs.
    { exfalso. apply Hhand. by apply Permutation_nil_r. }
    exists card. split; [done|]. split; [rewrite <- Hperm; left|]. split.
    + intros (c & Hc & Hnum). exfalso. apply (Hfind c); [by rewrite Hperm|by apply Hplain].
    + intros _ c Hc. rewrite <- Hperm in Hc.
      apply elem_of_cons in Hc as [->|Hc]; [done|].
      apply StronglySorted_inv in Hsorted as [_ Hall].
      rewrite Forall_forall in Hall. by apply Hall.
Qed.

Lemma pickDiscard_highest_witness :
  exists card,
    pickDiscard (annHand ++ [skipCard]) = Some card /\
    card ∈ annHand ++ [skipCard] /\ c_type card = NUMBER.
Proof.
  destruct (pickDiscard_highest (annHand ++ [skipCard])) as (card & Hpick & Hin & Hnum & _);
    [discriminate|].
  exists card. split; [exact Hpick|]. split; [exact Hin|].
  apply Hnum. exists (mkCard "card-0" NUMBER RED 1 "1"). split; [left|reflexivity].
Defined.

(** The bot picks its discard in the same way. *)
Lemma botMeldAndDiscard_picks (g : Game) (now : Z) (bot : Player) (hand : list Card) :
  botMeldAndDiscard g false now bot hand g =
  match pickDiscard hand with
  | Some discardCard =>
      performDiscard g
        (withHasLaidDownPhase (withHand bot hand) (p_hasLaidDownPhase bot || false))
        discardCard g
  | None => Returned tt g
  end.
Proof.
  unfold botMeldAndDiscard, pickDiscard. rewrite andb_false_r. run_setters.
  by destruct (list_find _ _) as [[? ?]|]; [|destruct (head _)].
Qed.

(** ** The turn clock *)

(** X4. The countdown stops at zero: [n] ticks from a time that is not
    negative leave what is left of it, and nothing below zero. *)
Theorem tick_iter (n : nat) (t : Z) :
  0 <= t -> Nat.iter n tick t = Z.max (t - Z.of_nat n) 0.
Proof.
  intros Ht. induction n as [|n IH]; [cbn; lia|].
  rewrite Nat.iter_succ, IH. unfold tick.
  destruct (Z.leb_spec (Z.max (t - Z.of_nat n) 0) 1); lia.
Qed.

Lemma tick_iter_witness : Nat.iter 40 tick 30 = 0.
Proof. rewrite tick_iter by lia. reflexivity. Defined.

(** ** The end of a round and of the game *)

(** X5. The discard of the last card of a hand ends the round at once, in
    whatever sub-phase: the discarder is the winner and the turn stays
    where it was.  The players are scored as the render had them: hands
    and melds are those of before the discard, so that the card now on the
    discard pile still shows in the winner's hand. *)
Theorem performDiscard_last_card (g : Game) (player : Player) (cardToDiscard : Card) :
  (currentPlayerIndex g < length (players g))%nat ->
  filter (fun c => c_id c <> c_id cardToDiscard) (p_hand player) = [] ->
  exists g',
    performDiscard g player cardToDiscard g = Returned tt g' /\
    gameState g' = ROUND_OVER /\
    roundWinnerId g' = Some (p_id player) /\
    discardPile g' = discardPile g ++ [cardToDiscard] /\
    deck g' = deck g /\
    currentPlayerIndex g' = currentPlayerIndex g /\
    turnPhase g' = turnPhase g /\
    map p_hand (players g') = map p_hand (players g) /\
    map p_melds (players g') = map p_melds (players g).
Proof.
  intros Hlt Hempty. unfold performDiscard. rewrite Hempty.
  erewrite bind_Returned by (by apply arraySet_Returned).
  do 3 run_step. rewrite decide_True by done.
  unfold endRound. do 2 run_step. unfold setPlayers. cbn.
  eexists. split; [reflexivity|]. cbn. do 6 (split; [done|]).
  rewrite !map_map. split; apply map_ext; intros p;
    by destruct (decide (p_id p = p_id player)).
Qed.

Lemma performDiscard_last_card_witness :
  let last := mkCard "card-0" NUMBER RED 1 "1" in
  let g := mkGame PLAYING STANDARD_PHASES "" false false 30
             [withHand ann [last]; alpha] [] spentPile 0%nat ACTION [] None [] in
  exists g',
    performDiscard g (withHand ann [last]) last g = Returned tt g' /\
    gameState g' = ROUND_OVER /\
    map p_hand (players g') = [[last]; botHand].
Proof.
  intros last g.
  destruct (performDiscard_last_card g (withHand ann [last]) last)
    as (g' & Hrun & Hstate & _ & _ & _ & _ & _ & Hhands & _).
  - cbn. lia.
  - reflexivity.
  - exists g'. split; [exact Hrun|]. split; [exact Hstate|]. exact Hhands.
Defined.

(** X6. The game is declared over as soon as a player who has laid down in the
    round just scored was on the last phase or on the one before it:
    [endRound] moves that player to the last phase index and leaves the
    lay-down flag up, which is what [nextRound] tests. *)
Theorem endRound_nextRound_game_over (g : Game) (winnerId : string) (rnd : list nat)
    (turnDuration : Z) (p : Player) :
  isMultiplayer g && negb (isHost g) = false ->
  p ∈ players g ->
  p_hasLaidDownPhase p = true ->
  len (phases g) - 2 <= p_phaseIndex p ->
  exists scored over,
    run g (endRound g winnerId) = Some scored /\
    nextRound scored rnd turnDuration scored = Returned tt over /\
    gameState over = GAME_OVER /\
    players over = players scored.
Proof.
  intros Hhost Hp Hlaid Hphase.
  eexists. eexists. split; [reflexivity|].
  unfold nextRound. cbn [isMultiplayer isHost phases players]. rewrite Hhost.
  match goal with |- context [existsb ?f ?l] => assert (Hover : existsb f l = true) end.
  { apply existsb_exists.
    exists (withPhaseIndex
              (if decide (p_id p = winnerId) then withScore p (p_score p)
               else withScore p (p_score p + calculateScore (p_hand p)))
              (Z.min (p_phaseIndex p + 1) (len (phases g) - 1))).
    split.
    - apply list_elem_of_In. rewrite map_map. apply list_elem_of_fmap.
      exists p. split; [|done].
      destruct (decide (p_id p = winnerId)); cbn; by rewrite Hlaid.
    - cbn. apply andb_true_iff. split.
      + apply Z.eqb_eq. lia.
      + by destruct (decide (p_id p = winnerId)). }
  rewrite Hover. split; [reflexivity|]. done.
Qed.

Lemma endRound_nextRound_game_over_witness :
  let finisher := withHasLaidDownPhase (withPhaseIndex alpha 8) true in
  let g := mkGame PLAYING STANDARD_PHASES "" false false 30 [ann; finisher] []
             spentPile 1%nat ACTION [] None [] in
  exists scored over,
    run g (endRound g "bot-0") = Some scored /\
    nextRound scored [] 30 scored = Returned tt over /\
    gameState over = GAME_OVER.
Proof.
  intros finisher g.
  destruct (endRound_nextRound_game_over g "bot-0" [] 30 finisher)
    as (scored & over & Hscored & Hnext & Hover & _).
  - reflexivity.
  - right. left.
  - reflexivity.
  - vm_compute. discriminate.
  - exists scored, over. split; [exact Hscored|]. split; [exact Hnext|]. exact Hover.
Defined.

(** ** Taking the top of the discard pile *)

(** X7. A draw from the discard pile by the player to move (a human, or with
    the clock run out; on the host or in a local game): a skip card on top
    is refused, with a notice and nothing else changed; any other top card
    goes to the hand and the sub-phase becomes ACTION; on an empty pile the
    handler fails before it has changed anything. *)
Theorem handleDraw_from_discard (g : Game) (rnd : list nat) (player : Player) :
  isMultiplayer g && negb (isHost g) = false ->
  players g !! currentPlayerIndex g = Some player ->
  negb (p_isHuman player) && (timeLeft g >? 0) && negb (isMultiplayer g) = false ->
  (discardPile g = [] -> handleDraw g rnd true g = Thrown g) /\
  (forall rest top, discardPile g = rest ++ [top] -> c_type top = SKIP ->
     handleDraw g rnd true g =
     Returned tt
       (mkGame (gameState g) (phases g) "Cannot pick up a Skip card!"
          (isMultiplayer g) (isHost g) (timeLeft g) (players g) (deck g)
          (discardPile g) (currentPlayerIndex g) (turnPhase g)
          (selectedCardIds g) (roundWinnerId g) (sentActions g))) /\
  (forall rest top, discardPile g = rest ++ [top] -> c_type top <> SKIP ->
     handleDraw g rnd true g =
     Returned tt
       (mkGame (gameState g) (phases g) (notification g)
          (isMultiplayer g) (isHost g) (timeLeft g)
          (<[currentPlayerIndex g := withHand player (p_hand player ++ [top])]>
             (players g))
          (deck g) rest (currentPlayerIndex g) ACTION
          (selectedCardIds g) (roundWinnerId g) (sentActions g))).
Proof.
  intros Hhost Hcur Hguard.
  pose proof (lookup_lt_Some _ _ _ Hcur) as Hlt.
  assert (Hstart : forall k : Player -> Handler unit,
            (if isMultiplayer g && negb (isHost g)
             then sendClientAction (DrawAction true)
             else player ← readIndex (players g) (currentPlayerIndex g);
                  if negb (p_isHuman player) && (timeLeft g >? 0) && negb (isMultiplayer g)
                  then returnVoid else k player) g = k player g).
  { intros k. rewrite Hhost. erewrite bind_Returned by (by apply readIndex_Returned).
    by rewrite Hguard. }
  unfold handleDraw. rewrite Hstart.
  split; [|split].
  - intros Hpile. by rewrite Hpile.
  - intros rest top Hpile Hskip.
    replace (last (discardPile g)) with (Some top) by (by rewrite Hpile, last_snoc).
    rewrite decide_True by done. reflexivity.
  - intros rest top Hpile Hskip.
    replace (last (discardPile g)) with (Some top) by (by rewrite Hpile, last_snoc).
    replace (removelast (discardPile g)) with rest
      by (by rewrite Hpile, removelast_last).
    rewrite decide_False by done.
    unfold finishDraw. erewrite bind_Returned by (by apply arraySet_Returned).
    do 3 run_step. reflexivity.
Qed.

Lemma handleDraw_from_discard_witness :
  handleDraw annToDraw [] true annToDraw =
  Returned tt
    (mkGame PLAYING STANDARD_PHASES "" false false 30
       [withHand ann (annHand ++ [mkCard "card-100" WILD WILD_COLOR 25 "W"]); alpha] []
       (removelast spentPile) 0%nat ACTION [] None []).
Proof.
  apply (handleDraw_from_discard annToDraw [] ann); try reflexivity. discriminate.
Defined.

(** ** Rearranging a hand *)

Lemma js_relative_in_range (i : Z) (n : nat) :
  0 <= i <= Z.of_nat n -> js_relative i n = Z.to_nat i.
Proof.
  intros Hi. unfold js_relative.
  destruct (Z.ltb_spec i 0); [lia|]. f_equal. lia.
Qed.

Lemma moveCard_cards (hand newHand : list Card) (fromIndex toIndex : Z) :
  moveCard hand fromIndex toIndex = Some newHand -> newHand ≡ₚ hand.
Proof.
  unfold moveCard.
  destruct (hand !! js_relative fromIndex (length hand)) as [moved|] eqn:Hmoved; [|done].
  intros [= <-].
  rewrite <- Permutation_middle, take_drop.
  symmetry. by apply delete_Permutation.
Qed.

Lemma moveCard_lands (hand : list Card) (fromIndex toIndex : Z) :
  0 <= fromIndex < len hand ->
  0 <= toIndex < len hand ->
  exists newHand,
    moveCard hand fromIndex toIndex = Some newHand /\
    newHand !! Z.to_nat toIndex = hand !! Z.to_nat fromIndex.
Proof.
  unfold len. intros Hfrom Hto. unfold moveCard.
  rewrite (js_relative_in_range fromIndex) by lia.
  destruct (lookup_lt_is_Some_2 hand (Z.to_nat fromIndex)) as [moved Hmoved]; [lia|].
  rewrite Hmoved.
  assert (Hrest : length (delete (Z.to_nat fromIndex) hand) = (length hand - 1)%nat).
  { rewrite length_delete by (by eexists). lia. }
  rewrite (js_relative_in_range toIndex) by lia.
  eexists. split; [reflexivity|].
  rewrite lookup_app_r by (rewrite length_take; lia).
  rewrite length_take. by replace (_ - _)%nat with 0%nat by lia.
Qed.

(** X8. A move between two positions of the hand rearranges it: the card at
    [fromIndex] lands at [toIndex], and the move the other way round
    restores the hand. *)
Theorem moveCard_in_range (hand : list Card) (fromIndex toIndex : Z) :
  0 <= fromIndex < len hand ->
  0 <= toIndex < len hand ->
  exists newHand,
    moveCard hand fromIndex toIndex = Some newHand /\
    newHand ≡ₚ hand /\
    newHand !! Z.to_nat toIndex = hand !! Z.to_nat fromIndex /\
    moveCard newHand toIndex fromIndex = Some hand.
Proof.
  unfold len. intros Hfrom Hto. unfold moveCard.
  rewrite (js_relative_in_range fromIndex) by lia.
  set (f := Z.to_nat fromIndex). set (t := Z.to_nat toIndex).
  assert (Hf : (f < length hand)%nat) by (subst f; lia).
  assert (Ht : (t < length hand)%nat) by (subst t; lia).
  destruct (lookup_lt_is_Some_2 hand f Hf) as [moved Hmoved]. rewrite Hmoved.
  set (rest := delete f hand).
  assert (Hrest : length rest = (length hand - 1)%nat).
  { subst rest. rewrite length_delete by (by eexists). lia. }
  rewrite (js_relative_in_range toIndex) by lia. fold t.
  assert (Htake : length (take t rest) = t) by (rewrite length_take; lia).
  eexists. split; [reflexivity|].
  assert (Hlen : length (take t rest ++ moved :: drop t rest) = length hand).
  { rewrite length_app. cbn. rewrite Htake, length_drop. lia. }
  split.
  { rewrite <- Permutation_middle, take_drop. symmetry. by apply delete_Permutation. }
  split.
  { rewrite lookup_app_r by lia. rewrite Htake, Nat.sub_diag. done. }
  rewrite Hlen, (js_relative_in_range toIndex) by lia. fold t.
  rewrite lookup_app_r by lia. rewrite Htake, Nat.sub_diag. cbn.
  assert (Hdel : delete t (take t rest ++ moved :: drop t rest) = rest).
  { rewrite <- Htake at 1. rewrite delete_middle. apply take_drop. }
  rewrite Hdel, Hrest, (js_relative_in_range fromIndex) by lia. fold f.
  f_equal. subst rest. rewrite delete_take_drop.
  assert (Htf : length (take f hand) = f) by (rewrite length_take; lia).
  rewrite take_app_le by lia. rewrite take_take, Nat.min_id.
  rewrite (drop_app_length' (take f hand)) by done.
  by apply take_drop_middle.
Qed.

Lemma moveCard_in_range_witness :
  exists newHand,
    moveCard (runExample RED) 0 4 = Some newHand /\
    newHand !! 4%nat = runExample RED !! 0%nat /\
    moveCard newHand 4 0 = Some (runExample RED).
Proof.
  destruct (moveCard_in_range (runExample RED) 0 4) as (newHand & Hmove & _ & Hat & Hback);
    [vm_compute; split; congruence | vm_compute; split; congruence |].
  exists newHand. split; [exact Hmove|]. split; [exact Hat|exact Hback].
Defined.

Lemma list_find_by_id (ps : list Player) k p :
  NoDup (map p_id ps) -> ps !! k = Some p ->
  list_find (fun q => p_id q = p_id p) ps = Some (k, p).
Proof.
  intros Hnd Hk. apply list_find_Some. split; [done|]. split; [done|].
  intros j q Hj Hlt Heq.
  assert (j = k); [|lia].
  apply (NoDup_lookup (map p_id ps) j k (p_id p) Hnd).
  - by rewrite list_lookup_fmap, Hj, <- Heq.
  - by rewrite list_lookup_fmap, Hk.
Qed.

(** X9. [handleReorderHand] on the host or in a local game: an index outside
    the hand leaves everything alone; otherwise only the hand of the local
    player changes, to a rearrangement of itself, with the card moved at
    its target.  Whose turn it is plays no part. *)
Theorem handleReorderHand_moves (g : Game) (k : nat) (player : Player)
    (fromIndex toIndex : Z) :
  isMultiplayer g && negb (isHost g) = false ->
  NoDup (map p_id (players g)) ->
  players g !! k = Some player ->
  let n := len (p_hand player) in
  ((fromIndex < 0 \/ n <= fromIndex \/ toIndex < 0 \/ n <= toIndex) ->
     handleReorderHand g (p_id player) fromIndex toIndex g = Returned None g) /\
  (0 <= fromIndex < n -> 0 <= toIndex < n ->
     exists newHand,
       handleReorderHand g (p_id player) fromIndex toIndex g =
       Returned None
         (mkGame (gameState g) (phases g) (notification g) (isMultiplayer g)
            (isHost g) (timeLeft g) (<[k := withHand player newHand]> (players g))
            (deck g) (discardPile g) (currentPlayerIndex g) (turnPhase g)
            (selectedCardIds g) (roundWinnerId g) (sentActions g)) /\
       newHand ≡ₚ p_hand player /\
       newHand !! Z.to_nat toIndex = p_hand player !! Z.to_nat fromIndex).
Proof.
  intros Hhost Hnd Hk n. unfold handleReorderHand. rewrite Hhost.
  rewrite (list_find_by_id _ _ _ Hnd Hk). fold n. split.
  - intros Hout.
    replace ((fromIndex <? 0) || (fromIndex >=? n) || (toIndex <? 0) || (toIndex >=? n))
      with true; [done|].
    symmetry. rewrite !orb_true_iff, !Z.ltb_lt, !Z.geb_le. tauto.
  - intros Hfrom Hto.
    replace ((fromIndex <? 0) || (fromIndex >=? n) || (toIndex <? 0) || (toIndex >=? n))
      with false.
    2:{ symmetry. rewrite !Z.geb_leb, !orb_false_iff, !Z.ltb_ge, !Z.leb_gt. lia. }
    destruct (moveCard_lands (p_hand player) fromIndex toIndex Hfrom Hto)
      as (newHand & Hmove & Hat).
    rewrite Hmove. exists newHand. split; [reflexivity|].
    split; [by eapply moveCard_cards|done].
Qed.

Lemma handleReorderHand_moves_witness :
  exists newHand,
    handleReorderHand skipRound "p1" 2 0 skipRound =
    Returned None
      (mkGame PLAYING STANDARD_PHASES "" false false 30
         [withHand annWithSkip newHand; alpha; cara]
         [mkCard "card-101" WILD WILD_COLOR 25 "W"] spentPile 0%nat ACTION [] None []) /\
    newHand !! 0%nat = Some skipCard.
Proof.
  destruct (handleReorderHand_moves skipRound 0 annWithSkip 2 0)
    as [_ Hmove]; [reflexivity|compute_done|reflexivity|].
  destruct Hmove as (newHand & Hrun & _ & Hat); [vm_compute; split; congruence..|].
  exists newHand. split; [exact Hrun|exact Hat].
Defined.

(** X10. [sortHand] changes nothing but the order of one hand (or, on a client,
    the notice), whatever the collation of the colour names. *)
Theorem sortHand_conserves (g : Game) (localeCompare : CardColor -> CardColor -> Z)
    (myPlayerId : string) :
  exists g',
    sortHand g localeCompare myPlayerId g = Returned tt g' /\
    deck g' = deck g /\ discardPile g' = discardPile g /\
    currentPlayerIndex g' = currentPlayerIndex g /\ turnPhase g' = turnPhase g /\
    gameState g' = gameState g /\
    length (players g') = length (players g) /\
    (forall i p, players g !! i = Some p ->
       exists p', players g' !! i = Some p' /\
         p_hand p' ≡ₚ p_hand p /\ p_melds p' = p_melds p /\ p_id p' = p_id p /\
         p_score p' = p_score p /\ p_phaseIndex p' = p_phaseIndex p) /\
    allCards g' ≡ₚ allCards g.
Proof.
  unfold sortHand.
  destruct (list_find _ (players g)) as [[i player]|] eqn:Hfind.
  2:{ exists g. repeat split; try done. intros i p Hp. by exists p. }
  destruct (isMultiplayer g && negb (isHost g)).
  { eexists. split; [reflexivity|]. cbn. repeat split; try done.
    intros j p Hp. by exists p. }
  pose proof Hfind as Hfind'.
  apply list_find_Some in Hfind' as (Hi & Hid & _).
  rewrite Hid, Hfind.
  eexists. split; [reflexivity|]. cbn. do 5 (split; [done|]).
  split; [by rewrite length_insert|]. split.
  - intros j p Hp. destruct (decide (j = i)) as [->|Hne].
    + rewrite list_lookup_insert_eq by (by eapply lookup_lt_Some).
      eexists. split; [done|]. simplify_eq. cbn.
      split; [apply js_sort_Permutation|done].
    + rewrite list_lookup_insert_ne by done. by exists p.
  - unfold allCards. cbn.
    rewrite (playerCards_same _ _ player _ Hi); [done|].
    unfold playerCards. cbn. by rewrite js_sort_Permutation.
Qed.

(** ** When the turn clock runs out *)

Lemma performDiscard_turn (g : Game) (player : Player) (cardToDiscard : Card)
    (s : Game) :
  (currentPlayerIndex g < length (players g))%nat ->
  filter (fun c => c_id c <> c_id cardToDiscard) (p_hand player) <> [] ->
  exists s',
    performDiscard g player cardToDiscard s = Returned tt s' /\
    turnPhase s' = DRAW /\ selectedCardIds s' = [].
Proof.
  intros Hlt Hleft.
  destruct (decide (c_type cardToDiscard = SKIP)) as [Hskip|Hskip].
  - destruct (performDiscard_skip_run g player cardToDiscard s Hlt Hskip Hleft)
      as (skipped & q & _ & _ & ->).
    by eexists.
  - rewrite (performDiscard_plain g player cardToDiscard s Hlt Hskip Hleft).
    by eexists.
Qed.

Lemma filter_other_ids_nonempty (hand : list Card) (card : Card) :
  NoDup (map c_id hand) -> card ∈ hand -> (2 <= length hand)%nat ->
  filter (fun c => c_id c <> c_id card) hand <> [].
Proof.
  intros Hnd Hin Hlen Hnil.
  pose proof (filter_other_ids hand card Hnd Hin) as Hperm.
  rewrite Hnil in Hperm. apply Permutation_length in Hperm. cbn in Hperm. lia.
Qed.

(** X11. [handleTimeout] does nothing outside a round or on the turn of a bot.
    On the turn of a human it draws from the deck if the draw is still due,
    and otherwise gives up the card [pickDiscard] names and passes the
    turn, whether or not the player had drawn: no card is lost either
    way. *)
Theorem handleTimeout_plays (g : Game) (rnd : list nat) (player : Player) :
  players g !! currentPlayerIndex g = Some player ->
  (gameState g <> PLAYING \/ p_isHuman player = false ->
     handleTimeout g rnd g = Returned tt g) /\
  (gameState g = PLAYING -> p_isHuman player = true -> turnPhase g = DRAW ->
   isMultiplayer g && negb (isHost g) = false ->
   forall rest top, deck g = rest ++ [top] ->
     handleTimeout g rnd g =
     Returned tt
       (mkGame PLAYING (phases g) "Time's up! Auto-playing turn."
          (isMultiplayer g) (isHost g) (timeLeft g)
          (<[currentPlayerIndex g := withHand player (p_hand player ++ [top])]>
             (players g))
          rest (discardPile g) (currentPlayerIndex g) ACTION
          (selectedCardIds g) (roundWinnerId g) (sentActions g))) /\
  (gameState g = PLAYING -> p_isHuman player = true -> turnPhase g <> DRAW ->
   NoDup (map c_id (p_hand player)) -> (2 <= length (p_hand player))%nat ->
   exists card g',
     pickDiscard (p_hand player) = Some card /\
     handleTimeout g rnd g = Returned tt g' /\
     card ∈ p_hand player /\
     discardPile g' = discardPile g ++ [card] /\
     deck g' = deck g /\
     turnPhase g' = DRAW /\
     gameState g' = PLAYING /\
     allCards g' ≡ₚ allCards g).
Proof.
  intros Hcur.
  pose proof (lookup_lt_Some _ _ _ Hcur) as Hlt.
  unfold handleTimeout. split; [|split].
  - intros [Hstate|Hbot].
    + by rewrite decide_True.
    + destruct (decide (gameState g <> PLAYING)); [done|].
      erewrite bind_Returned by (by apply readIndex_Returned).
      by rewrite Hbot.
  - intros Hstate Hhuman Hphase Hhost rest top Hdeck.
    rewrite decide_False by (by intros ?).
    erewrite bind_Returned by (by apply readIndex_Returned).
    rewrite Hhuman. cbn [negb]. run_step.
    rewrite decide_True by done.
    unfold handleDraw. rewrite Hhost.
    erewrite bind_Returned by (by apply readIndex_Returned).
    rewrite Hhuman. cbn [negb andb].
    replace (last (deck g)) with (Some top) by (by rewrite Hdeck, last_snoc).
    replace (removelast (deck g)) with rest by (by rewrite Hdeck, removelast_last).
    unfold finishDraw. erewrite bind_Returned by (by apply arraySet_Returned).
    do 3 run_step. by rewrite Hstate.
  - intros Hstate Hhuman Hphase Hnd Hlen.
    rewrite decide_False by (by intros ?).
    erewrite bind_Returned by (by apply readIndex_Returned).
    rewrite Hhuman. cbn [negb]. run_step.
    rewrite decide_False by done.
    destruct (pickDiscard_elem (p_hand player)) as (card & Hpick & Hin).
    { intros Hnil. rewrite Hnil in Hlen. cbn in Hlen. lia. }
    rewrite Hpick.
    pose proof (filter_other_ids_nonempty _ _ Hnd Hin Hlen) as Hleft.
    set (s := mkGame _ _ _ _ _ _ _ _ _ _ _ _ _ _).
    destruct (performDiscard_cards g player card s Hlt Hnd Hin Hleft)
      as (g' & Hrun & Hstate' & Hdeck & Hpile & Hplayers).
    destruct (performDiscard_turn g player card s Hlt Hleft)
      as (g'' & Hrun' & Hturn & _).
    rewrite Hrun in Hrun'. injection Hrun' as <-.
    exists card, g'. split; [done|]. split; [done|]. split; [done|].
    split; [done|]. split; [done|]. split; [done|]. split; [by rewrite Hstate'|].
    rewrite list_insert_id in Hplayers by done.
    unfold allCards. rewrite Hdeck, Hpile, <- Hplayers. subst s. cbn [deck].
    solve_Permutation.
Qed.

Lemma handleTimeout_plays_witness :
  exists card g',
    pickDiscard (p_hand annWithSkip) = Some card /\
    handleTimeout skipRound [] skipRound = Returned tt g' /\
    discardPile g' = spentPile ++ [card] /\
    turnPhase g' = DRAW.
Proof.
  destruct (handleTimeout_plays skipRound [] annWithSkip) as (_ & _ & Hdiscard);
    [reflexivity|].
  destruct Hdiscard as (card & g' & Hpick & Hrun & _ & Hpile & _ & Hturn & _);
    [reflexivity|reflexivity|discriminate|compute_done|cbn; lia|].
  exists card, g'. split; [exact Hpick|]. split; [exact Hrun|].
  split; [exact Hpile|exact Hturn].
Defined.

(** ** The host carrying out the action of a client *)

(** X12. A message that does not carry the id of the player at turn changes
    nothing, whatever it asks for. *)
Theorem processHostAction_not_at_turn (g : Game) (rnd : list nat) (clock : nat -> Z)
    (action : ActionMessage) :
  (forall p, players g !! currentPlayerIndex g = Some p ->
             Some (p_id p) <> a_playerId action) ->
  processHostAction g rnd clock action g = Returned tt g.
Proof.
  intros Hturn. unfold processHostAction.
  destruct (list_find _ (players g)) as [[playerIndex player]|] eqn:Hfind; [|done].
  apply list_find_Some in Hfind as (Hat & Hid & _).
  destruct (decide (playerIndex <> currentPlayerIndex g)) as [|Heq]; [done|].
  apply dec_stable in Heq. subst playerIndex. by destruct (Hturn player Hat).
Qed.

Lemma processHostAction_not_at_turn_witness :
  processHostAction skipRound [] (fun _ => 0)
    (mkAction A_DRAW (Some "bot-0") None None None None None (Some false)) skipRound =
  Returned tt skipRound.
Proof.
  apply processHostAction_not_at_turn.
  intros p [= <-]. discriminate.
Defined.

(** X13. Whatever the player at turn asks of the host, the cards of the table
    are those of before: none is lost and none is doubled.  The request
    may not be the discard of a last card, nor the move of a card from
    beyond the hand. *)
Theorem processHostAction_conserves (g : Game) (rnd : list nat) (clock : nat -> Z)
    (action : ActionMessage) (player : Player) :
  players g !! currentPlayerIndex g = Some player ->
  NoDup (map p_id (players g)) ->
  NoDup (map m_id (flat_map p_melds (players g))) ->
  NoDup (map c_id (p_hand player)) ->
  (2 <= length (p_hand player))%nat ->
  (forall fromIndex, a_action action = A_REORDER ->
     a_fromIndex action = Some fromIndex -> fromIndex < len (p_hand player)) ->
  exists g',
    run g (processHostAction g rnd clock action) = Some g' /\
    allCards g' ≡ₚ allCards g.
Proof.
  intros Hcur Hids Hmelds Hnd Hlen Hfrom.
  pose proof (lookup_lt_Some _ _ _ Hcur) as Hlt.
  unfold run, processHostAction.
  destruct (list_find _ (players g)) as [[playerIndex found]|] eqn:Hfind; [|by eexists].
  destruct (decide (playerIndex <> currentPlayerIndex g)) as [|Heq]; [by eexists|].
  apply dec_stable in Heq. subst playerIndex.
  apply list_find_Some in Hfind as (Hat & Hid & _).
  assert (found = player) as -> by congruence.
  destruct (a_action action) eqn:Haction.
  - apply handleDraw_conserves.
  - destruct (truthy (a_cardId action)) as [cardId|]; [|by eexists].
    destruct (list_find _ (p_hand player)) as [[i card]|] eqn:Hcard; [|by eexists].
    apply list_find_Some in Hcard as (Hi & _ & _).
    assert (Hin : card ∈ p_hand player) by (apply list_elem_of_lookup; by eexists).
    destruct (performDiscard_conserves g player card Hcur Hnd Hin) as (g' & -> & _ & Hall).
    { by apply filter_other_ids_nonempty. }
    by exists g'.
  - destruct (a_cardIds action) as [cardIds|]; [|by eexists].
    destruct (lookupZ (phases g) (p_phaseIndex player)) as [currentPhase|]; [|by eexists].
    set (selected := filter (fun c => c_id c ∈ cardIds) (p_hand player)).
    pose proof (validatePhaseHand_groups selected (ph_requirements currentPhase)) as Hgroups.
    destruct (validatePhaseHand selected (ph_requirements currentPhase)) as [[|] [gs|]];
      cbn [valid groups] in *; try by eexists.
    specialize (Hgroups gs eq_refl).
    destruct (buildMelds clock (ph_requirements currentPhase) (p_id player) 0 gs)
      as [newMelds|] eqn:Hbuilt; [|by eexists].
    erewrite bind_Returned by (by apply arraySet_Returned).
    eexists. split; [reflexivity|]. unfold allCards. cbn.
    rewrite (playerCards_same _ _ player _ Hcur); [done|].
    unfold playerCards. cbn.
    rewrite flat_map_app, (buildMelds_cards _ _ _ _ _ _ Hbuilt), Hgroups.
    pose proof (filter_app_complement (fun c => c_id c ∈ cardIds) (p_hand player)) as Hhand.
    fold selected in Hhand. rewrite <- Hhand at 2. solve_Permutation.
  - destruct (truthy (a_cardId action)) as [cardId|]; [|by eexists].
    destruct (truthy (a_meldId action)) as [meldId|]; [|by eexists].
    destruct (list_find _ (p_hand player)) as [[i card]|] eqn:Hcard; [|by eexists].
    apply list_find_Some in Hcard as (Hi & _ & _).
    assert (Hin : card ∈ p_hand player) by (apply list_elem_of_lookup; by eexists).
    destruct (executeHit_conserves g player card meldId _ Hcur Hids Hmelds Hnd Hin)
      as (g' & -> & Hall).
    by exists g'.
  - destruct (a_fromIndex action) as [fromIndex|] eqn:Hfi; [|by eexists].
    destruct (a_toIndex action) as [toIndex|]; [|by eexists].
    specialize (Hfrom fromIndex eq_refl eq_refl).
    destruct (moveCard (p_hand player) fromIndex toIndex) as [newHand|] eqn:Hmove.
    2:{ exfalso. unfold moveCard in Hmove.
        destruct (p_hand player !! js_relative fromIndex (length (p_hand player)))
          eqn:Hlook; [done|].
        apply lookup_ge_None in Hlook. unfold js_relative, len in *.
        destruct (Z.ltb_spec fromIndex 0); lia. }
    erewrite bind_Returned by (by apply arraySet_Returned).
    eexists. split; [reflexivity|]. unfold allCards. cbn.
    rewrite (playerCards_same _ _ player _ Hcur); [done|].
    unfold playerCards. cbn. by rewrite (moveCard_cards _ _ _ _ Hmove).
  - by eexists.
Qed.

Lemma processHostAction_conserves_witness :
  exists g',
    run skipRound
      (processHostAction skipRound [] (fun _ => 0)
         (mkAction A_DISCARD (Some "p1") (Some "card-104") None None None None None))
    = Some g' /\
    allCards g' ≡ₚ allCards skipRound.
Proof.
  apply (processHostAction_conserves skipRound [] (fun _ => 0) _ annWithSkip);
    [reflexivity|compute_done|compute_done|compute_done|cbn; lia|discriminate].
Defined.

(** ** Selecting cards *)

(** X14. [handleCardClick] touches the selection only, and only on the turn of
    the local player outside the draw step.  While melding, a click adds
    the card and a second click takes it off again; while discarding, the
    card clicked replaces the selection. *)
Theorem handleCardClick_selects (g : Game) (myPlayerId : string) (card : Card)
    (p : Player) :
  players g !! currentPlayerIndex g = Some p ->
  let selecting ids :=
    mkGame (gameState g) (phases g) (notification g) (isMultiplayer g) (isHost g)
      (timeLeft g) (players g) (deck g) (discardPile g) (currentPlayerIndex g)
      (turnPhase g) ids (roundWinnerId g) (sentActions g) in
  (p_id p <> myPlayerId \/ turnPhase g = DRAW ->
     handleCardClick g myPlayerId card g = Returned tt g) /\
  (p_id p = myPlayerId -> turnPhase g = ACTION -> c_id card ∉ selectedCardIds g ->
     let g1 := selecting (selectedCardIds g ++ [c_id card]) in
     handleCardClick g myPlayerId card g = Returned tt g1 /\
     handleCardClick g1 myPlayerId card g1 = Returned tt (selecting (selectedCardIds g))) /\
  (p_id p = myPlayerId -> turnPhase g = DISCARD -> c_id card ∉ selectedCardIds g ->
     handleCardClick g myPlayerId card g = Returned tt (selecting [c_id card])).
Proof.
  intros Hcur selecting. unfold handleCardClick.
  erewrite bind_Returned by (by apply readIndex_Returned).
  split; [|split].
  - intros [Hother|Hdraw].
    + by rewrite decide_True.
    + destruct (decide (p_id p <> myPlayerId)); [done|].
      rewrite decide_False; [done|]. rewrite Hdraw. by intros [|].
  - intros Hme Hphase Hnew. cbv zeta. split.
    + rewrite decide_False by (by intros ?).
      rewrite decide_True by (by left).
      rewrite decide_False by done.
      rewrite decide_False by (by rewrite Hphase).
      reflexivity.
    + unfold selecting. cbn [players currentPlayerIndex turnPhase selectedCardIds].
      erewrite bind_Returned by (by apply readIndex_Returned).
      rewrite decide_False by (by intros ?).
      rewrite decide_True by (by left).
      rewrite decide_True by (apply elem_of_app; right; left).
      unfold setSelectedCardIds. cbn. do 2 f_equal.
      rewrite filter_app. cbn. rewrite decide_False by (by intros ?).
      rewrite app_nil_r. apply filter_all. intros id Hid ->. done.
  - intros Hme Hphase Hnew.
    rewrite decide_False by (by intros ?).
    rewrite decide_True by (by right).
    rewrite decide_False by done.
    by rewrite decide_True.
Qed.

Lemma handleCardClick_selects_witness :
  handleCardClick skipRound "p1" skipCard skipRound =
  Returned tt
    (mkGame PLAYING STANDARD_PHASES "" false false 30 [annWithSkip; alpha; cara]
       [mkCard "card-101" WILD WILD_COLOR 25 "W"] spentPile 0%nat ACTION ["card-104"]
       None []).
Proof.
  destruct (handleCardClick_selects skipRound "p1" skipCard annWithSkip) as (_ & Hadd & _);
    [reflexivity|].
  apply Hadd; [reflexivity|reflexivity|]. cbn. apply not_elem_of_nil.
Defined.

(** ** Discarding from the board *)

Lemma local_Returned (h : Handler unit) s s' :
  h s = Returned tt s' -> local h s = Returned None s'.
Proof. intros H. unfold local. by erewrite bind_Returned by exact H. Qed.

Lemma list_find_card (hand : list Card) (card : Card) :
  NoDup (map c_id hand) -> card ∈ hand ->
  exists i, list_find (fun c => c_id c = c_id card) hand = Some (i, card).
Proof.
  intros Hnd Hin. apply list_elem_of_lookup in Hin as [i Hi].
  exists i. apply list_find_Some. split; [done|]. split; [done|].
  intros j c Hj Hlt Heq.
  assert (j = i); [|lia].
  apply (NoDup_lookup (map c_id hand) j i (c_id card) Hnd).
  - by rewrite list_lookup_fmap, Hj, <- Heq.
  - by rewrite list_lookup_fmap, Hi.
Qed.

(** X15. [handleDiscard] on the host or in a local game.  Without exactly one
    card selected it only gives notice; one selected card that is not in
    the hand of the player at turn changes nothing; one that is goes to the
    top of the discard pile and the turn moves on to a draw, with the
    cards of the table conserved.  Neither the id of the local player nor
    the sub-phase is asked for. *)
Theorem handleDiscard_discards (g : Game) (myPlayerId : string) (player : Player) :
  isMultiplayer g && negb (isHost g) = false ->
  players g !! currentPlayerIndex g = Some player ->
  NoDup (map c_id (p_hand player)) ->
  (length (selectedCardIds g) <> 1%nat ->
     handleDiscard g myPlayerId g =
     Returned None
       (mkGame (gameState g) (phases g) "Select exactly one card to discard."
          (isMultiplayer g) (isHost g) (timeLeft g) (players g) (deck g)
          (discardPile g) (currentPlayerIndex g) (turnPhase g) (selectedCardIds g)
          (roundWinnerId g) (sentActions g))) /\
  (forall cardId, selectedCardIds g = [cardId] -> cardId ∉ map c_id (p_hand player) ->
     handleDiscard g myPlayerId g = Returned None g) /\
  (forall card, selectedCardIds g = [c_id card] -> card ∈ p_hand player ->
     (2 <= length (p_hand player))%nat ->
     exists g',
       handleDiscard g myPlayerId g = Returned None g' /\
       discardPile g' = discardPile g ++ [card] /\
       deck g' = deck g /\
       turnPhase g' = DRAW /\
       selectedCardIds g' = [] /\
       gameState g' = gameState g /\
       allCards g' ≡ₚ allCards g).
Proof.
  intros Hhost Hcur Hnd.
  pose proof (lookup_lt_Some _ _ _ Hcur) as Hlt.
  unfold handleDiscard. rewrite Hhost. split; [|split].
  - intros Hsel.
    destruct (selectedCardIds g) as [|a [|b l]] eqn:Hs; try done;
      apply local_Returned; unfold setNotification; by rewrite Hs.
  - intros cardId -> Hnot.
    erewrite bind_Returned by (by apply readIndex_Returned).
    destruct (list_find _ (p_hand player)) as [[i card]|] eqn:Hfind; [|done].
    apply list_find_Some in Hfind as (Hi & Hid & _).
    exfalso. apply Hnot. apply list_elem_of_fmap. exists card. split; [done|].
    by eapply list_elem_of_lookup_2.
  - intros card -> Hin Hlen.
    erewrite bind_Returned by (by apply readIndex_Returned).
    destruct (list_find_card _ _ Hnd Hin) as [i ->].
    pose proof (filter_other_ids_nonempty _ _ Hnd Hin Hlen) as Hleft.
    destruct (performDiscard_cards g player card g Hlt Hnd Hin Hleft)
      as (g' & Hrun & Hstate & Hdeck & Hpile & Hplayers).
    destruct (performDiscard_turn g player card g Hlt Hleft)
      as (g'' & Hrun' & Hturn & Hsel).
    rewrite Hrun in Hrun'. injection Hrun' as <-.
    exists g'. split; [by apply local_Returned|].
    do 5 (split; [done|]).
    rewrite list_insert_id in Hplayers by done.
    unfold allCards. rewrite Hdeck, Hpile, <- Hplayers. solve_Permutation.
Qed.

Lemma handleDiscard_discards_witness :
  handleDiscard skipRound "p1" skipRound =
  Returned None
    (mkGame PLAYING STANDARD_PHASES "Select exactly one card to discard." false false 30
       [annWithSkip; alpha; cara] [mkCard "card-101" WILD WILD_COLOR 25 "W"] spentPile
       0%nat ACTION [] None []).
Proof.
  destruct (handleDiscard_discards skipRound "p1" annWithSkip) as (Hnone & _);
    [reflexivity|reflexivity|compute_done|].
  apply Hnone. discriminate.
Defined.

(** On a client, [handleDiscard] and [handleHitMeld] leave the table alone:
    with one card selected they clear the selection and hand the host a
    message that names the local player and the card; otherwise they give
    notice. *)
Theorem client_handlers_forward (g : Game) (myPlayerId : string) (targetMeld : Meld) :
  isMultiplayer g && negb (isHost g) = true ->
  let cleared :=
    mkGame (gameState g) (phases g) (notification g) (isMultiplayer g) (isHost g)
      (timeLeft g) (players g) (deck g) (discardPile g) (currentPlayerIndex g)
      (turnPhase g) [] (roundWinnerId g) (sentActions g) in
  let noticed :=
    mkGame (gameState g) (phases g) "Select one card." (isMultiplayer g) (isHost g)
      (timeLeft g) (players g) (deck g) (discardPile g) (currentPlayerIndex g)
      (turnPhase g) (selectedCardIds g) (roundWinnerId g) (sentActions g) in
  (forall cardId, selectedCardIds g = [cardId] ->
     handleDiscard g myPlayerId g =
     Returned
       (Some (mkAction A_DISCARD (Some myPlayerId) (Some cardId) None None None None None))
       cleared /\
     handleHitMeld g myPlayerId targetMeld g =
     Returned
       (Some (mkAction A_HIT (Some myPlayerId) (Some cardId) None
                (Some (m_id targetMeld)) None None None))
       cleared) /\
  (length (selectedCardIds g) <> 1%nat ->
     handleDiscard g myPlayerId g = Returned None noticed /\
     handleHitMeld g myPlayerId targetMeld g = Returned None noticed).
Proof.
  intros Hclient cleared noticed. unfold handleDiscard, handleHitMeld. rewrite Hclient.
  split.
  - intros cardId Hs. by rewrite Hs.
  - intros Hsel. subst noticed.
    destruct (selectedCardIds g) as [|a [|b l]] eqn:Hs; try done;
      (split; apply local_Returned; unfold setNotification; by rewrite Hs).
Qed.

Lemma client_handlers_forward_witness :
  let g := mkGame PLAYING STANDARD_PHASES "" true false 30 [annWithSkip; alpha; cara]
             [] spentPile 0%nat DISCARD ["card-104"] None [] in
  handleDiscard g "p1" g =
  Returned
    (Some (mkAction A_DISCARD (Some "p1") (Some "card-104") None None None None None))
    (mkGame PLAYING STANDARD_PHASES "" true false 30 [annWithSkip; alpha; cara]
       [] spentPile 0%nat DISCARD [] None []).
Proof.
  intros g.
  destruct (client_handlers_forward g "p1" (mkMeld "m" [] SET "p1")) as (Hone & _);
    [reflexivity|].
  destruct (Hone "card-104") as (Hdiscard & _); [reflexivity|exact Hdiscard].
Defined.

(** ** Hitting a meld *)

(** The state a hit leaves when the card fits and is not the last of the
    hand; [s] is what the caller had queued before. *)
Lemma executeHit_fits (g : Game) (player : Player) (card : Card)
    (targetMeldId : string) (targetMeld : Meld) (s : Game) :
  findTargetMeld targetMeldId (players g) = Some targetMeld ->
  canAddToMeld card targetMeld = true ->
  filter (fun c => c_id c <> c_id card) (p_hand player) <> [] ->
  executeHit g player card targetMeldId s =
  Returned tt
    (mkGame (gameState s) (phases s) "Card added to phase!" (isMultiplayer s) (isHost s)
       (timeLeft s)
       (map (hitPlayer player card targetMeldId
               (filter (fun c => c_id c <> c_id card) (p_hand player)))
          (players g))
       (deck s) (discardPile s) (currentPlayerIndex s) (turnPhase s) []
       (roundWinnerId s) (sentActions s)).
Proof.
  intros Htarget Hfits Hleft. unfold executeHit. rewrite Htarget, Hfits.
  do 3 run_step.
  rewrite decide_False; [done|].
  by destruct (filter _ (p_hand player)).
Qed.

(** X16. [handleHitMeld] on the host or in a local game, with one card of the
    hand selected that fits the meld: the card leaves the hand for the
    meld and the cards of the table are conserved.  The handler asks
    neither for the sub-phase nor whether the player has laid down a
    phase; that guard is the board's alone. *)
Theorem handleHitMeld_hits (g : Game) (myPlayerId : string) (player : Player)
    (card : Card) (meld targetMeld : Meld) :
  isMultiplayer g && negb (isHost g) = false ->
  players g !! currentPlayerIndex g = Some player ->
  NoDup (map p_id (players g)) ->
  NoDup (map m_id (flat_map p_melds (players g))) ->
  NoDup (map c_id (p_hand player)) ->
  selectedCardIds g = [c_id card] ->
  card ∈ p_hand player ->
  (2 <= length (p_hand player))%nat ->
  findTargetMeld (m_id meld) (players g) = Some targetMeld ->
  canAddToMeld card targetMeld = true ->
  exists g' player',
    handleHitMeld g myPlayerId meld g = Returned None g' /\
    notification g' = "Card added to phase!" /\
    selectedCardIds g' = [] /\
    turnPhase g' = turnPhase g /\
    currentPlayerIndex g' = currentPlayerIndex g /\
    players g' !! currentPlayerIndex g = Some player' /\
    card :: p_hand player' ≡ₚ p_hand player /\
    p_hasLaidDownPhase player' = p_hasLaidDownPhase player /\
    allCards g' ≡ₚ allCards g.
Proof.
  intros Hhost Hcur Hids Hmelds Hnd Hsel Hin Hlen Htarget Hfits.
  pose proof (filter_other_ids_nonempty _ _ Hnd Hin Hlen) as Hleft.
  unfold handleHitMeld. rewrite Hhost, Hsel.
  erewrite bind_Returned by (by apply readIndex_Returned).
  destruct (list_find_card _ _ Hnd Hin) as [i ->].
  destruct (executeHit_conserves g player card (m_id meld) _ Hcur Hids Hmelds Hnd Hin)
    as (g' & Hrun & Hall).
  pose proof (executeHit_fits g player card (m_id meld) targetMeld g Htarget Hfits Hleft)
    as Hstate.
  rewrite Hrun in Hstate. injection Hstate as ->.
  eexists _, _. split; [by apply local_Returned|].
  cbn [notification selectedCardIds turnPhase currentPlayerIndex players].
  do 4 (split; [done|]).
  split. { by rewrite list_lookup_fmap, Hcur. }
  split.
  { unfold hitPlayer. rewrite decide_True by done.
    destruct (findMeld (m_id meld) (p_melds player)) as [[meldIndex m]|]; cbn;
      symmetry; by apply filter_other_ids. }
  split; [|done].
  unfold hitPlayer. rewrite decide_True by done.
  by destruct (findMeld (m_id meld) (p_melds player)) as [[meldIndex m]|].
Qed.

Lemma handleHitMeld_hits_witness :
  exists g' player',
    handleHitMeld hitRound "p1" fives hitRound = Returned None g' /\
    notification g' = "Card added to phase!" /\
    turnPhase g' = DRAW /\
    players g' !! 0%nat = Some player' /\
    p_hasLaidDownPhase player' = false.
Proof.
  destruct (handleHitMeld_hits hitRound "p1" ann (mkCard "card-40" NUMBER BLUE 5 "5")
              fives fives)
    as (g' & player' & Hrun & Hnote & _ & Hphase & _ & Hat & _ & Hlaid & _);
    [reflexivity|reflexivity|compute_done|compute_done|compute_done|reflexivity
    |compute_done|cbn; lia|reflexivity|reflexivity|].
  exists g', player'. split; [exact Hrun|]. split; [exact Hnote|].
  split; [exact Hphase|]. split; [exact Hat|exact Hlaid].
Defined.

(** X17. [handleMeldDrop] on the host or in a local game: a card index outside
    the hand changes nothing; outside the action step, or before the player
    has laid down, the drop is refused with a notice; otherwise the card
    dropped is hit on the meld as [executeHit] does it, the cards of the
    table conserved. *)
Theorem handleMeldDrop_guarded (g : Game) (myPlayerId : string) (player : Player)
    (cardIndex : Z) (meldId : string) :
  isMultiplayer g && negb (isHost g) = false ->
  players g !! currentPlayerIndex g = Some player ->
  (cardIndex < 0 \/ len (p_hand player) <= cardIndex ->
     handleMeldDrop g myPlayerId cardIndex meldId g = Returned None g) /\
  (0 <= cardIndex < len (p_hand player) ->
   turnPhase g <> ACTION \/ p_hasLaidDownPhase player = false ->
     handleMeldDrop g myPlayerId cardIndex meldId g =
     Returned None
       (mkGame (gameState g) (phases g)
          "You must lay down your phase first before hitting."
          (isMultiplayer g) (isHost g) (timeLeft g) (players g) (deck g)
          (discardPile g) (currentPlayerIndex g) (turnPhase g) (selectedCardIds g)
          (roundWinnerId g) (sentActions g))) /\
  (0 <= cardIndex < len (p_hand player) ->
   turnPhase g = ACTION -> p_hasLaidDownPhase player = true ->
   NoDup (map p_id (players g)) ->
   NoDup (map m_id (flat_map p_melds (players g))) ->
   NoDup (map c_id (p_hand player)) ->
     exists card g',
       p_hand player !! Z.to_nat cardIndex = Some card /\
       executeHit g player card meldId g = Returned tt g' /\
       handleMeldDrop g myPlayerId cardIndex meldId g = Returned None g' /\
       allCards g' ≡ₚ allCards g).
Proof.
  intros Hhost Hcur. unfold handleMeldDrop, len.
  erewrite bind_Returned by (by apply readIndex_Returned).
  unfold lookupZ. split; [|split].
  - intros Hout. destruct (Z.ltb_spec cardIndex 0); [done|].
    rewrite (proj2 (lookup_ge_None _ _)) by lia. done.
  - intros Hin Hguard. destruct (Z.ltb_spec cardIndex 0); [lia|].
    destruct (lookup_lt_is_Some_2 (p_hand player) (Z.to_nat cardIndex)) as [card ->]; [lia|].
    rewrite Hhost. rewrite decide_True by done. by apply local_Returned.
  - intros Hin Hphase Hlaid Hids Hmelds Hnd.
    destruct (Z.ltb_spec cardIndex 0); [lia|].
    destruct (lookup_lt_is_Some_2 (p_hand player) (Z.to_nat cardIndex)) as [card Hcard];
      [lia|].
    rewrite Hcard, Hhost.
    rewrite decide_False by (rewrite Hphase, Hlaid; by intros [|]).
    destruct (executeHit_conserves g player card meldId _ Hcur Hids Hmelds Hnd)
      as (g' & Hrun & Hall).
    { by eapply list_elem_of_lookup_2. }
    exists card, g'. split; [done|]. split; [done|].
    split; [by apply local_Returned|done].
Qed.

Lemma handleMeldDrop_guarded_witness :
  handleMeldDrop hitRound "p1" 1 "meld-1700000000000-0" hitRound =
  Returned None
    (mkGame PLAYING STANDARD_PHASES "You must lay down your phase first before hitting."
       false false 30 [ann; alphaLaid] [mkCard "card-101" WILD WILD_COLOR 25 "W"]
       spentPile 0%nat DRAW ["card-40"] None []).
Proof.
  destruct (handleMeldDrop_guarded hitRound "p1" ann 1 "meld-1700000000000-0")
    as (_ & Hrefused & _); [reflexivity|reflexivity|].
  apply Hrefused; [vm_compute; split; congruence|by left].
Defined.

(** ** Laying down through the host *)

Lemma buildMelds_Some clock requirements ownerId idx gs :
  (idx + length gs <= length requirements)%nat ->
  exists melds,
    buildMelds clock requirements ownerId idx gs = Some melds /\
    map m_cards melds = gs.
Proof.
  revert idx. induction gs as [|group gs IH]; intros idx Hlen; cbn in *.
  - by exists [].
  - destruct (lookup_lt_is_Some_2 requirements idx) as [req ->]; [lia|].
    destruct (IH (S idx)) as (rest & -> & Hrest); [lia|].
    eexists. split; [done|]. cbn. by rewrite Hrest.
Qed.

Lemma searchSplit_two trips i cards req0 req1 gs :
  groups (searchSplit trips i cards req0 req1) = Some gs -> length gs = 2%nat.
Proof.
  revert i. induction trips as [|trips IH]; intros i; cbn [searchSplit]; [done|].
  destruct (splitByMask i 0 cards [] []) as [group1 group2].
  destruct (checkSingleReq group1 req0 && checkSingleReq group2 req1).
  { by intros [= <-]. }
  destruct (checkSingleReq group2 req0 && checkSingleReq group1 req1).
  { by intros [= <-]. }
  apply IH.
Qed.

Lemma validatePhaseHand_one_group_each cards requirements gs :
  groups (validatePhaseHand cards requirements) = Some gs ->
  length gs = length requirements.
Proof.
  unfold validatePhaseHand.
  destruct requirements as [|req0 [|req1 [|req2 reqs]]]; cbn [groups]; try done.
  - destruct (match r_type req0 with
              | SET => isValidSet cards (r_count req0)
              | COLOR => isValidColor cards (r_count req0)
              | RUN => isValidRun cards (r_count req0)
              end); [|done].
    by intros [= <-].
  - apply searchSplit_two.
Qed.

(** X18. What the host does with the meld message of the client at turn, when
    the cards named in it make up the phase: the cards leave the hand for
    new melds, one per requirement.  The host asks neither for the
    sub-phase nor whether the player has laid down already, so that a
    player who has, and whom [handleMeld] turns away, lays down again. *)
Theorem processHostAction_meld_unchecked (g : Game) (rnd : list nat) (clock : nat -> Z)
    (player : Player) (cardIds : list string) (phase : Phase) (gs : list (list Card)) :
  players g !! currentPlayerIndex g = Some player ->
  NoDup (map p_id (players g)) ->
  isMultiplayer g && negb (isHost g) = false ->
  p_hasLaidDownPhase player = true ->
  lookupZ (phases g) (p_phaseIndex player) = Some phase ->
  validatePhaseHand (filter (fun c => c_id c ∈ cardIds) (p_hand player))
    (ph_requirements phase) = mkValidation true (Some gs) ->
  handleMeld g clock g =
  Returned tt
    (mkGame (gameState g) (phases g) "You have already completed your phase this round."
       (isMultiplayer g) (isHost g) (timeLeft g) (players g) (deck g) (discardPile g)
       (currentPlayerIndex g) (turnPhase g) (selectedCardIds g) (roundWinnerId g)
       (sentActions g)) /\
  exists newMelds,
    map m_cards newMelds = gs /\
    length newMelds = length (ph_requirements phase) /\
    processHostAction g rnd clock
      (mkAction A_MELD (Some (p_id player)) None (Some cardIds) None None None None) g =
    Returned tt
      (mkGame (gameState g) (phases g) (notification g) (isMultiplayer g) (isHost g)
         (timeLeft g)
         (<[currentPlayerIndex g :=
              mkPlayer (p_id player) (p_name player) (p_isHuman player)
                (filter (fun c => c_id c ∉ cardIds) (p_hand player))
                (p_melds player ++ newMelds) (p_phaseIndex player) true
                (p_score player) (p_isSkipped player)]> (players g))
         (deck g) (discardPile g) (currentPlayerIndex g) (turnPhase g)
         (selectedCardIds g) (roundWinnerId g) (sentActions g)).
Proof.
  intros Hcur Hids Hhost Hlaid Hphase Hvalid.
  pose proof (lookup_lt_Some _ _ _ Hcur) as Hlt.
  split.
  { unfold handleMeld. rewrite Hhost.
    erewrite bind_Returned by (by apply readIndex_Returned).
    by rewrite Hlaid. }
  pose proof (validatePhaseHand_one_group_each
                (filter (fun c => c_id c ∈ cardIds) (p_hand player))
                (ph_requirements phase) gs) as Hcount.
  rewrite Hvalid in Hcount. specialize (Hcount eq_refl).
  destruct (buildMelds_Some clock (ph_requirements phase) (p_id player) 0 gs)
    as (newMelds & Hbuilt & Hcards); [lia|].
  exists newMelds. split; [done|].
  split. { by rewrite <- Hcount, <- Hcards, length_map. }
  unfold processHostAction. cbn [a_playerId a_action a_cardIds].
  assert (Hfind : list_find (fun p => Some (p_id p) = Some (p_id player)) (players g)
                  = Some (currentPlayerIndex g, player)).
  { pose proof (list_find_by_id _ _ _ Hids Hcur) as Hf.
    apply list_find_Some in Hf as (H1 & H2 & H3).
    apply list_find_Some. split; [done|]. split; [done|].
    intros j q Hj Hjlt [= Heq]. by apply (H3 j q). }
  rewrite Hfind. rewrite decide_False by (by intros ?).
  rewrite Hphase, Hvalid. cbn [valid groups]. rewrite Hbuilt.
  erewrite bind_Returned by (by apply arraySet_Returned).
  reflexivity.
Qed.

Lemma processHostAction_meld_unchecked_witness :
  exists newMelds,
    length newMelds = 2%nat /\
    processHostAction laidDownRound [] (fun _ => 1700000000001)
      (mkAction A_MELD (Some "p2") None (Some (map c_id benSets)) None None None None)
      laidDownRound =
    Returned tt
      (mkGame PLAYING STANDARD_PHASES "" true true 30
         [ mkPlayer "p2" "Ben" true [mkCard "card-0" NUMBER RED 1 "1"]
             (p_melds ben ++ newMelds) 0 true 0 (Some false); alpha ]
         [mkCard "card-101" WILD WILD_COLOR 25 "W"] spentPile 0%nat DRAW (map c_id benSets)
         None []).
Proof.
  destruct (processHostAction_meld_unchecked laidDownRound [] (fun _ => 1700000000001)
              ben (map c_id benSets)
              (mkPhase 1 "Phase 1" "2 Sets of 3" [mkReq SET 3; mkReq SET 3])
              [ [ mkCard "card-1" NUMBER RED 2 "2"; mkCard "card-13" NUMBER RED 2 "2";
                  mkCard "card-25" NUMBER BLUE 2 "2" ];
                [ mkCard "card-7" NUMBER RED 8 "8"; mkCard "card-19" NUMBER RED 8 "8";
                  mkCard "card-31" NUMBER BLUE 8 "8" ] ])
    as (_ & newMelds & _ & Hcount & Hrun);
    [reflexivity|compute_done|reflexivity|reflexivity|reflexivity|vm_compute; reflexivity|].
  exists newMelds. split; [exact Hcount|exact Hrun].
Defined.

(** ** What the validators accept *)

Lemma allSame_spec {K : Type} (key : Card -> K) (eqb : K -> K -> bool)
    (first : Card) (rest : list Card) :
  (forall x y, eqb x y = true <-> x = y) ->
  forallb (fun c => eqb (key c) (key first)) (first :: rest) = true <->
  forall a b, a ∈ first :: rest -> b ∈ first :: rest -> key a = key b.
Proof.
  intros Heqb. rewrite forallb_forall. split.
  - intros Hall a b Ha Hb. transitivity (key first).
    + apply Heqb, Hall. by apply list_elem_of_In.
    + symmetry. apply Heqb, Hall. by apply list_elem_of_In.
  - intros Hall c Hc. apply Heqb, Hall; [by apply list_elem_of_In|left].
Qed.

(** X19. [isValidSet] accepts a selection exactly when it has the cards asked
    for, its number cards agree in value, and, if there is a number card,
    number cards and wilds together reach the count.  Skip cards are
    counted in the first number and in nothing else. *)
Theorem isValidSet_spec (cards : list Card) (requiredCount : Z) :
  isValidSet cards requiredCount = true <->
  requiredCount <= len cards /\
  (forall a b, a ∈ filter isNumber cards -> b ∈ filter isNumber cards ->
     c_value a = c_value b) /\
  (filter isNumber cards = [] \/
   requiredCount <= len (filter isNumber cards) + len (filter isWild cards)).
Proof.
  unfold isValidSet.
  destruct (Z.ltb_spec (len cards) requiredCount) as [Hshort|Hlong].
  { split; [done|]. intros [? _]. lia. }
  destruct (filter isNumber cards) as [|first rest] eqn:Hnat.
  { split; [|done]. intros _. split; [done|]. split; [|by left].
    intros a b Ha. by apply elem_of_nil in Ha. }
  rewrite andb_true_iff, (allSame_spec c_value Z.eqb) by apply Z.eqb_eq.
  rewrite Z.geb_le. split.
  - intros [Hsame Hcount]. split; [done|]. split; [done|by right].
  - intros (_ & Hsame & [Hnil|Hcount]); [done|]. by split.
Qed.

Lemma len_natural_wild (cards : list Card) :
  len (filter isNumberOrSkip cards) + len (filter isWild cards) = len cards.
Proof.
  unfold len. induction cards as [|c cards IH]; [done|].
  rewrite !filter_cons.
  destruct (decide (isNumberOrSkip c)) as [Hn|Hn], (decide (isWild c)) as [Hw|Hw];
    cbn [length]; try lia.
  - exfalso. unfold isNumberOrSkip, isWild in *. destruct Hn; congruence.
  - exfalso. unfold isNumberOrSkip, isWild in *. destruct (c_type c); tauto.
Qed.

(** X20. [isValidColor] accepts a selection exactly when it has the cards asked
    for and its cards other than wilds, skip cards among them, agree in
    colour. *)
Theorem isValidColor_spec (cards : list Card) (requiredCount : Z) :
  isValidColor cards requiredCount = true <->
  requiredCount <= len cards /\
  (forall a b, a ∈ cards -> b ∈ cards -> c_type a <> WILD -> c_type b <> WILD ->
     c_color a = c_color b).
Proof.
  assert (Hnat : forall c, c ∈ filter isNumberOrSkip cards <-> c ∈ cards /\ c_type c <> WILD).
  { intros c. rewrite list_elem_of_filter. unfold isNumberOrSkip. split.
    - intros [[Ht|Ht] Hc]; split; try done; by rewrite Ht.
    - intros [Hc Ht]. split; [|done]. destruct (c_type c); [by left|done|by right]. }
  unfold isValidColor.
  destruct (Z.ltb_spec (len cards) requiredCount) as [Hshort|Hlong].
  { split; [done|]. intros [? _]. lia. }
  pose proof (len_natural_wild cards) as Hlen.
  destruct (filter isNumberOrSkip cards) as [|first rest] eqn:Hfilter.
  { split; [|done]. intros _. split; [done|]. intros a b Ha _ Hna _.
    assert (Hin : a ∈ @nil Card) by (by apply Hnat). by apply elem_of_nil in Hin. }
  pose (sameColor := fun a b : CardColor => bool_decide (a = b)).
  assert (Hsame : forall x y, sameColor x y = true <-> x = y)
    by (intros x y; apply bool_decide_eq_true).
  apply (allSame_spec c_color sameColor first rest) in Hsame.
  unfold sameColor in Hsame.
  rewrite andb_true_iff, Hsame, Z.geb_le. clear Hsame. split.
  - intros [Hsame _]. split; [done|]. intros a b Ha Hb Hna Hnb.
    apply Hsame; by apply Hnat.
  - intros [_ Hsame]. split; [|lia]. intros a b Ha Hb.
    apply Hnat in Ha as [? ?], Hb as [? ?]. by apply Hsame.
Qed.

(** The gap loop over cards sorted by value: it stops on a repeated value,
    and otherwise asks for as many wilds as there are values missing
    between the lowest and the highest. *)
Lemma runGaps_sorted (l : list Card) (k : Z) :
  Sorted Z.le (map c_value l) ->
  match runGaps l k with
  | None => ~ NoDup (map c_value l)
  | Some neededWilds =>
      NoDup (map c_value l) /\
      forall a b, head l = Some a -> last l = Some b ->
        neededWilds = k + (c_value b - c_value a) - (len l - 1)
  end.
Proof.
  revert k. induction l as [|a l IH]; intros k Hs.
  { cbn. split; [constructor|done]. }
  destruct l as [|b l].
  { cbn. split; [apply NoDup_singleton|]. intros ? ? [= <-] [= <-]. unfold len. cbn. lia. }
  rewrite runGaps_cons2.
  cbn [map] in Hs. apply Sorted_StronglySorted in Hs; [|intros ? ? ?; lia].
  apply StronglySorted_inv in Hs as [Hs Hall].
  pose proof Hall as Hab. apply Forall_cons in Hab as [Hab _].
  destruct (Z.eqb_spec (c_value b - c_value a) 0) as [Heq|Hne].
  { intros Hnd. cbn in Hnd. apply NoDup_cons in Hnd as [Hnot _].
    apply Hnot. replace (c_value a) with (c_value b) by lia. left. }
  specialize (IH (if c_value b - c_value a >? 1 then k + (c_value b - c_value a - 1) else k)
                (StronglySorted_Sorted Hs)).
  destruct (runGaps (b :: l) _) as [neededWilds|].
  - destruct IH as [Hnd Hneeded]. split.
    + cbn [map]. apply NoDup_cons. split; [|done].
      intros Hin. apply StronglySorted_inv in Hs as [_ Hb].
      cbn [map] in Hin. apply elem_of_cons in Hin as [Hin|Hin]; [lia|].
      rewrite Forall_forall in Hb. specialize (Hb _ Hin). lia.
    + intros a' z [= <-] Hlast.
      rewrite (Hneeded b z eq_refl Hlast). unfold len. cbn [length].
      destruct (Z.gtb_spec (c_value b - c_value a) 1); lia.
  - intros Hnd. cbn [map] in Hnd. apply NoDup_cons in Hnd as [_ Hnd]. by apply IH.
Qed.

Lemma StronglySorted_snoc_le (vs : list Z) (v x : Z) :
  StronglySorted Z.le (vs ++ [v]) -> x ∈ vs -> x <= v.
Proof.
  induction vs as [|y vs IH]; intros Hs Hin; [by apply elem_of_nil in Hin|].
  cbn in Hs. apply StronglySorted_inv in Hs as [Hs Hall].
  apply elem_of_cons in Hin as [->|Hin]; [|by apply IH].
  rewrite Forall_forall in Hall. apply Hall. apply elem_of_app. right. left.
Qed.

(** X21. [isValidRun] accepts a selection exactly when it has the cards asked
    for, its number cards are of distinct values, and these span fewer
    values than there are number cards and wilds.  Skip cards count
    towards the length and are otherwise passed over. *)
Theorem isValidRun_spec (cards : list Card) (requiredCount : Z) :
  isValidRun cards requiredCount = true <->
  requiredCount <= len cards /\
  NoDup (map c_value (filter isNumber cards)) /\
  (forall a b, a ∈ filter isNumber cards -> b ∈ filter isNumber cards ->
     c_value b - c_value a < len (filter isNumber cards) + len (filter isWild cards)).
Proof.
  unfold isValidRun.
  destruct (Z.ltb_spec (len cards) requiredCount) as [Hshort|Hlong].
  { split; [done|]. intros [? _]. lia. }
  pose proof (js_sort_Permutation byValueAsc (filter isNumber cards)) as Hperm.
  pose proof (js_sort_values_sorted (filter isNumber cards)) as Hsorted.
  pose proof (runGaps_sorted (js_sort byValueAsc (filter isNumber cards)) 0 Hsorted) as Hgaps.
  set (numbers := filter isNumber cards) in *.
  set (naturalCards := js_sort byValueAsc numbers) in *.
  assert (Hdistinct : NoDup (map c_value numbers) <-> NoDup (map c_value naturalCards))
    by (by rewrite Hperm).
  assert (Hsame : forall c, c ∈ numbers <-> c ∈ naturalCards)
    by (intros c; by rewrite Hperm).
  assert (Hcount : len numbers = len naturalCards) by (unfold len; by rewrite Hperm).
  rewrite Hdistinct, Hcount. setoid_rewrite Hsame.
  clear Hdistinct Hsame Hcount Hperm.
  destruct naturalCards as [|lo rest] eqn:Hnat.
  { split; [|done]. intros _. split; [done|]. split; [constructor|].
    intros a b Ha. by apply elem_of_nil in Ha. }
  rewrite <- Hnat in *.
  destruct (runGaps naturalCards 0) as [neededWilds|].
  2:{ split; [done|]. intros (_ & Hnd & _). done. }
  destruct Hgaps as [Hnd Hneeded].
  destruct (last naturalCards) as [hi|] eqn:Hlast.
  2:{ apply last_None in Hlast. by rewrite Hnat in Hlast. }
  specialize (Hneeded lo hi). rewrite Hnat in Hneeded at 1.
  specialize (Hneeded eq_refl eq_refl).
  rewrite Z.geb_le, Hneeded. split.
  - intros Hw. split; [done|]. split; [done|].
    intros a b Ha Hb.
    apply Sorted_StronglySorted in Hsorted; [|intros ? ? ?; lia].
    assert (Hlo : c_value lo <= c_value a).
    { rewrite Hnat in Hsorted, Ha. cbn [map] in Hsorted.
      apply StronglySorted_inv in Hsorted as [_ Hall].
      apply elem_of_cons in Ha as [->|Ha]; [lia|].
      rewrite Forall_forall in Hall. apply Hall. by apply list_elem_of_fmap_2. }
    assert (Hhi : c_value b <= c_value hi).
    { apply last_Some in Hlast as [front Hfront].
      rewrite Hfront in Hsorted, Hb. rewrite map_app in Hsorted.
      apply elem_of_app in Hb as [Hb|Hb].
      - apply (StronglySorted_snoc_le (map c_value front)); [done|].
        by apply list_elem_of_fmap_2.
      - apply list_elem_of_singleton in Hb as ->. lia. }
    lia.
  - intros (_ & _ & Hspan).
    assert (Hlo : lo ∈ naturalCards) by (rewrite Hnat; left).
    assert (Hhi : hi ∈ naturalCards).
    { apply last_Some in Hlast as [front ->]. apply elem_of_app. right. left. }
    specialize (Hspan lo hi Hlo Hhi). lia.
Qed.

(** X22. A selection without a number card passes [isValidSet] and
    [isValidRun] for every count it reaches, and [isValidColor] too when
    its skip cards are of one colour: wilds and skip cards alone make up
    a set, a run and a colour group. *)
Theorem validators_without_numbers (cards : list Card) (requiredCount : Z) :
  (forall c, c ∈ cards -> c_type c <> NUMBER) ->
  requiredCount <= len cards ->
  isValidSet cards requiredCount = true /\
  isValidRun cards requiredCount = true /\
  ((forall a b, a ∈ cards -> b ∈ cards -> c_type a = SKIP -> c_type b = SKIP ->
      c_color a = c_color b) ->
   isValidColor cards requiredCount = true).
Proof.
  intros Hnone Hlen.
  assert (Hnil : filter isNumber cards = []) by (by apply filter_none).
  unfold isValidSet, isValidRun, isValidColor. rewrite Hnil.
  destruct (Z.ltb_spec (len cards) requiredCount) as [|_]; [lia|].
  split; [done|]. split; [done|].
  intros Hskips.
  pose proof (len_natural_wild cards) as Hcount.
  destruct (filter isNumberOrSkip cards) as [|first rest] eqn:Hnat; [done|].
  apply andb_true_iff. split; [|apply Z.geb_le; lia].
  assert (Hskip : forall c, c ∈ first :: rest -> c ∈ cards /\ c_type c = SKIP).
  { intros c Hc. rewrite <- Hnat in Hc. apply list_elem_of_filter in Hc as [[Hn|Hs] Hc].
    - by destruct (Hnone c Hc).
    - done. }
  apply forallb_forall. intros c Hc. apply list_elem_of_In in Hc.
  apply bool_decide_eq_true.
  destruct (Hskip c Hc) as [? ?], (Hskip first) as [? ?]; [left|]. by apply Hskips.
Qed.

Lemma validators_without_numbers_witness :
  isValidSet [skipCard; skipCard; skipCard] 3 = true /\
  isValidRun [skipCard; skipCard; skipCard] 3 = true.
Proof.
  destruct (validators_without_numbers [skipCard; skipCard; skipCard] 3) as (Hset & Hrun & _).
  - intros c Hc. repeat (apply elem_of_cons in Hc as [->|Hc]; [discriminate|]).
    by apply elem_of_nil in Hc.
  - vm_compute. congruence.
  - split; [exact Hset|exact Hrun].
Defined.

(** ** The search for the two groups of a phase *)

Lemma searchSplit_sound trips i cards req0 req1 :
  match searchSplit trips i cards req0 req1 with
  | mkValidation true (Some gs) =>
      concat gs ≡ₚ cards /\
      Forall2 (fun group req => checkSingleReq group req = true) gs [req0; req1]
  | mkValidation false None => True
  | _ => False
  end.
Proof.
  revert i. induction trips as [|trips IH]; intros i; cbn [searchSplit]; [done|].
  pose proof (splitByMask_Permutation i 0 cards [] []) as Hsplit.
  destruct (splitByMask i 0 cards [] []) as [group1 group2]. cbn in Hsplit.
  destruct (checkSingleReq group1 req0 && checkSingleReq group2 req1) eqn:Hfirst.
  { apply andb_true_iff in Hfirst as [? ?]. split.
    - cbn. by rewrite app_nil_r.
    - by repeat constructor. }
  destruct (checkSingleReq group2 req0 && checkSingleReq group1 req1) eqn:Hsecond.
  { apply andb_true_iff in Hsecond as [? ?]. split.
    - cbn. rewrite app_nil_r, <- Hsplit. solve_Permutation.
    - by repeat constructor. }
  apply IH.
Qed.

(** X23. The verdict of [validatePhaseHand] comes with groups exactly when it
    is favourable; the groups are then the selection, every card in one
    group, and each group passes the validator of its requirement, in
    the order of the requirements. *)
Theorem validatePhaseHand_sound (selectedCards : list Card)
    (requirements : list PhaseRequirement) :
  let validation := validatePhaseHand selectedCards requirements in
  (valid validation = true <-> is_Some (groups validation)) /\
  forall gs, groups validation = Some gs ->
    concat gs ≡ₚ selectedCards /\
    Forall2 (fun group req => checkSingleReq group req = true) gs requirements.
Proof.
  unfold validatePhaseHand.
  destruct requirements as [|req0 [|req1 [|req2 reqs]]]; cbn zeta; cbn [valid groups].
  - split; [split; [done|by intros [? ?]]|done].
  - fold (checkSingleReq selectedCards req0).
    destruct (checkSingleReq selectedCards req0) eqn:Hcheck.
    + split; [split; [by eexists|done]|]. intros gs [= <-]. split.
      * cbn. by rewrite app_nil_r.
      * by repeat constructor.
    + split; [split; [done|by intros [? ?]]|done].
  - pose proof (searchSplit_sound
                  (Z.to_nat (js_shl 1 (len selectedCards) - 1 - 1)) 1 selectedCards
                  req0 req1) as Hsound.
    destruct (searchSplit _ 1 selectedCards req0 req1) as [[|] [gs|]];
      cbn [valid groups]; try done.
    split; [split; [by eexists|done]|]. by intros ? [= <-].
  - split; [split; [done|by intros [? ?]]|done].
Qed.

Lemma validatePhaseHand_sound_witness :
  concat [take 3 benSets; drop 3 benSets] ≡ₚ benSets /\
  Forall2 (fun group req => checkSingleReq group req = true)
    [take 3 benSets; drop 3 benSets] [mkReq SET 3; mkReq SET 3].
Proof.
  destruct (validatePhaseHand_sound benSets [mkReq SET 3; mkReq SET 3]) as (_ & Hgroups).
  apply Hgroups. vm_compute. reflexivity.
Defined.

Lemma checkSingleReq_Permutation (cards cards' : list Card) (req : PhaseRequirement) :
  cards ≡ₚ cards' -> checkSingleReq cards req = checkSingleReq cards' req.
Proof.
  intros Hp.
  pose proof (Permutation_len _ _ Hp) as Hlen.
  assert (Hw : len (filter isWild cards) = len (filter isWild cards'))
    by (apply Permutation_len; by rewrite Hp).
  unfold checkSingleReq. destruct (r_type req).
  - unfold isValidSet. rewrite <- Hlen, <- Hw.
    destruct (len cards <? r_count req); [done|].
    assert (Hn : filter isNumber cards ≡ₚ filter isNumber cards') by (by rewrite Hp).
    pose proof (Permutation_len _ _ Hn) as Hnlen.
    destruct (filter isNumber cards) as [|first rest],
             (filter isNumber cards') as [|first' rest']; try done;
      try (by apply Permutation_nil_cons in Hn);
      try (symmetry in Hn; by apply Permutation_nil_cons in Hn).
    rewrite Hnlen. f_equal.
    apply (allSame_Permutation c_value Z.eqb); [apply Z.eqb_eq | done].
  - unfold isValidRun. rewrite <- Hlen, <- Hw.
    destruct (len cards <? r_count req); [done|].
    assert (Hv : map c_value (js_sort byValueAsc (filter isNumber cards)) =
                 map c_value (js_sort byValueAsc (filter isNumber cards')))
      by (apply js_sort_values_Permutation; by rewrite Hp).
    rewrite (runGaps_values _ _ 0 Hv).
    destruct (js_sort byValueAsc (filter isNumber cards)) as [|a l],
             (js_sort byValueAsc (filter isNumber cards')) as [|a' l']; done.
  - unfold isValidColor. rewrite <- Hlen, <- Hw.
    destruct (len cards <? r_count req); [done|].
    assert (Hn : filter isNumberOrSkip cards ≡ₚ filter isNumberOrSkip cards')
      by (by rewrite Hp).
    pose proof (Permutation_len _ _ Hn) as Hnlen.
    destruct (filter isNumberOrSkip cards) as [|first rest],
             (filter isNumberOrSkip cards') as [|first' rest']; try done;
      try (by apply Permutation_nil_cons in Hn);
      try (symmetry in Hn; by apply Permutation_nil_cons in Hn).
    rewrite Hnlen. f_equal.
    pose (sameColor := fun a b : CardColor => bool_decide (a = b)).
    apply (allSame_Permutation c_color sameColor); [|done].
    intros x y. apply bool_decide_eq_true.
Qed.

Lemma toInt32_small (z : Z) : 0 <= z < 2 ^ 31 -> toInt32 z = z.
Proof.
  intros Hz. unfold toInt32. rewrite Z.mod_small by lia.
  destruct (Z.geb_spec z (2 ^ 31)); lia.
Qed.

(** Bit [j] of a mask below [2 ^ 31], as the loop reads it. *)
Lemma js_bit (i : Z) (j : nat) :
  0 <= i < 2 ^ 31 -> (j < 31)%nat ->
  (js_and (js_shr i (Z.of_nat j)) 1 =? 0) = negb (Z.testbit i (Z.of_nat j)).
Proof.
  intros Hi Hj. unfold js_and, js_shr.
  rewrite (toInt32_small i) by done.
  rewrite (Z.mod_small (Z.of_nat j) 32) by lia.
  assert (Hshift : 0 <= Z.shiftr i (Z.of_nat j) < 2 ^ 31).
  { rewrite Z.shiftr_div_pow2 by lia. split.
    - apply Z.div_pos; lia.
    - apply Z.le_lt_trans with i; [|lia]. apply Z.div_le_upper_bound; [lia|]. nia. }
  rewrite (toInt32_small (Z.shiftr i (Z.of_nat j))) by done.
  rewrite (toInt32_small 1) by lia.
  change 1 with (Z.ones 1) at 1. rewrite Z.land_ones by lia. change (2 ^ 1) with 2.
  rewrite <- Z.bit0_mod, Z.shiftr_spec by lia. rewrite Z.add_0_l.
  rewrite toInt32_small by (destruct (Z.testbit i (Z.of_nat j)); cbn; lia).
  by destruct (Z.testbit i (Z.of_nat j)).
Qed.

Lemma splitByMask_bits (i : Z) (bits : list bool) (cards : list Card) (j : nat)
    (group1 group2 : list Card) :
  0 <= i < 2 ^ 31 ->
  length bits = length cards ->
  (j + length cards <= 31)%nat ->
  (forall k b, bits !! k = Some b -> Z.testbit i (Z.of_nat (j + k)) = b) ->
  splitByMask i j cards group1 group2 =
  (group1 ++ sideOf true bits cards, group2 ++ sideOf false bits cards).
Proof.
  intros Hi. revert bits j group1 group2.
  induction cards as [|c cards IH]; intros bits j group1 group2 Hlen Hj Hbits.
  { destruct bits; cbn; by rewrite !app_nil_r. }
  destruct bits as [|b bits]; [done|]. cbn in Hlen, Hj.
  cbn [splitByMask sideOf]. rewrite js_bit by (done || lia).
  pose proof (Hbits 0%nat b eq_refl) as Hb. rewrite Nat.add_0_r in Hb. rewrite Hb.
  assert (Hrest : forall k b', bits !! k = Some b' ->
                    Z.testbit i (Z.of_nat (S j + k)) = b').
  { intros k b' Hk. replace (S j + k)%nat with (j + S k)%nat by lia.
    by apply Hbits. }
  destruct b; cbn [negb Bool.eqb]; rewrite (IH bits (S j)) by (done || lia);
    by rewrite <- ?app_assoc.
Qed.

Lemma maskOf_testbit (bits : list bool) k b :
  bits !! k = Some b -> Z.testbit (maskOf bits) (Z.of_nat k) = b.
Proof.
  revert k. induction bits as [|b' bits IH]; intros k Hk; [done|].
  cbn [maskOf]. rewrite Z.add_comm. destruct k as [|k]; cbn in Hk.
  - injection Hk as ->. apply Z.testbit_0_r.
  - rewrite Nat2Z.inj_succ, Z.testbit_succ_r by lia. by apply IH.
Qed.

Lemma maskOf_bounds (bits : list bool) :
  0 <= maskOf bits < 2 ^ Z.of_nat (length bits) /\
  (true ∈ bits -> 1 <= maskOf bits) /\
  (false ∈ bits -> maskOf bits <= 2 ^ Z.of_nat (length bits) - 2).
Proof.
  induction bits as [|b bits (IH & IHt & IHf)].
  { cbn. split; [lia|]. split; intros H; by apply elem_of_nil in H. }
  cbn [maskOf length]. rewrite Nat2Z.inj_succ, Z.pow_succ_r by lia.
  split; [destruct b; cbn; lia|]. split.
  - intros Hin. destruct b; cbn; [lia|].
    apply elem_of_cons in Hin as [|Hin]; [done|]. specialize (IHt Hin). lia.
  - intros Hin. destruct b; cbn; [|lia].
    apply elem_of_cons in Hin as [|Hin]; [done|]. specialize (IHf Hin). lia.
Qed.

Lemma sideOf_none (side : bool) (bits : list bool) (cards : list Card) :
  side ∉ bits -> sideOf side bits cards = [].
Proof.
  revert cards. induction bits as [|b bits IH]; intros cards Hnot; [done|].
  destruct cards as [|c cards]; [done|]. cbn.
  apply not_elem_of_cons in Hnot as [Hne Hnot].
  destruct (Bool.eqb_spec b side) as [->|_]; [done|]. by apply IH.
Qed.

Lemma Permutation_sides (cards group1 group2 : list Card) :
  cards ≡ₚ group1 ++ group2 ->
  exists bits,
    length bits = length cards /\
    sideOf true bits cards ≡ₚ group1 /\
    sideOf false bits cards ≡ₚ group2.
Proof.
  revert group1 group2.
  induction cards as [|c cards IH]; intros group1 group2 Hp.
  { apply Permutation_nil_l in Hp. symmetry in Hp.
    apply app_eq_nil in Hp as [-> ->]. by exists []. }
  assert (Hin : c ∈ group1 ++ group2) by (rewrite <- Hp; left).
  apply elem_of_app in Hin as [Hin|Hin];
    apply elem_of_Permutation in Hin as [rest Hrest].
  - destruct (IH rest group2) as (bits & Hlen & H1 & H2).
    { apply (Permutation_cons_inv (a := c)). by rewrite Hp, Hrest. }
    exists (true :: bits). cbn. split; [by rewrite Hlen|]. by rewrite H1, Hrest.
  - destruct (IH group1 rest) as (bits & Hlen & H1 & H2).
    { apply (Permutation_cons_inv (a := c)). rewrite Hp, Hrest. solve_Permutation. }
    exists (false :: bits). cbn. split; [by rewrite Hlen|]. by rewrite H2, Hrest.
Qed.

Lemma searchSplit_finds trips start i cards req0 req1 :
  start <= i < start + Z.of_nat trips ->
  checkSingleReq (splitByMask i 0 cards [] []).1 req0 = true ->
  checkSingleReq (splitByMask i 0 cards [] []).2 req1 = true ->
  valid (searchSplit trips start cards req0 req1) = true.
Proof.
  revert start. induction trips as [|trips IH]; intros start Hi H1 H2; [lia|].
  cbn [searchSplit].
  destruct (decide (start = i)) as [->|Hne].
  { destruct (splitByMask i 0 cards [] []) as [group1 group2]. cbn in H1, H2.
    by rewrite H1, H2. }
  destruct (splitByMask start 0 cards [] []) as [group1 group2].
  destruct (checkSingleReq group1 req0 && checkSingleReq group2 req1); [done|].
  destruct (checkSingleReq group2 req0 && checkSingleReq group1 req1); [done|].
  apply IH; [lia|done..].
Qed.

Lemma js_shl_one (n : nat) : (n <= 30)%nat -> js_shl 1 (Z.of_nat n) = 2 ^ Z.of_nat n.
Proof.
  intros Hn. unfold js_shl. rewrite (toInt32_small 1) by lia.
  rewrite Z.mod_small by lia. rewrite Z.shiftl_1_l.
  apply toInt32_small. split; [lia|].
  apply Z.pow_lt_mono_r; lia.
Qed.

(** X24. For a phase of two requirements and a selection of at most thirty
    cards, [validatePhaseHand] finds a split whenever there is one: if the
    selection can be parted into two groups with cards in each, the first
    passing the first requirement and the second the second, the verdict
    is favourable. *)
Theorem validatePhaseHand_finds_split (selectedCards group1 group2 : list Card)
    (req0 req1 : PhaseRequirement) :
  (length selectedCards <= 30)%nat ->
  selectedCards ≡ₚ group1 ++ group2 ->
  group1 <> [] -> group2 <> [] ->
  checkSingleReq group1 req0 = true ->
  checkSingleReq group2 req1 = true ->
  valid (validatePhaseHand selectedCards [req0; req1]) = true.
Proof.
  intros Hn Hp Hne1 Hne2 Hc1 Hc2.
  destruct (Permutation_sides _ _ _ Hp) as (bits & Hlen & Hs1 & Hs2).
  destruct (maskOf_bounds bits) as (Hrange & Hlow & Hhigh).
  assert (Htrue : true ∈ bits).
  { destruct (decide (true ∈ bits)) as [|Hnot]; [done|].
    rewrite (sideOf_none true bits selectedCards Hnot) in Hs1.
    by apply Permutation_nil_l in Hs1. }
  assert (Hfalse : false ∈ bits).
  { destruct (decide (false ∈ bits)) as [|Hnot]; [done|].
    rewrite (sideOf_none false bits selectedCards Hnot) in Hs2.
    by apply Permutation_nil_l in Hs2. }
  specialize (Hlow Htrue). specialize (Hhigh Hfalse). rewrite Hlen in Hrange, Hhigh.
  assert (Hpow : 2 ^ Z.of_nat (length selectedCards) <= 2 ^ 30)
    by (apply Z.pow_le_mono_r; lia).
  assert (Hsplit : splitByMask (maskOf bits) 0 selectedCards [] []
                   = (sideOf true bits selectedCards, sideOf false bits selectedCards)).
  { rewrite (splitByMask_bits (maskOf bits) bits); [done|lia|done|lia|].
    intros k b Hk. by apply maskOf_testbit. }
  unfold validatePhaseHand, len. rewrite js_shl_one by done.
  apply (searchSplit_finds _ 1 (maskOf bits)); [lia| |]; rewrite Hsplit; cbn [fst snd].
  - by rewrite (checkSingleReq_Permutation _ _ req0 Hs1).
  - by rewrite (checkSingleReq_Permutation _ _ req1 Hs2).
Qed.

Lemma validatePhaseHand_finds_split_witness :
  valid (validatePhaseHand (rev benSets) [mkReq SET 3; mkReq SET 3]) = true.
Proof.
  apply (validatePhaseHand_finds_split (rev benSets) (take 3 benSets) (drop 3 benSets));
    [cbn; lia| |discriminate|discriminate|reflexivity|reflexivity].
  rewrite take_drop. symmetry. apply Permutation_rev.
Defined.

(** ** The meld of a bot *)

(** What a discard that is not the last card of the hand leaves of the
    discarder. *)
Lemma performDiscard_discarder (g : Game) (player : Player) (cardToDiscard : Card)
    (s : Game) :
  (currentPlayerIndex g < length (players g))%nat ->
  filter (fun c => c_id c <> c_id cardToDiscard) (p_hand player) <> [] ->
  exists s' player',
    performDiscard g player cardToDiscard s = Returned tt s' /\
    players s' !! currentPlayerIndex g = Some player' /\
    p_id player' = p_id player /\
    p_hand player' = filter (fun c => c_id c <> c_id cardToDiscard) (p_hand player) /\
    p_melds player' = p_melds player /\
    p_hasLaidDownPhase player' = p_hasLaidDownPhase player /\
    p_phaseIndex player' = p_phaseIndex player /\
    p_score player' = p_score player.
Proof.
  intros Hlt Hleft.
  destruct (decide (c_type cardToDiscard = SKIP)) as [Hskip|Hskip].
  - destruct (performDiscard_skip_run g player cardToDiscard s Hlt Hskip Hleft)
      as (skipped & q & _ & Hq & ->).
    cbv zeta in Hq.
    destruct (decide (((currentPlayerIndex g + 1) `mod` length (players g))%nat
                      = currentPlayerIndex g)) as [Heq|Hne].
    + rewrite Heq in *. rewrite list_lookup_insert_eq in Hq by done.
      injection Hq as <-.
      eexists _, _. split; [reflexivity|]. cbn [players].
      rewrite list_lookup_insert_eq by (by rewrite length_insert). done.
    + eexists _, _. split; [reflexivity|]. cbn [players].
      rewrite list_lookup_insert_ne by done.
      rewrite list_lookup_insert_eq by done. done.
  - rewrite (performDiscard_plain g player cardToDiscard s Hlt Hskip Hleft).
    eexists _, _. split; [reflexivity|]. cbn [players].
    rewrite list_lookup_insert_eq by done. done.
Qed.

(** X25. When the bot lays down, the cards it takes from its hand for the meld
    are gone from the table after the turn: the discard that follows
    writes the players of the render back, with the bot marked as having
    laid down and without the meld.  The cards are the first of the hand,
    as many as the phase counts, whatever they are. *)
Theorem botPlayTurn_meld_vanishes (g : Game) (rnd : list nat) (now : Z) (bot : Player)
    (rest : list Card) (top : Card) (phase : Phase) :
  gameState g = PLAYING ->
  players g !! currentPlayerIndex g = Some bot ->
  deck g = rest ++ [top] ->
  NoDup (allCardIds g) ->
  p_hasLaidDownPhase bot = false ->
  lookupZ (phases g) (p_phaseIndex bot) = Some phase ->
  let reqCount := foldl (fun a b => a + r_count b) 0 (ph_requirements phase) in
  let drawn := p_hand bot ++ [top] in
  6 <= len drawn ->
  0 <= reqCount ->
  reqCount + 2 <= len drawn ->
  exists g' bot',
    botPlayTurn g rnd true now bot g = Returned tt g' /\
    gameState g' = PLAYING /\
    players g' !! currentPlayerIndex g = Some bot' /\
    p_hasLaidDownPhase bot' = true /\
    p_melds bot' = p_melds bot /\
    take (Z.to_nat reqCount) drawn ++ allCards g' ≡ₚ allCards g.
Proof.
  intros Hplaying Hcur Hdeck Hnd Hlaid Hphase reqCount drawn Hsix Hreq Hroom.
  pose proof (lookup_lt_Some _ _ _ Hcur) as Hlt.
  unfold len in *.
  set (k := Z.to_nat reqCount).
  assert (Hslice : js_slice0 reqCount drawn = take k drawn).
  { unfold js_slice0, len. destruct (Z.ltb_spec reqCount 0); [lia|].
    by rewrite Z.min_l by lia. }
  assert (Hsplice : js_splice0 reqCount drawn = drop k drawn).
  { unfold js_splice0, len. by rewrite Z.max_l, Z.min_l by lia. }
  (* the cards of the table, with the hand after the draw set apart *)
  assert (Hall : allCards g ≡ₚ
            drawn ++ rest ++ discardPile g ++ flat_map m_cards (p_melds bot) ++
            flat_map playerCards (delete (currentPlayerIndex g) (players g))).
  { unfold allCards. rewrite Hdeck.
    rewrite <- (take_drop_middle _ _ _ Hcur) at 1.
    rewrite delete_take_drop, !flat_map_app. cbn. unfold playerCards at 2.
    subst drawn. solve_Permutation. }
  assert (HndDrawn : NoDup (map c_id drawn)).
  { unfold allCardIds in Hnd. rewrite Hall, map_app in Hnd.
    by apply NoDup_app in Hnd as [? _]. }
  assert (HndHand : NoDup (map c_id (drop k drawn))).
  { rewrite <- (take_drop k drawn), map_app in HndDrawn.
    by apply NoDup_app in HndDrawn as (_ & _ & ?). }
  assert (Hkept : (2 <= length (drop k drawn))%nat) by (rewrite length_drop; lia).
  destruct (pickDiscard_elem (drop k drawn)) as (discardCard & Hpick & Hin).
  { intros Hnil. rewrite Hnil in Hkept. cbn in Hkept. lia. }
  pose proof (filter_other_ids_nonempty _ _ HndHand Hin Hkept) as Hleft.
  set (botUpdated := withHasLaidDownPhase (withHand bot (drop k drawn)) true).
  unfold botPlayTurn.
  rewrite decide_False by (by rewrite Hplaying; intros ?).
  rewrite Hdeck, last_snoc, removelast_last. run_step.
  unfold botMeldAndDiscard. fold drawn.
  rewrite Hlaid. cbn [negb andb].
  replace (len drawn >=? 6) with true by (symmetry; apply Z.geb_le; unfold len; lia).
  cbn [andb]. rewrite Hphase. cbv beta iota. fold reqCount. rewrite Hslice, Hsplice.
  erewrite bind_Returned
    by (erewrite bind_Returned by (unfold setPlayers; reflexivity); reflexivity).
  cbv beta iota. rewrite orb_true_r. fold botUpdated.
  unfold pickDiscard in Hpick. cbv zeta in Hpick. rewrite Hpick.
  match goal with
  | |- context [performDiscard g botUpdated discardCard ?s] => set (queued := s)
  end.
  destruct (performDiscard_cards g botUpdated discardCard queued Hlt HndHand Hin Hleft)
    as (g' & Hrun & Hstate & Hdeck' & Hpile & Hplayers).
  destruct (performDiscard_discarder g botUpdated discardCard queued Hlt Hleft)
    as (g'' & bot' & Hrun' & Hat & _ & _ & Hmelds & Hflag & _).
  rewrite Hrun in Hrun'. injection Hrun' as <-.
  exists g', bot'. split; [done|]. split; [by rewrite Hstate|].
  split; [done|]. split; [done|]. split; [done|].
  unfold allCards at 1. rewrite Hdeck', Hpile. subst queued. cbn [deck].
  assert (Hbot : flat_map playerCards (<[currentPlayerIndex g := botUpdated]> (players g))
                 ≡ₚ drop k drawn ++ flat_map m_cards (p_melds bot) ++
                    flat_map playerCards (delete (currentPlayerIndex g) (players g))).
  { rewrite <- (take_drop_middle _ _ _ Hcur) at 1.
    rewrite insert_app_r_alt by (rewrite length_take; lia).
    rewrite length_take, Nat.min_l by lia. rewrite Nat.sub_diag. cbn [insert list_insert].
    rewrite delete_take_drop, !flat_map_app. cbn. unfold playerCards at 2. cbn.
    solve_Permutation. }
  rewrite Hbot in Hplayers. rewrite Hall.
  rewrite <- (take_drop k drawn) at 2.
  trans (take k drawn ++ rest ++ discardPile g ++
         discardCard :: flat_map playerCards (players g')); [solve_Permutation|].
  rewrite Hplayers. solve_Permutation.
Qed.

Lemma botPlayTurn_meld_vanishes_witness :
  exists g' bot',
    botPlayTurn midRound [] true 0 alphaSeven midRound = Returned tt g' /\
    players g' !! 1%nat = Some bot' /\
    p_hasLaidDownPhase bot' = true /\
    p_melds bot' = [].
Proof.
  destruct (botPlayTurn_meld_vanishes midRound [] 0 alphaSeven
              [mkCard "card-60" NUMBER GREEN 1 "1"] (mkCard "card-73" NUMBER YELLOW 2 "2")
              (mkPhase 1 "Phase 1" "2 Sets of 3" [mkReq SET 3; mkReq SET 3]))
    as (g' & bot' & Hrun & _ & Hat & Hflag & Hmelds & _);
    [reflexivity|reflexivity|reflexivity|compute_done|reflexivity|reflexivity
    |vm_compute; congruence|vm_compute; congruence|vm_compute; congruence|].
  exists g', bot'. split; [exact Hrun|]. split; [exact Hat|].
  split; [exact Hflag|exact Hmelds].
Defined.

(** ** From one round to the next *)

(** X26. When no player who laid down is on one of the last two phases,
    [endRound] followed by [nextRound] on the host starts a new round on
    the 108 cards: every player keeps the score of the round just ended,
    moves up one phase if and only if they had laid down, and holds ten
    fresh cards with no meld. *)
Theorem endRound_nextRound_new_round (g : Game) (winnerId : string) (rnd : list nat)
    (turnDuration : Z) (first : Player) (others : list Player) :
  isMultiplayer g && negb (isHost g) = false ->
  players g = first :: others ->
  (length others < 10)%nat ->
  0 <= p_phaseIndex first < len (phases g) ->
  (forall p, p ∈ players g -> p_hasLaidDownPhase p = true ->
     p_phaseIndex p < len (phases g) - 2) ->
  exists scored g',
    run g (endRound g winnerId) = Some scored /\
    nextRound scored rnd turnDuration scored = Returned tt g' /\
    gameState g' = PLAYING /\
    allCards g' ≡ₚ createDeck /\
    forall i p, players g !! i = Some p ->
      exists p',
        players g' !! i = Some p' /\
        p_id p' = p_id p /\
        p_score p' =
          (if decide (p_id p = winnerId) then p_score p
           else p_score p + calculateScore (p_hand p)) /\
        p_phaseIndex p' =
          (if p_hasLaidDownPhase p then p_phaseIndex p + 1 else p_phaseIndex p) /\
        length (p_hand p') = 10%nat /\
        p_melds p' = [] /\
        p_hasLaidDownPhase p' = false.
Proof.
  intros Hhost Hplayers Hothers Hfirst Hearly.
  set (score := fun p : Player =>
         if decide (p_id p = winnerId) then withScore p (p_score p)
         else withScore p (p_score p + calculateScore (p_hand p))).
  set (advance := fun p : Player =>
         withPhaseIndex p
           (if p_hasLaidDownPhase p
            then Z.min (p_phaseIndex p + 1) (len (phases g) - 1)
            else p_phaseIndex p)).
  set (scored :=
         mkGame ROUND_OVER (phases g) (notification g) (isMultiplayer g) (isHost g)
           (timeLeft g) (map advance (map score (players g))) (deck g) (discardPile g)
           (currentPlayerIndex g) (turnPhase g) (selectedCardIds g) (Some winnerId)
           (sentActions g)).
  assert (Hflag : forall p, p_hasLaidDownPhase (score p) = p_hasLaidDownPhase p)
    by (intros p; unfold score; by destruct (decide _)).
  assert (Hindex : forall p, p_phaseIndex (score p) = p_phaseIndex p)
    by (intros p; unfold score; by destruct (decide _)).
  exists scored.
  assert (Hnot : existsb
                   (fun p => (p_phaseIndex p =? len (phases scored) - 1)
                             && p_hasLaidDownPhase p)
                   (players scored) = false).
  { apply not_true_is_false. intros Hex. apply existsb_exists in Hex as (q & Hq & Hlast).
    apply list_elem_of_In in Hq. cbn [players scored] in Hq.
    rewrite <- list_fmap_compose in Hq.
    apply list_elem_of_fmap in Hq as (p & -> & Hp).
    apply andb_true_iff in Hlast as [Hlast Hlaid].
    apply Z.eqb_eq in Hlast. cbn in Hlast, Hlaid.
    rewrite Hflag in Hlaid. rewrite Hflag, Hlaid, Hindex in Hlast.
    specialize (Hearly p Hp Hlaid). lia. }
  destruct (startRoundWith_fresh scored turnDuration (advance (score first))
              (map advance (map score others)) (shuffleDeck rnd createDeck))
    as (g' & Hrun & Hstate & _ & _ & _ & _ & _ & _ & _ & _ & Hseats & Hcards).
  { by rewrite !length_map. }
  { cbn [phases scored]. unfold lookupZ, advance. cbn [p_phaseIndex withPhaseIndex].
    rewrite Hflag, Hindex.
    destruct (p_hasLaidDownPhase first) eqn:Hlaid.
    - assert (p_phaseIndex first < len (phases g) - 2).
      { apply Hearly; [rewrite Hplayers; left|done]. }
      destruct (Z.ltb_spec (Z.min (p_phaseIndex first + 1) (len (phases g) - 1)) 0); [lia|].
      apply lookup_lt_is_Some_2. unfold len in *. lia.
    - destruct (Z.ltb_spec (p_phaseIndex first) 0); [lia|].
      apply lookup_lt_is_Some_2. unfold len in *. lia. }
  { by rewrite (Permutation_length (shuffleDeck_Permutation rnd createDeck)),
      createDeck_length. }
  exists g'. split.
  { unfold run, endRound. do 2 run_step. reflexivity. }
  split.
  { unfold nextRound. cbn [isMultiplayer isHost scored]. rewrite Hhost.
    fold scored. rewrite Hnot. unfold startRound.
    cbn [players scored]. rewrite Hplayers. exact Hrun. }
  split; [done|].
  split; [by rewrite Hcards, shuffleDeck_Permutation|].
  intros i p Hp. rewrite Hplayers in Hp.
  destruct (Hseats i (advance (score p))) as (p' & Hat & Hid & _ & _ & Hsc & Hix & Hlen
                                              & _ & Hmelds & Hlaid & _).
  { change (advance (score first) :: map advance (map score others))
      with (map advance (map score (first :: others))).
    by rewrite !list_lookup_fmap, Hp. }
  exists p'. split; [done|].
  split. { rewrite Hid. unfold advance, score. by destruct (decide _). }
  split. { rewrite Hsc. unfold advance, score. by destruct (decide _). }
  split; [|done].
  rewrite Hix. unfold advance. cbn [p_phaseIndex withPhaseIndex]. rewrite Hflag, Hindex.
  destruct (p_hasLaidDownPhase p) eqn:Hl; [|done].
  assert (p_phaseIndex p < len (phases g) - 2).
  { apply Hearly; [|done]. rewrite Hplayers. by eapply list_elem_of_lookup_2. }
  lia.
Qed.

Lemma endRound_nextRound_new_round_witness :
  exists scored g',
    run skipRound (endRound skipRound "p1") = Some scored /\
    nextRound scored [] 30 scored = Returned tt g' /\
    gameState g' = PLAYING /\
    allCards g' ≡ₚ createDeck.
Proof.
  destruct (endRound_nextRound_new_round skipRound "p1" [] 30 annWithSkip [alpha; cara])
    as (scored & g' & Hscored & Hnext & Hstate & Hcards & _).
  - reflexivity.
  - reflexivity.
  - cbn. lia.
  - vm_compute. split; congruence.
  - intros p Hp Hlaid. exfalso.
    repeat (apply elem_of_cons in Hp as [->|Hp]; [discriminate|]).
    by apply elem_of_nil in Hp.
  - exists scored, g'. split; [exact Hscored|]. split; [exact Hnext|].
    split; [exact Hstate|exact Hcards].
Defined.

(** ** Drawing from the deck *)

(** X27. [handleDraw] from a deck with cards, on the host or in a local game:
    the card on top goes to the hand of the player at turn, who moves on to
    the action step; the discard pile and the other hands are left alone.
    The sub-phase is not asked for.  In a local game a bot at turn with
    time on the clock is left to play by itself. *)
Theorem handleDraw_from_deck (g : Game) (rnd : list nat) (player : Player)
    (rest : list Card) (top : Card) :
  isMultiplayer g && negb (isHost g) = false ->
  players g !! currentPlayerIndex g = Some player ->
  deck g = rest ++ [top] ->
  (negb (p_isHuman player) && (timeLeft g >? 0) && negb (isMultiplayer g) = true ->
     forall fromDiscard, handleDraw g rnd fromDiscard g = Returned tt g) /\
  (negb (p_isHuman player) && (timeLeft g >? 0) && negb (isMultiplayer g) = false ->
     handleDraw g rnd false g =
     Returned tt
       (mkGame (gameState g) (phases g) (notification g) (isMultiplayer g) (isHost g)
          (timeLeft g)
          (<[currentPlayerIndex g := withHand player (p_hand player ++ [top])]>
             (players g))
          rest (discardPile g) (currentPlayerIndex g) ACTION (selectedCardIds g)
          (roundWinnerId g) (sentActions g))).
Proof.
  intros Hhost Hcur Hdeck.
  pose proof (lookup_lt_Some _ _ _ Hcur) as Hlt.
  split.
  { intros Hguard fromDiscard. unfold handleDraw. rewrite Hhost.
    erewrite bind_Returned by (by apply readIndex_Returned).
    by rewrite Hguard. }
  intros Hguard. unfold handleDraw. rewrite Hhost.
  erewrite bind_Returned by (by apply readIndex_Returned).
  rewrite Hguard, Hdeck, last_snoc, removelast_last.
  unfold finishDraw. erewrite bind_Returned by (by apply arraySet_Returned).
  do 3 run_step. reflexivity.
Qed.

Lemma handleDraw_from_deck_witness :
  handleDraw skipRound [] false skipRound =
  Returned tt
    (mkGame PLAYING STANDARD_PHASES "" false false 30
       [ withHand annWithSkip
           (p_hand annWithSkip ++ [mkCard "card-101" WILD WILD_COLOR 25 "W"]);
         alpha; cara ]
       [] spentPile 0%nat ACTION [] None []).
Proof.
  destruct (handleDraw_from_deck skipRound [] annWithSkip []
              (mkCard "card-101" WILD WILD_COLOR 25 "W")) as (_ & Hdraw);
    [reflexivity|reflexivity|reflexivity|].
  apply Hdraw. reflexivity.
Defined.

(** ** Going out on a hit *)

(** X28. A hit with the last card of the hand ends the round with the hitter
    as winner.  The players are scored as the render had them: the card
    is still in the hand and not on the meld. *)
Theorem executeHit_last_card (g : Game) (player : Player) (card : Card)
    (targetMeldId : string) (targetMeld : Meld) :
  findTargetMeld targetMeldId (players g) = Some targetMeld ->
  canAddToMeld card targetMeld = true ->
  filter (fun c => c_id c <> c_id card) (p_hand player) = [] ->
  exists g',
    executeHit g player card targetMeldId g = Returned tt g' /\
    gameState g' = ROUND_OVER /\
    roundWinnerId g' = Some (p_id player) /\
    notification g' = "Card added to phase!" /\
    deck g' = deck g /\ discardPile g' = discardPile g /\
    map p_hand (players g') = map p_hand (players g) /\
    map p_melds (players g') = map p_melds (players g).
Proof.
  intros Htarget Hfits Hlast. unfold executeHit. rewrite Htarget, Hfits, Hlast.
  do 3 run_step. rewrite decide_True by done.
  unfold endRound. do 2 run_step.
  eexists. split; [reflexivity|]. cbn.
  do 5 (split; [done|]).
  split; rewrite !map_map; apply map_ext; intros p;
    by destruct (decide (p_id p = p_id player)).
Qed.

Lemma executeHit_last_card_witness :
  let five := mkCard "card-40" NUMBER BLUE 5 "5" in
  let g := mkGame PLAYING STANDARD_PHASES "" false false 30
             [withHand ann [five]; alphaLaid] [] spentPile 0%nat ACTION [] None [] in
  exists g',
    executeHit g (withHand ann [five]) five "meld-1700000000000-0" g = Returned tt g' /\
    gameState g' = ROUND_OVER /\
    roundWinnerId g' = Some "p1" /\
    map p_hand (players g') = [[five]; p_hand alphaLaid].
Proof.
  intros five g.
  destruct (executeHit_last_card g (withHand ann [five]) five "meld-1700000000000-0" fives)
    as (g' & Hrun & Hstate & Hwinner & _ & _ & _ & Hhands & _);
    [reflexivity|reflexivity|reflexivity|].
  exists g'. split; [exact Hrun|]. split; [exact Hstate|].
  split; [exact Hwinner|exact Hhands].
Defined.

(** ** The cards of a table *)

(** A table that holds the cards of [createDeck] holds 108 of them, under
    distinct ids: the ids of every hand are distinct, as the handlers that
    look a card up by its id take for granted. *)
Theorem table_ids_distinct (g : Game) :
  allCards g ≡ₚ createDeck ->
  length (allCards g) = 108%nat /\
  NoDup (allCardIds g) /\
  forall p, p ∈ players g -> NoDup (map c_id (p_hand p)).
Proof.
  intros Hcards. split; [by rewrite Hcards, createDeck_length|].
  assert (Hnd : NoDup (allCardIds g)).
  { unfold allCardIds. rewrite Hcards. apply createDeck_ids_distinct. }
  split; [done|].
  intros p Hp. apply list_elem_of_lookup in Hp as [i Hi].
  unfold allCardIds, allCards in Hnd.
  rewrite <- (take_drop_middle _ _ _ Hi), !flat_map_app in Hnd. cbn in Hnd.
  unfold playerCards at 2 in Hnd. rewrite !map_app in Hnd.
  do 3 apply NoDup_app in Hnd as (_ & _ & Hnd).
  apply NoDup_app in Hnd as (Hnd & _). by apply NoDup_app in Hnd as (Hnd & _).
Qed.

Lemma table_ids_distinct_witness :
  length (allCards deckPlayedOut) = 108%nat /\ NoDup (allCardIds deckPlayedOut).
Proof.
  destruct (table_ids_distinct deckPlayedOut) as (Hlen & Hnd & _).
  - replace (allCards deckPlayedOut) with (drop 40 createDeck ++ take 40 createDeck)
      by (vm_compute; reflexivity).
    by rewrite Permutation_app_comm, take_drop.
  - split; [exact Hlen|exact Hnd].
Defined.

(** ** Laying down a phase *)

Lemma buildMelds_melds clock requirements ownerId idx gs :
  (idx + length gs <= length requirements)%nat ->
  exists melds,
    buildMelds clock requirements ownerId idx gs = Some melds /\
    map m_cards melds = gs /\
    map m_type melds = map r_type (take (length gs) (drop idx requirements)) /\
    Forall (fun m => m_ownerId m = ownerId) melds.
Proof.
  revert idx. induction gs as [|group gs IH]; intros idx Hlen; cbn [length] in *.
  - exists []. cbn. by rewrite take_0.
  - destruct (lookup_lt_is_Some_2 requirements idx) as [req Hreq]; [lia|].
    destruct (IH (S idx)) as (rest & Hrest & Hcards & Htypes & Howner); [lia|].
    cbn [buildMelds]. rewrite Hreq, Hrest.
    eexists. split; [done|]. cbn. rewrite Hcards. split; [done|].
    split; [|by constructor].
    rewrite (drop_S _ _ _ Hreq). cbn. by rewrite Htypes.
Qed.

(** X29. [handleMeld] on the host or in a local game, for a player at turn who
    has not laid down.  A selection that does not make up the phase only
    draws a notice.  One that does leaves the hand for new melds of the
    player, one per requirement and of its kind, holding the groups that
    [validatePhaseHand] found; the player has then laid down, the
    selection is cleared and the cards of the table are conserved.  The
    sub-phase is not asked for. *)
Theorem handleMeld_lays_down (g : Game) (clock : nat -> Z) (player : Player)
    (phase : Phase) :
  isMultiplayer g && negb (isHost g) = false ->
  players g !! currentPlayerIndex g = Some player ->
  p_hasLaidDownPhase player = false ->
  lookupZ (phases g) (p_phaseIndex player) = Some phase ->
  let selectedHand := filter (fun c => c_id c ∈ selectedCardIds g) (p_hand player) in
  let validation := validatePhaseHand selectedHand (ph_requirements phase) in
  (valid validation = false ->
     handleMeld g clock g =
     Returned tt
       (mkGame (gameState g) (phases g) "Invalid card combination for this phase."
          (isMultiplayer g) (isHost g) (timeLeft g) (players g) (deck g) (discardPile g)
          (currentPlayerIndex g) (turnPhase g) (selectedCardIds g) (roundWinnerId g)
          (sentActions g))) /\
  (valid validation = true ->
     exists gs newMelds g',
       groups validation = Some gs /\
       map m_cards newMelds = gs /\
       map m_type newMelds = map r_type (ph_requirements phase) /\
       Forall (fun m => m_ownerId m = p_id player) newMelds /\
       g' = mkGame (gameState g) (phases g)
              "Phase Completed! You can now hit on melds or discard."
              (isMultiplayer g) (isHost g) (timeLeft g)
              (<[currentPlayerIndex g :=
                   mkPlayer (p_id player) (p_name player) (p_isHuman player)
                     (filter (fun c => c_id c ∉ selectedCardIds g) (p_hand player))
                     (p_melds player ++ newMelds) (p_phaseIndex player) true
                     (p_score player) (p_isSkipped player)]> (players g))
              (deck g) (discardPile g) (currentPlayerIndex g) (turnPhase g) []
              (roundWinnerId g) (sentActions g) /\
       handleMeld g clock g = Returned tt g' /\
       allCards g' ≡ₚ allCards g).
Proof.
  intros Hhost Hcur Hlaid Hphase selectedHand validation.
  pose proof (lookup_lt_Some _ _ _ Hcur) as Hlt.
  pose proof (validatePhaseHand_one_group_each selectedHand (ph_requirements phase))
    as Hcount.
  pose proof (validatePhaseHand_groups selectedHand (ph_requirements phase)) as Hgroups.
  assert (Hsome : valid validation = true -> is_Some (groups validation)).
  { subst validation. unfold validatePhaseHand.
    destruct (ph_requirements phase) as [|req0 [|req1 [|req2 reqs]]]; cbn; try done.
    - by intros ->.
    - pose proof (searchSplit_sound
                    (Z.to_nat (js_shl 1 (len selectedHand) - 1 - 1)) 1 selectedHand
                    req0 req1) as Hsound.
      by destruct (searchSplit _ 1 selectedHand req0 req1) as [[|] [gs|]]. }
  unfold handleMeld. rewrite Hhost.
  erewrite bind_Returned by (by apply readIndex_Returned).
  rewrite Hlaid, Hphase. fold selectedHand. fold validation.
  split.
  - intros Hvalid. by rewrite Hvalid.
  - intros Hvalid. destruct (Hsome Hvalid) as [gs Hgs].
    rewrite Hvalid, Hgs. fold validation in Hcount, Hgroups.
    specialize (Hcount gs Hgs). specialize (Hgroups gs Hgs).
    destruct (buildMelds_melds clock (ph_requirements phase) (p_id player) 0 gs)
      as (newMelds & Hbuilt & Hcards & Htypes & Howner); [lia|].
    rewrite Hbuilt.
    exists gs, newMelds. eexists. split; [done|]. split; [done|].
    split. { by rewrite Htypes, drop_0, Hcount, firstn_all. }
    split; [done|]. split; [reflexivity|]. split.
    { erewrite bind_Returned by (by apply arraySet_Returned).
      do 2 run_step. reflexivity. }
    unfold allCards. cbn [deck discardPile players].
    rewrite (playerCards_same _ _ player _ Hcur); [done|].
    unfold playerCards. cbn [p_hand p_melds].
    rewrite flat_map_app, (buildMelds_cards _ _ _ _ _ _ Hbuilt), Hgroups.
    pose proof (filter_app_complement (fun c => c_id c ∈ selectedCardIds g)
                  (p_hand player)) as Hhand.
    fold selectedHand in Hhand. rewrite <- Hhand at 2. solve_Permutation.
Qed.

Lemma handleMeld_lays_down_witness :
  exists newMelds g',
    map m_cards newMelds = [take 3 benSets; drop 3 benSets] /\
    handleMeld
      (mkGame PLAYING STANDARD_PHASES "" false false 30
         [withMelds (withHasLaidDownPhase ben false) []; alpha]
         [mkCard "card-101" WILD WILD_COLOR 25 "W"] spentPile 0%nat ACTION
         (map c_id benSets) None [])
      (fun _ => 1700000000001)
      (mkGame PLAYING STANDARD_PHASES "" false false 30
         [withMelds (withHasLaidDownPhase ben false) []; alpha]
         [mkCard "card-101" WILD WILD_COLOR 25 "W"] spentPile 0%nat ACTION
         (map c_id benSets) None [])
    = Returned tt g' /\
    players g' !! 0%nat =
    Some (mkPlayer "p2" "Ben" true [mkCard "card-0" NUMBER RED 1 "1"] newMelds 0 true 0
            (Some false)).
Proof.
  destruct (handleMeld_lays_down
              (mkGame PLAYING STANDARD_PHASES "" false false 30
                 [withMelds (withHasLaidDownPhase ben false) []; alpha]
                 [mkCard "card-101" WILD WILD_COLOR 25 "W"] spentPile 0%nat ACTION
                 (map c_id benSets) None [])
              (fun _ => 1700000000001)
              (withMelds (withHasLaidDownPhase ben false) [])
              (mkPhase 1 "Phase 1" "2 Sets of 3" [mkReq SET 3; mkReq SET 3]))
    as (_ & Hlays); [reflexivity|reflexivity|reflexivity|reflexivity|].
  destruct Hlays as (gs & newMelds & g' & Hgs & Hcards & _ & _ & Hstate & Hrun & _);
    [vm_compute; reflexivity|].
  exists newMelds, g'. split.
  { rewrite Hcards. vm_compute in Hgs. by injection Hgs as <-. }
  split; [exact Hrun|]. by rewrite Hstate.
Defined.

(** ** The plain turn of a bot *)

(** X30. A bot at turn that holds a card and does not try a meld draws the top
    of the deck and gives up the card [pickDiscard] names for the hand
    after the draw; the turn moves on to a draw and the cards of the table
    are conserved. *)
Theorem botPlayTurn_draws_and_discards (g : Game) (rnd : list nat) (now : Z)
    (bot : Player) (rest : list Card) (top : Card) :
  gameState g = PLAYING ->
  players g !! currentPlayerIndex g = Some bot ->
  deck g = rest ++ [top] ->
  NoDup (allCardIds g) ->
  p_hand bot <> [] ->
  exists discardCard g' bot',
    pickDiscard (p_hand bot ++ [top]) = Some discardCard /\
    botPlayTurn g rnd false now bot g = Returned tt g' /\
    gameState g' = PLAYING /\
    deck g' = rest /\
    discardPile g' = discardPile g ++ [discardCard] /\
    turnPhase g' = DRAW /\
    players g' !! currentPlayerIndex g = Some bot' /\
    discardCard :: p_hand bot' ≡ₚ p_hand bot ++ [top] /\
    p_melds bot' = p_melds bot /\
    p_hasLaidDownPhase bot' = p_hasLaidDownPhase bot /\
    allCards g' ≡ₚ allCards g.
Proof.
  intros Hplaying Hcur Hdeck Hnd Hholds.
  pose proof (lookup_lt_Some _ _ _ Hcur) as Hlt.
  set (drawn := p_hand bot ++ [top]).
  assert (Hall : allCards g ≡ₚ
            drawn ++ rest ++ discardPile g ++ flat_map m_cards (p_melds bot) ++
            flat_map playerCards (delete (currentPlayerIndex g) (players g))).
  { unfold allCards. rewrite Hdeck.
    rewrite <- (take_drop_middle _ _ _ Hcur) at 1.
    rewrite delete_take_drop, !flat_map_app. cbn. unfold playerCards at 2.
    subst drawn. solve_Permutation. }
  assert (HndDrawn : NoDup (map c_id drawn)).
  { unfold allCardIds in Hnd. rewrite Hall, map_app in Hnd.
    by apply NoDup_app in Hnd as [? _]. }
  assert (Hkept : (2 <= length drawn)%nat).
  { subst drawn. rewrite length_app. cbn. destruct (p_hand bot); [done|cbn; lia]. }
  destruct (pickDiscard_elem drawn) as (discardCard & Hpick & Hin).
  { intros Hnil. rewrite Hnil in Hkept. cbn in Hkept. lia. }
  pose proof (filter_other_ids_nonempty _ _ HndDrawn Hin Hkept) as Hleft.
  set (botUpdated := withHasLaidDownPhase (withHand bot drawn) (p_hasLaidDownPhase bot)).
  unfold botPlayTurn.
  rewrite decide_False by (by rewrite Hplaying; intros ?).
  rewrite Hdeck, last_snoc, removelast_last. run_step.
  unfold botMeldAndDiscard. fold drawn. rewrite andb_false_r.
  erewrite bind_Returned by reflexivity.
  cbv beta iota. rewrite orb_false_r. fold botUpdated.
  pose proof Hpick as Hpick'. unfold pickDiscard in Hpick'. cbv zeta in Hpick'.
  rewrite Hpick'.
  match goal with
  | |- context [performDiscard g botUpdated discardCard ?s] => set (queued := s)
  end.
  destruct (performDiscard_cards g botUpdated discardCard queued Hlt HndDrawn Hin Hleft)
    as (g' & Hrun & Hstate & Hdeck' & Hpile & Hplayers).
  destruct (performDiscard_discarder g botUpdated discardCard queued Hlt Hleft)
    as (g1 & bot' & Hrun1 & Hat & _ & Hhand & Hmelds & Hflag & _).
  destruct (performDiscard_turn g botUpdated discardCard queued Hlt Hleft)
    as (g2 & Hrun2 & Hturn & _).
  rewrite Hrun in Hrun1, Hrun2. injection Hrun1 as <-. injection Hrun2 as <-.
  exists discardCard, g', bot'. split; [done|]. split; [done|].
  split; [by rewrite Hstate|]. split; [done|]. split; [done|]. split; [done|].
  split; [done|].
  split. { rewrite Hhand. symmetry. by apply filter_other_ids. }
  split; [done|]. split; [done|].
  unfold allCards at 1. rewrite Hdeck', Hpile. subst queued. cbn [deck].
  assert (Hbot : flat_map playerCards (<[currentPlayerIndex g := botUpdated]> (players g))
                 ≡ₚ drawn ++ flat_map m_cards (p_melds bot) ++
                    flat_map playerCards (delete (currentPlayerIndex g) (players g))).
  { rewrite <- (take_drop_middle _ _ _ Hcur) at 1.
    rewrite insert_app_r_alt by (rewrite length_take; lia).
    rewrite length_take, Nat.min_l by lia. rewrite Nat.sub_diag. cbn [insert list_insert].
    rewrite delete_take_drop, !flat_map_app. cbn. unfold playerCards at 2. cbn.
    solve_Permutation. }
  rewrite Hbot in Hplayers. rewrite Hall.
  trans (rest ++ discardPile g ++ discardCard :: flat_map playerCards (players g'));
    [solve_Permutation|].
  rewrite Hplayers. solve_Permutation.
Qed.

Lemma botPlayTurn_draws_and_discards_witness :
  exists discardCard g',
    botPlayTurn midRound [] false 0 alphaSeven midRound = Returned tt g' /\
    discardPile g' = spentPile ++ [discardCard] /\
    deck g' = [mkCard "card-60" NUMBER GREEN 1 "1"] /\
    turnPhase g' = DRAW.
Proof.
  destruct (botPlayTurn_draws_and_discards midRound [] 0 alphaSeven
              [mkCard "card-60" NUMBER GREEN 1 "1"] (mkCard "card-73" NUMBER YELLOW 2 "2"))
    as (discardCard & g' & bot' & _ & Hrun & _ & Hdeck & Hpile & Hturn & _);
    [reflexivity|reflexivity|reflexivity|compute_done|discriminate|].
  exists discardCard, g'. split; [exact Hrun|]. split; [exact Hpile|].
  split; [exact Hdeck|exact Hturn].
Defined.
